(** * AI Tab Assistant: a shallow embedding of the panel, background and
      options scripts, and the properties of their string and state logic.

    Source files:
    - [src/sidepanel/panel.js]          (side panel: chat, history, threads)
    - background service worker         (page extraction, context formatting,
                                         remote chat call)
    - options script                    (credential and model settings)

    JavaScript strings are sequences of UTF-16 code units; they are modelled
    as lists of code units.  Host services (the URL parser, the clock, the
    storage area, the network) are inputs of the functions that use them. *)

From Stdlib Require Import String Ascii DecimalString.
From Stdlib Require Import List ZArith NArith Lia Bool.
From Stdlib Require Import Permutation Sorted.
Import ListNotations.

Set Implicit Arguments.

(* ================================================================== *)
(** * JavaScript strings and arrays                                    *)
(* ================================================================== *)

(** A string is the list of its UTF-16 code units. *)
Definition jsstring := list N.

(** An ASCII literal of the source, as code units. *)
Fixpoint lit (s : string) : jsstring :=
  match s with
  | EmptyString => []
  | String a r => N_of_ascii a :: lit r
  end.

(** The double quote, kept apart from the literals. *)
Definition dquote : jsstring := [34%N].
(** The back-tick. *)
Definition backtick : N := 96%N.
(** Line feed, as written [\n] in the source. *)
Definition LF : N := 10%N.
Definition nl : jsstring := [LF].

Fixpoint str_eqb (a b : jsstring) : bool :=
  match a, b with
  | [], [] => true
  | x :: a', y :: b' => N.eqb x y && str_eqb a' b'
  | _, _ => false
  end.

(** Truthiness of a string: the empty string is falsy. *)
Definition truthy (s : jsstring) : bool :=
  match s with [] => false | _ => true end.

(** [a || b] on strings. *)
Definition or_else (a b : jsstring) : jsstring :=
  if truthy a then a else b.

(** [a || b] where [a] may be [null] / [undefined]. *)
Definition opt_or (a : option jsstring) (b : jsstring) : jsstring :=
  match a with
  | Some s => or_else s b
  | None => b
  end.

(** [Array.prototype.slice(start, end)] and [String.prototype.slice]:
    negative indices count from the end, everything is clamped. *)
Definition rel_index (len i : Z) : Z :=
  if (i <? 0)%Z then Z.max (len + i) 0 else Z.min i len.

Definition js_slice {A} (start : Z) (end_ : option Z) (l : list A) : list A :=
  let len := Z.of_nat (length l) in
  let from := rel_index len start in
  let to := match end_ with
            | None => len
            | Some e => rel_index len e
            end in
  firstn (Z.to_nat (to - from)) (skipn (Z.to_nat from) l).

(** [String.prototype.substring(start, end)]: arguments are clamped to
    [0, length] and swapped when out of order. *)
Definition clamp (len i : Z) : Z := Z.min (Z.max i 0) len.

Definition js_substring (start end_ : Z) (s : jsstring) : jsstring :=
  let len := Z.of_nat (length s) in
  let a := clamp len start in
  let b := clamp len end_ in
  let from := Z.min a b in
  let to := Z.max a b in
  firstn (Z.to_nat (to - from)) (skipn (Z.to_nat from) s).

(** White space and line terminators, as [trim] and [\s] see them. *)
Definition is_line_terminator (c : N) : bool :=
  (N.eqb c 10 || N.eqb c 13 || N.eqb c 8232 || N.eqb c 8233)%N.

Definition is_space (c : N) : bool :=
  (N.eqb c 9 || N.eqb c 11 || N.eqb c 12 || N.eqb c 32 || N.eqb c 160
   || N.eqb c 5760 || (N.leb 8192 c && N.leb c 8202)
   || N.eqb c 8239 || N.eqb c 8287 || N.eqb c 12288 || N.eqb c 65279
   || is_line_terminator c)%N.

Fixpoint trim_start (s : jsstring) : jsstring :=
  match s with
  | c :: r => if is_space c then trim_start r else s
  | [] => []
  end.

Definition trim (s : jsstring) : jsstring :=
  rev (trim_start (rev (trim_start s))).

Fixpoint starts_with (p s : jsstring) : bool :=
  match p, s with
  | [], _ => true
  | x :: p', y :: s' => N.eqb x y && starts_with p' s'
  | _ :: _, [] => false
  end.

(** [String.prototype.includes]. *)
Fixpoint includes (s needle : jsstring) : bool :=
  starts_with needle s ||
  match s with
  | [] => false
  | _ :: r => includes r needle
  end.

(** [Array.prototype.join]. *)
Fixpoint join (sep : jsstring) (l : list jsstring) : jsstring :=
  match l with
  | [] => []
  | [x] => x
  | x :: r => x ++ sep ++ join sep r
  end.

(** [String.prototype.repeat]. *)
Fixpoint repeat_str (s : jsstring) (n : nat) : jsstring :=
  match n with
  | O => []
  | S k => s ++ repeat_str s k
  end.

(** Conversion of an integer to its decimal text, as a template literal or
    [+] with a string does. *)
Definition num_to_string (z : Z) : jsstring :=
  lit (NilEmpty.string_of_int (Z.to_int z)).

Definition nat_to_string (n : nat) : jsstring :=
  num_to_string (Z.of_nat n).

(** [String.prototype.toLowerCase] on a text of ASCII units, where it
    changes the capital letters only.  It is used for such texts alone:
    the tag names of form fields, which the selector
    [input, select, textarea] restricts to these three names, and texts
    of the scripts themselves.  Where the text comes from outside, the
    method is a parameter. *)
Definition lower_unit (c : N) : N :=
  if (N.leb 65 c && N.leb c 90)%N then (c + 32)%N else c.

Definition to_lower (s : jsstring) : jsstring := map lower_unit s.

(** [forEach((x, i) => ...)]: the elements with their indices. *)
Fixpoint indexed_from {A} (i : nat) (l : list A) : list (nat * A) :=
  match l with
  | [] => []
  | x :: r => (i, x) :: indexed_from (S i) r
  end.

Definition indexed {A} (l : list A) : list (nat * A) := indexed_from 0 l.

(** First occurrence replaced: [s.replace(pattern, replacement)] with a
    string pattern and a replacement without [$]. *)
Fixpoint replace_first (pat rep s : jsstring) : jsstring :=
  if starts_with pat s then rep ++ skipn (length pat) s
  else match s with
       | [] => []
       | c :: r => c :: replace_first pat rep r
       end.

(* ================================================================== *)
(** * Regular expressions                                              *)
(* ================================================================== *)

(** The fragment of the regular-expression language the scripts use,
    with the backtracking semantics of the language: greedy and lazy
    repetition, capture groups, multi-line anchors, and the two negative
    look-arounds on a single code unit. *)
Module Regex.

Inductive regex : Type :=
| Eps                                 (* the empty pattern *)
| Unit_ (c : N)                       (* a literal code unit *)
| Class (p : N -> bool)               (* a character class *)
| Seq (r1 r2 : regex)
| Opt (r : regex)                     (* r?  *)
| Star (greedy : bool) (r : regex)    (* r*  and  r*? *)
| Group (n : nat) (r : regex)         (* the n-th capture group *)
| Bol                                 (* ^ with the m flag *)
| Eol                                 (* $ with the m flag *)
| NotBehind (p : N -> bool)           (* (?<!c) *)
| NotAhead (r : regex).               (* (?!r) *)

(** A literal text followed by [r]. *)
Fixpoint lits (s : jsstring) (r : regex) : regex :=
  match s with
  | [] => r
  | c :: t => Seq (Unit_ c) (lits t r)
  end.

(** [r+] *)
Definition Plus (r : regex) : regex := Seq r (Star true r).

(** Character classes. *)
Definition any_unit (c : N) : bool := true.
Definition dot (c : N) : bool := negb (is_line_terminator c).
Definition digit (c : N) : bool := (N.leb 48 c && N.leb c 57)%N.
Definition word_unit (c : N) : bool :=
  ((N.leb 97 c && N.leb c 122) || (N.leb 65 c && N.leb c 90)
   || digit c || N.eqb c 95)%N.
Definition is_unit (x c : N) : bool := N.eqb c x.
Definition not_unit (x c : N) : bool := negb (N.eqb c x).

(** A position in the subject: what lies before it (nearest first), what
    lies after it, and the captures made so far. *)
Record mstate : Type := MState {
  before : jsstring;
  after : jsstring;
  caps : list (nat * jsstring)
}.

Definition advance (s : mstate) : mstate :=
  match after s with
  | [] => s
  | c :: r => MState (c :: before s) r (caps s)
  end.

Definition at_line_start (s : mstate) : bool :=
  match before s with
  | [] => true
  | c :: _ => is_line_terminator c
  end.

Definition at_line_end (s : mstate) : bool :=
  match after s with
  | [] => true
  | c :: _ => is_line_terminator c
  end.

(** The text consumed between two positions of one subject. *)
Definition consumed (s s' : mstate) : jsstring :=
  firstn (length (after s) - length (after s')) (after s).

Definition set_cap (n : nat) (v : jsstring) (s : mstate) : mstate :=
  MState (before s) (after s) ((n, v) :: caps s).

Fixpoint lookup_cap (n : nat) (c : list (nat * jsstring)) : jsstring :=
  match c with
  | [] => []
  | (m, v) :: r => if Nat.eqb m n then v else lookup_cap n r
  end.

(** The loop of a repetition of [m]: each round must consume something;
    a greedy loop tries one more round before the continuation, a lazy
    one tries the continuation first.  [fuel] bounds the rounds; the
    units left in the subject are enough. *)
Fixpoint star_loop (greedy : bool)
    (m : (mstate -> option mstate) -> mstate -> option mstate)
    (k : mstate -> option mstate) (fuel : nat) (s0 : mstate)
  : option mstate :=
  match fuel with
  | O => k s0
  | S f =>
      let again (s1 : mstate) :=
        if Nat.ltb (length (after s1)) (length (after s0))
        then star_loop greedy m k f s1 else None in
      if greedy then
        match m again s0 with
        | Some e => Some e
        | None => k s0
        end
      else
        match k s0 with
        | Some e => Some e
        | None => m again s0
        end
  end.

(** The matcher, in continuation-passing style: [mt r k s] matches [r] at
    [s] and hands every way of doing so, in priority order, to [k]. *)
Fixpoint mt (r : regex) (k : mstate -> option mstate) (s : mstate)
  : option mstate :=
  match r with
  | Eps => k s
  | Unit_ c =>
      match after s with
      | x :: _ => if N.eqb x c then k (advance s) else None
      | [] => None
      end
  | Class p =>
      match after s with
      | x :: _ => if p x then k (advance s) else None
      | [] => None
      end
  | Seq r1 r2 => mt r1 (mt r2 k) s
  | Opt r1 =>
      match mt r1 k s with
      | Some e => Some e
      | None => k s
      end
  | Star greedy r1 => star_loop greedy (mt r1) k (length (after s)) s
  | Group n r1 => mt r1 (fun s' => k (set_cap n (consumed s s') s')) s
  | Bol => if at_line_start s then k s else None
  | Eol => if at_line_end s then k s else None
  | NotBehind p =>
      match before s with
      | c :: _ => if p c then None else k s
      | [] => k s
      end
  | NotAhead r1 =>
      match mt r1 (fun e => Some e) s with
      | Some _ => None
      | None => k s
      end
  end.

(** One attempt at the current position, captures cleared. *)
Definition match_here (r : regex) (s : mstate) : option mstate :=
  mt r (fun e => Some e) (MState (before s) (after s) []).

(** [subject.replace(/r/g, f)]: the matches are found left to right on the
    subject itself; each is replaced by [f] of the matched text and the
    captures; an empty match moves one unit forward. *)
Fixpoint replace_from (fuel : nat) (r : regex)
    (f : jsstring -> list (nat * jsstring) -> jsstring) (s : mstate)
  : jsstring :=
  match fuel with
  | O => after s
  | S n =>
      match match_here r s with
      | Some e =>
          let out := f (consumed s e) (caps e) in
          if Nat.ltb (length (after e)) (length (after s))
          then out ++ replace_from n r f e
          else match after s with
               | [] => out
               | c :: _ => out ++ c :: replace_from n r f (advance s)
               end
      | None =>
          match after s with
          | [] => []
          | c :: _ => c :: replace_from n r f (advance s)
          end
      end
  end.

Definition replace_with (r : regex)
    (f : jsstring -> list (nat * jsstring) -> jsstring) (subject : jsstring)
  : jsstring :=
  replace_from (S (length subject)) r f (MState [] subject []).

(** A replacement string: literal pieces and [$n] references. *)
Inductive piece : Type :=
| Text (t : jsstring)
| Ref (n : nat).

Definition expand (tpl : list piece) (_ : jsstring)
    (c : list (nat * jsstring)) : jsstring :=
  concat (map (fun p => match p with
                        | Text t => t
                        | Ref n => lookup_cap n c
                        end) tpl).

Definition replace_all (r : regex) (tpl : list piece) (subject : jsstring)
  : jsstring :=
  replace_with r (expand tpl) subject.

End Regex.

Import Regex.

(* ================================================================== *)
(** * Side panel: message formatting                                   *)
(* ================================================================== *)

Definition star_unit : N := 42%N.
Definition fence (r : regex) : regex :=
  Seq (Unit_ backtick) (Seq (Unit_ backtick) (Seq (Unit_ backtick) r)).

(** The pattern of a fenced block: three back-ticks, a group of word
    units (greedy star), an optional line feed, a group of any units (lazy
    star), three back-ticks. *)
Definition re_code_block : regex :=
  fence (Seq (Group 1 (Star true (Class word_unit)))
           (Seq (Opt (Unit_ LF))
              (Seq (Group 2 (Star false (Class any_unit)))
                 (fence Eps)))).

(** Inline code: a back-tick, a group of one or more units other than a
    back-tick, a back-tick. *)
Definition re_inline_code : regex :=
  Seq (Unit_ backtick)
    (Seq (Group 1 (Plus (Class (not_unit backtick)))) (Unit_ backtick)).

(** Bold: two stars, a group of one or more units other than a star, two
    stars. *)
Definition re_bold : regex :=
  Seq (Unit_ star_unit) (Seq (Unit_ star_unit)
    (Seq (Group 1 (Plus (Class (not_unit star_unit))))
       (Seq (Unit_ star_unit) (Unit_ star_unit)))).

(** Italic: a star not preceded by a star, a group of one or more units
    other than a star, a star not followed by a star. *)
Definition re_italic : regex :=
  Seq (NotBehind (is_unit star_unit))
    (Seq (Unit_ star_unit)
       (Seq (Group 1 (Plus (Class (not_unit star_unit))))
          (Seq (Unit_ star_unit) (NotAhead (Unit_ star_unit))))).

(** Headers: at a line start, the marks and a space, a group of one or
    more units of the line, the line end. *)
Definition re_header (marks : string) : regex :=
  Seq Bol (lits (lit marks) (Seq (Group 1 (Plus (Class dot))) Eol)).

(** Bullets: at a line start, a dash or a star, a space, a group of one or
    more units of the line, the line end. *)
Definition re_bullet : regex :=
  Seq Bol
    (Seq (Class (fun c => N.eqb c 45 || N.eqb c star_unit))
       (Seq (Unit_ 32) (Seq (Group 1 (Plus (Class dot))) Eol))).

(** Numbered items: at a line start, a group of digits, a full stop, a
    space, a group of one or more units of the line, the line end. *)
Definition re_numbered : regex :=
  Seq Bol
    (Seq (Group 1 (Plus (Class digit)))
       (Seq (Unit_ 46) (Seq (Unit_ 32)
          (Seq (Group 2 (Plus (Class dot))) Eol)))).

(** The replacement of a header: a [strong] element with a font size. *)
Definition header_tpl (size : string) : list piece :=
  [Text (lit "<strong style=" ++ dquote ++ lit "font-size: " ++ lit size
         ++ lit "em;" ++ dquote ++ lit ">");
   Ref 1; Text (lit "</strong>")].

(** The bullet sign U+2022. *)
Definition bullet : jsstring := [8226%N].

(** The callback of the fenced-block replacement. *)
Definition code_block_html (_ : jsstring) (c : list (nat * jsstring))
  : jsstring :=
  lit "<pre><code>" ++ trim (lookup_cap 2 c) ++ lit "</code></pre>".

(** [formatMessageIncremental(content)] (panel.js, 635-671). *)
Definition formatMessageIncremental (content : jsstring) : jsstring :=
  (* Escape HTML *)
  let formatted :=
    replace_all (Unit_ 62) [Text (lit "&gt;")]
      (replace_all (Unit_ 60) [Text (lit "&lt;")]
         (replace_all (Unit_ 38) [Text (lit "&amp;")] content)) in
  (* Code blocks (only complete ones) *)
  let formatted := replace_with re_code_block code_block_html formatted in
  (* Inline code (only complete ones) *)
  let formatted :=
    replace_all re_inline_code
      [Text (lit "<code>"); Ref 1; Text (lit "</code>")] formatted in
  (* Bold (only complete ones) *)
  let formatted :=
    replace_all re_bold
      [Text (lit "<strong>"); Ref 1; Text (lit "</strong>")] formatted in
  (* Italic (only complete ones, but not inside incomplete bold) *)
  let formatted :=
    replace_all re_italic
      [Text (lit "<em>"); Ref 1; Text (lit "</em>")] formatted in
  (* Headers *)
  let formatted := replace_all (re_header "### ") (header_tpl "1.1") formatted in
  let formatted := replace_all (re_header "## ") (header_tpl "1.2") formatted in
  let formatted := replace_all (re_header "# ") (header_tpl "1.3") formatted in
  (* Bullet points *)
  let formatted :=
    replace_all re_bullet [Text (bullet ++ lit " "); Ref 1] formatted in
  (* Numbered lists *)
  let formatted :=
    replace_all re_numbered [Ref 1; Text (lit ". "); Ref 2] formatted in
  (* Line breaks - convert \n to <br> *)
  replace_all (Unit_ LF) [Text (lit "<br>")] formatted.

(** [formatMessage(content)] (panel.js, 676-712). *)
Definition formatMessage (content : jsstring) : jsstring :=
  (* Escape HTML *)
  let formatted := replace_all (Unit_ 38) [Text (lit "&amp;")] content in
  let formatted := replace_all (Unit_ 60) [Text (lit "&lt;")] formatted in
  let formatted := replace_all (Unit_ 62) [Text (lit "&gt;")] formatted in
  (* Code blocks *)
  let formatted := replace_with re_code_block code_block_html formatted in
  (* Inline code *)
  let formatted :=
    replace_all re_inline_code
      [Text (lit "<code>"); Ref 1; Text (lit "</code>")] formatted in
  (* Bold *)
  let formatted :=
    replace_all re_bold
      [Text (lit "<strong>"); Ref 1; Text (lit "</strong>")] formatted in
  (* Italic *)
  let formatted :=
    replace_all re_italic
      [Text (lit "<em>"); Ref 1; Text (lit "</em>")] formatted in
  (* Headers *)
  let formatted := replace_all (re_header "### ") (header_tpl "1.1") formatted in
  let formatted := replace_all (re_header "## ") (header_tpl "1.2") formatted in
  let formatted := replace_all (re_header "# ") (header_tpl "1.3") formatted in
  (* Bullet points *)
  let formatted :=
    replace_all re_bullet [Text (bullet ++ lit " "); Ref 1] formatted in
  (* Numbered lists (preserve numbers) *)
  let formatted :=
    replace_all re_numbered [Ref 1; Text (lit ". "); Ref 2] formatted in
  (* Line breaks *)
  replace_all (Unit_ LF) [Text (lit "<br>")] formatted.

(** ** The typing animation *)

(** What [typeMessage] holds while it runs: the text revealed so far, the
    position in [chars], the inner HTML of the bubble, whether the footer
    with the spinner is still there, the final inner HTML of the message
    once the last pass has run, and the timer delays asked for so far. *)
Record typing : Type := Typing {
  rawText : jsstring;
  index : nat;
  bubbleHtml : jsstring;
  footer : bool;
  contentHtml : option jsstring;
  timers : list Z
}.

Definition baseSpeed : Z := 6.

(** The delay after one revealed unit. *)
Definition char_delay (c : N) : Z :=
  if N.eqb c 32 then (baseSpeed / 2)%Z
  else if includes (lit ".!?") [c] then (baseSpeed * 3)%Z
  else if includes (lit ",;:") [c] then (baseSpeed * 2)%Z
  else if N.eqb c LF then (baseSpeed * 2)%Z
  else baseSpeed.

Definition typing_start : typing := Typing [] 0 [] true None [].

(** One run of [typeChar] (panel.js, 595-626) on [chars = content.split('')]. *)
Definition typeChar (content : jsstring) (t : typing) : typing :=
  if Nat.ltb (index t) (length content) then
    let unit_ := nth_error content (index t) in
    let raw := rawText t ++ match unit_ with
                            | Some c => [c]
                            | None => lit "undefined"
                            end in
    let delay := match unit_ with
                 | Some c => char_delay c
                 | None => baseSpeed
                 end in
    Typing raw (S (index t)) (formatMessageIncremental raw) (footer t)
           (contentHtml t) (timers t ++ [delay])
  else
    Typing (rawText t) (index t) (bubbleHtml t) false
           (Some (formatMessage content)) (timers t).

(** The timer loop: [typeChar] runs again until the final pass is made. *)
Fixpoint type_loop (fuel : nat) (content : jsstring) (t : typing) : typing :=
  match fuel with
  | O => t
  | S n =>
      let t' := typeChar content t in
      match contentHtml t' with
      | Some _ => t'
      | None => type_loop n content t'
      end
  end.

(** [typeMessage(id, content)] for a placeholder that is in the page. *)
Definition typeMessage (content : jsstring) : typing :=
  type_loop (S (length content)) content typing_start.

(* ================================================================== *)
(** * Side panel: state, history and saved threads                     *)
(* ================================================================== *)

(** A conversation turn. *)
Record message : Type := Message {
  role : jsstring;
  content : jsstring
}.

(** A saved thread. *)
Record chat : Type := Chat {
  id : jsstring;
  title : jsstring;
  messages : list message;
  createdAt : Z;
  updatedAt : Z
}.

(** The attached file. *)
Record file : Type := File {
  name : jsstring;
  size : Z;
  type : jsstring;
  fileContent : jsstring
}.

(** A message element of the page: its id, its class, the escaped name of
    the attached file and the inner HTML of its text. *)
Record bubble : Type := Bubble {
  b_id : option jsstring;
  b_class : jsstring;
  b_file : option jsstring;
  b_html : jsstring
}.

(** An entry of the rendered thread list. *)
Record chat_item : Type := ChatItem {
  data_id : jsstring;
  item_title : jsstring;
  item_date : jsstring
}.

(** The content of [elements.chatsList]. *)
Inductive chats_view : Type :=
| NoChats
| Items (l : list chat_item).

(** The variables of the script, the persisted threads and the page.
    [shown], [welcomeShown], [chatsList] and [inputValue] are what the
    elements held in [elements] contain; [bodyReplaced] tells whether
    [handleContextInvalidated] has replaced the body of the document,
    after which those elements are no longer part of the document. *)
Record panel : Type := Panel {
  conversationHistory : list message;
  isLoading : bool;
  hasApiKey : bool;
  currentFile : option file;
  currentChatId : option jsstring;
  savedChats : list chat;
  persisted : list chat;
  shown : list bubble;
  welcomeShown : bool;
  chatsList : chats_view;
  inputValue : jsstring;
  bodyReplaced : bool
}.

Definition with_history (h : list message) (p : panel) : panel :=
  Panel h (isLoading p) (hasApiKey p) (currentFile p) (currentChatId p)
        (savedChats p) (persisted p) (shown p) (welcomeShown p)
        (chatsList p) (inputValue p) (bodyReplaced p).
Definition with_loading (b : bool) (p : panel) : panel :=
  Panel (conversationHistory p) b (hasApiKey p) (currentFile p)
        (currentChatId p) (savedChats p) (persisted p) (shown p)
        (welcomeShown p) (chatsList p) (inputValue p) (bodyReplaced p).
Definition with_apiKey (b : bool) (p : panel) : panel :=
  Panel (conversationHistory p) (isLoading p) b (currentFile p)
        (currentChatId p) (savedChats p) (persisted p) (shown p)
        (welcomeShown p) (chatsList p) (inputValue p) (bodyReplaced p).
Definition with_file (f : option file) (p : panel) : panel :=
  Panel (conversationHistory p) (isLoading p) (hasApiKey p) f
        (currentChatId p) (savedChats p) (persisted p) (shown p)
        (welcomeShown p) (chatsList p) (inputValue p) (bodyReplaced p).
Definition with_chatId (c : option jsstring) (p : panel) : panel :=
  Panel (conversationHistory p) (isLoading p) (hasApiKey p) (currentFile p)
        c (savedChats p) (persisted p) (shown p) (welcomeShown p)
        (chatsList p) (inputValue p) (bodyReplaced p).
Definition with_savedChats (l : list chat) (p : panel) : panel :=
  Panel (conversationHistory p) (isLoading p) (hasApiKey p) (currentFile p)
        (currentChatId p) l (persisted p) (shown p) (welcomeShown p)
        (chatsList p) (inputValue p) (bodyReplaced p).
Definition with_persisted (l : list chat) (p : panel) : panel :=
  Panel (conversationHistory p) (isLoading p) (hasApiKey p) (currentFile p)
        (currentChatId p) (savedChats p) l (shown p) (welcomeShown p)
        (chatsList p) (inputValue p) (bodyReplaced p).
Definition with_shown (l : list bubble) (p : panel) : panel :=
  Panel (conversationHistory p) (isLoading p) (hasApiKey p) (currentFile p)
        (currentChatId p) (savedChats p) (persisted p) l (welcomeShown p)
        (chatsList p) (inputValue p) (bodyReplaced p).
Definition with_welcome (b : bool) (p : panel) : panel :=
  Panel (conversationHistory p) (isLoading p) (hasApiKey p) (currentFile p)
        (currentChatId p) (savedChats p) (persisted p) (shown p) b
        (chatsList p) (inputValue p) (bodyReplaced p).
Definition with_chatsList (v : chats_view) (p : panel) : panel :=
  Panel (conversationHistory p) (isLoading p) (hasApiKey p) (currentFile p)
        (currentChatId p) (savedChats p) (persisted p) (shown p)
        (welcomeShown p) v (inputValue p) (bodyReplaced p).
Definition with_input (s : jsstring) (p : panel) : panel :=
  Panel (conversationHistory p) (isLoading p) (hasApiKey p) (currentFile p)
        (currentChatId p) (savedChats p) (persisted p) (shown p)
        (welcomeShown p) (chatsList p) s (bodyReplaced p).

Definition with_bodyReplaced (b : bool) (p : panel) : panel :=
  Panel (conversationHistory p) (isLoading p) (hasApiKey p) (currentFile p)
        (currentChatId p) (savedChats p) (persisted p) (shown p)
        (welcomeShown p) (chatsList p) (inputValue p) b.

(** The panel as the script leaves it after loading, before [init]. *)
Definition panel_start : panel :=
  Panel [] false false None None [] [] [] true NoChats [] false.

(** [handleContextInvalidated()] (panel.js, 40-83): the body of the
    document becomes the notice that asks for a refresh. *)
Definition handleContextInvalidated (p : panel) : panel :=
  with_bodyReplaced true p.

(** The outcome of a call to the storage area: it succeeds, or it is
    rejected with an error; an error without a message counts as one with
    the empty message. *)
Inductive storage_result : Type :=
| StorageOk
| StorageError (msg : jsstring).

(** The [catch] block of the functions that call the storage area
    (panel.js, 730-734, 817-821, 862-866). *)
Definition storage_catch (msg : jsstring) (p : panel) : panel :=
  if includes msg (lit "Extension context invalidated")
  then handleContextInvalidated p else p.

(** The test of [safeSendMessage] on the error of a rejected request
    (panel.js, 90-91). *)
Definition context_lost (msg : jsstring) : bool :=
  includes msg (lit "Extension context invalidated")
  || includes msg (lit "Cannot read properties of undefined").

(** [escapeHtml(text)]: the text is stored in an element and read back as
    inner HTML, which escapes the ampersand, the angle brackets and the
    no-break space. *)
Definition escape_unit (c : N) : jsstring :=
  if N.eqb c 38 then lit "&amp;"
  else if N.eqb c 60 then lit "&lt;"
  else if N.eqb c 62 then lit "&gt;"
  else if N.eqb c 160 then lit "&nbsp;"
  else [c].

Definition escapeHtml (text : jsstring) : jsstring :=
  concat (map escape_unit text).

(** [Array.prototype.sort(compare)]: a stable sort; [compare a b <= 0]
    keeps [a] before [b].  For a comparison that orders its arguments
    consistently this is the result of every stable sort. *)
Fixpoint insert_by {A} (compare : A -> A -> Z) (x : A) (l : list A) : list A :=
  match l with
  | [] => [x]
  | y :: r =>
      if (compare x y <=? 0)%Z then x :: l else y :: insert_by compare x r
  end.

Definition sort_by {A} (compare : A -> A -> Z) (l : list A) : list A :=
  fold_right (insert_by compare) [] l.

(** The parts of a parsed URL that the panel reads. *)
Record url_parts : Type := UrlParts {
  hostname : jsstring;
  pathname : jsstring
}.

(** The outcome of the [chat] request sent to the background script. *)
Inductive chat_reply : Type :=
| ReplyOk (response : jsstring)            (* result.success *)
| ReplyError (error : option jsstring)     (* !result.success *)
| ReplyThrown (msg : jsstring).            (* the request was rejected:
                                               [safeSendMessage] throws *)

Definition opt_str_eqb (a : option jsstring) (b : jsstring) : bool :=
  match a with
  | Some x => str_eqb x b
  | None => false
  end.

Section Panel.

(** [new URL(url)]: [None] when the constructor throws. *)
Variable URL_parse : jsstring -> option url_parts.
(** [date.toLocaleDateString()] of a time stamp. *)
Variable toLocaleDateString : Z -> jsstring.
(** The reading of [new Date()] while a list is rendered. *)
Variable today : Z.

(** [truncateUrl(url)] (panel.js, 206-218). *)
Definition truncateUrl (url : jsstring) : jsstring :=
  if negb (truthy url) then []
  else
    match URL_parse url with
    | Some parsed =>
        let display := hostname parsed ++ pathname parsed in
        if Nat.ltb 40 (length display)
        then js_substring 0 37 display ++ lit "..."
        else display
    | None => js_substring 0 40 url
    end.

(** [formatDate(timestamp)] (panel.js, 914-928). *)
Definition formatDate (timestamp : Z) : jsstring :=
  let diffMs := (today - timestamp)%Z in
  let diffMins := (diffMs / 60000)%Z in
  let diffHours := (diffMs / 3600000)%Z in
  let diffDays := (diffMs / 86400000)%Z in
  if (diffMins <? 1)%Z then lit "Just now"
  else if (diffMins <? 60)%Z then num_to_string diffMins ++ lit "m ago"
  else if (diffHours <? 24)%Z then num_to_string diffHours ++ lit "h ago"
  else if (diffDays <? 7)%Z then num_to_string diffDays ++ lit "d ago"
  else toLocaleDateString timestamp.

(** [addMessage(type, content, fileName)] (panel.js, 478-527). *)
Definition addMessage (type_ content_ : jsstring) (fileName : option jsstring)
    (st : panel) : panel :=
  let html :=
    if str_eqb type_ (lit "user")
    then replace_all (Unit_ LF) [Text (lit "<br>")] (escapeHtml content_)
    else formatMessage content_ in
  let shown_file :=
    match fileName with
    | Some f => if truthy f then Some (escapeHtml f) else None
    | None => None
    end in
  with_shown
    (shown st ++ [Bubble None (lit "message " ++ type_) shown_file html]) st.

(** [addMessagePlaceholder(id)] (panel.js, 532-558). *)
Definition addMessagePlaceholder (id_ : jsstring) (st : panel) : panel :=
  with_shown
    (shown st ++ [Bubble (Some id_) (lit "message assistant typing") None
                         (lit "Thinking...")]) st.

(** [removeMessagePlaceholder(id)]: the first element with that id goes. *)
Fixpoint remove_bubble (id_ : jsstring) (l : list bubble) : list bubble :=
  match l with
  | [] => []
  | b :: r => if opt_str_eqb (b_id b) id_ then r
              else b :: remove_bubble id_ r
  end.

(** [document.getElementById] finds nothing once the body is replaced. *)
Definition removeMessagePlaceholder (id_ : jsstring) (st : panel) : panel :=
  if bodyReplaced st then st
  else with_shown (remove_bubble id_ (shown st)) st.

(** What [typeMessage] leaves in the page: the element loses its typing
    class and shows the HTML of the final pass. *)
Fixpoint finish_bubble (id_ : jsstring) (html : jsstring) (l : list bubble)
  : list bubble :=
  match l with
  | [] => []
  | b :: r =>
      if opt_str_eqb (b_id b) id_
      then Bubble (b_id b) (lit "message assistant") (b_file b) html :: r
      else b :: finish_bubble id_ html r
  end.

Definition typed_out (id_ content_ : jsstring) (st : panel) : panel :=
  if bodyReplaced st then st
  else
    match contentHtml (typeMessage content_) with
    | Some html => with_shown (finish_bubble id_ html (shown st)) st
    | None => st
    end.

(** [renderChatsList()] (panel.js, 743-782).  [sort] reorders [savedChats]
    itself. *)
Definition by_update (a b : chat) : Z := (updatedAt b - updatedAt a)%Z.

Definition render_item (c : chat) : chat_item :=
  ChatItem (id c) (escapeHtml (title c)) (formatDate (updatedAt c)).

Definition renderChatsList (st : panel) : panel :=
  match savedChats st with
  | [] => with_chatsList NoChats st
  | _ =>
      let sorted := sort_by by_update (savedChats st) in
      with_chatsList (Items (map render_item sorted))
        (with_savedChats sorted st)
  end.

(** The threads in the order in which the list shows them. *)
Definition rendered_chats (st : panel) : list chat :=
  savedChats (renderChatsList st).

(** [chrome.storage.local.set({ savedChats })], when the call succeeds. *)
Definition storage_set (st : panel) : panel :=
  with_persisted (savedChats st) st.

(** [loadSavedChats()] (panel.js, 725-738): the threads are read from
    the storage area; when the read is rejected the list is empty. *)
Definition loadSavedChats (storage : storage_result) (st : panel) : panel :=
  match storage with
  | StorageOk => renderChatsList (with_savedChats (persisted st) st)
  | StorageError msg =>
      renderChatsList (with_savedChats [] (storage_catch msg st))
  end.

(** The pattern of the attachment mark: the text [[ATTACHED FILE:], any
    units of the line (lazy star), a closing bracket. *)
Definition re_attached : regex :=
  lits (lit "[ATTACHED FILE:") (Seq (Star false (Class dot)) (Unit_ 93)).

(** The first thread with the given id gets the turns and the time. *)
Fixpoint update_chat (cid : jsstring) (turns : list message) (t : Z)
    (l : list chat) : list chat :=
  match l with
  | [] => []
  | c :: r =>
      if str_eqb (id c) cid
      then Chat (id c) (title c) turns (createdAt c) t :: r
      else c :: update_chat cid turns t r
  end.

(** [saveCurrentChat()] (panel.js, 787-823).  [now i] is the i-th reading
    of [Date.now()] made by the call. *)
Definition saveCurrentChat (now : nat -> Z) (storage : storage_result)
    (st : panel) : panel :=
  match conversationHistory st with
  | [] => st
  | _ :: _ =>
      let firstUserMsg :=
        find (fun m => str_eqb (role m) (lit "user"))
             (conversationHistory st) in
      let title_ :=
        opt_or (option_map (fun m => js_slice 0 (Some 50%Z) (content m))
                           firstUserMsg)
               (lit "New Chat") in
      let update cid :=
        with_savedChats
          (update_chat cid (conversationHistory st) (now 0%nat)
                       (savedChats st)) st in
      let create :=
        let cid := lit "chat-" ++ num_to_string (now 0%nat) in
        with_savedChats
          (savedChats st ++
           [Chat cid
                 (or_else (trim (replace_all re_attached [] title_))
                          (lit "New Chat"))
                 (conversationHistory st) (now 1%nat) (now 2%nat)])
          (with_chatId (Some cid) st) in
      let st1 :=
        match currentChatId st with
        | Some cid => if truthy cid then update cid else create
        | None => create
        end in
      match storage with
      | StorageOk => renderChatsList (storage_set st1)
      | StorageError msg => storage_catch msg st1
      end
  end.

(** [loadChat(chatId)] (panel.js, 828-846). *)
Definition loadChat (chatId : jsstring) (st : panel) : panel :=
  match find (fun c => str_eqb (id c) chatId) (savedChats st) with
  | None => st
  | Some c =>
      let st1 := with_history (messages c) (with_chatId (Some chatId) st) in
      let st2 := with_welcome false (with_shown [] st1) in
      fold_left
        (fun acc msg =>
           addMessage (if str_eqb (role msg) (lit "user")
                       then lit "user" else lit "assistant")
                      (content msg) None acc)
        (conversationHistory st2) st2
  end.

(** [startNewChat()] (panel.js, 873-909). *)
Definition startNewChat (st : panel) : panel :=
  with_welcome true
    (with_shown [] (with_history [] (with_chatId None st))).

(** [deleteChat(chatId)] (panel.js, 851-868).  When the storage call is
    rejected the rest of the [try] block is skipped. *)
Definition deleteChat (storage : storage_result) (chatId : jsstring)
    (st : panel) : panel :=
  let st1 :=
    with_savedChats
      (filter (fun c => negb (str_eqb (id c) chatId)) (savedChats st)) st in
  match storage with
  | StorageOk =>
      let st2 := storage_set st1 in
      let st3 := if opt_str_eqb (currentChatId st2) chatId
                 then startNewChat st2 else st2 in
      renderChatsList st3
  | StorageError msg => storage_catch msg st1
  end.

(** The two turns of a successful exchange are appended and the history
    is cut to its last 20 entries (panel.js, 446-454). *)
Definition push_exchange (userContent response : jsstring)
    (history : list message) : list message :=
  let appended :=
    (history ++ [Message (lit "user") userContent])
      ++ [Message (lit "assistant") response] in
  if Nat.ltb 20 (length appended)
  then js_slice (-20) None appended
  else appended.

(** The user turn sent along with an attached file (panel.js, 413-419). *)
Definition fence_text : jsstring := [backtick; backtick; backtick].

Definition user_content (message_ : jsstring) (f : option file) : jsstring :=
  match f with
  | None => message_
  | Some cf =>
      (if truthy message_ then message_ ++ nl ++ nl else [])
        ++ lit "[ATTACHED FILE: " ++ name cf ++ lit "]" ++ nl
        ++ fence_text ++ nl
        ++ js_slice 0 (Some 50000%Z) (fileContent cf) ++ nl ++ fence_text
  end.

Definition display_message (message_ : jsstring) (f : option file)
  : jsstring :=
  match f with
  | None => message_
  | Some cf => or_else message_ (lit "Analyze this file: " ++ name cf)
  end.

(** [sendMessage()] (panel.js, 391-473).  [settings_key] tells whether the
    stored settings hold a key, [reply] is the outcome of the request made
    through [safeSendMessage] (panel.js, 86-97), [clock 0] is the reading
    used for the placeholder id and the later readings are those of
    [saveCurrentChat], whose storage call ends as [storage] says. *)
Definition sendMessage (settings_key : bool) (reply : chat_reply)
    (clock : nat -> Z) (storage : storage_result) (st : panel) : panel :=
  let message_ := trim (inputValue st) in
  let no_file := match currentFile st with None => true | Some _ => false end in
  if (negb (truthy message_) && no_file) || isLoading st then st
  else
    let has := hasApiKey st || settings_key in
    let st := with_apiKey has st in
    if negb has then
      addMessage (lit "error")
        (lit "Please configure your OpenAI API key in settings first.")
        None st
    else
      let st := with_welcome false st in
      let userContent := user_content message_ (currentFile st) in
      let displayMessage := display_message message_ (currentFile st) in
      let st := addMessage (lit "user") displayMessage
                  (option_map name (currentFile st)) st in
      let st := with_file None (with_input [] st) in
      let assistantMsgId := lit "msg-" ++ num_to_string (clock 0%nat) in
      let st := with_loading true (addMessagePlaceholder assistantMsgId st) in
      let st :=
        match reply with
        | ReplyOk response =>
            let st :=
              with_history
                (push_exchange userContent response (conversationHistory st))
                st in
            let st := typed_out assistantMsgId response st in
            saveCurrentChat (fun i => clock (S i)) storage st
        | ReplyError error =>
            addMessage (lit "error")
              (opt_or error (lit "Failed to get response")) None
              (removeMessagePlaceholder assistantMsgId st)
        | ReplyThrown msg =>
            let st :=
              if context_lost msg then handleContextInvalidated st else st in
            addMessage (lit "error") (or_else msg (lit "An error occurred"))
              None (removeMessagePlaceholder assistantMsgId st)
        end in
      with_loading false st.

End Panel.

(* ================================================================== *)
(** * The network, as the scripts see it                               *)
(* ================================================================== *)

(** The JSON body of a chat request; the sampling temperature is the
    constant 0.7, kept in tenths. *)
Record chat_body : Type := ChatBody {
  body_model : jsstring;
  body_messages : list message;
  body_max_tokens : Z;
  body_temperature_tenths : Z
}.

(** A request handed to [fetch]: address, method, the value of the
    [Authorization] header, and the body when there is one. *)
Record request : Type := Request {
  req_url : jsstring;
  req_method : jsstring;
  req_authorization : jsstring;
  req_body : option chat_body
}.

(** What [fetch] and the reading of the answer give: a rejection, an
    answer that is not [ok] (with [error.error?.message] when the body
    holds one), or the payload of an [ok] answer. *)
Inductive fetch_result (P : Type) : Type :=
| NetworkError (msg : jsstring)
| HttpError (status : Z) (error_message : option jsstring)
| HttpOk (payload : P).

Arguments NetworkError {P} msg.
Arguments HttpError {P} status error_message.
Arguments HttpOk {P} payload.

(** How a call ends: it returns a value or throws an [Error]. *)
Inductive outcome (A : Type) : Type :=
| Returned (v : A)
| Threw (msg : jsstring).

Arguments Returned {A} v.
Arguments Threw {A} msg.

(** The message of the error thrown for an answer that is not [ok]. *)
Definition http_error_text (status : Z) (error_message : option jsstring)
  : jsstring :=
  opt_or error_message (lit "API error: " ++ num_to_string status).

(* ================================================================== *)
(** * Background script: page context and the remote chat call         *)
(* ================================================================== *)

Module Background.

(** The decorations of the context text, as the source file holds them:
    each is a short run of code units. *)
Definition rule_glyph : jsstring := [226; 8226]%N.
Definition pin_glyph : jsstring := [240; 376; 8220]%N.
Definition page_glyph : jsstring := [240; 376; 8220; 8222]%N.
Definition memo_glyph : jsstring := [240; 376; 8220]%N.
Definition bullet_glyph : jsstring := [226; 8364; 162]%N.
Definition arrow_glyph : jsstring := [226; 8224; 8217]%N.

Definition rule (n : nat) : jsstring := repeat_str rule_glyph n.

(** The heading line of a section: 16 glyphs on each side. *)
Definition section_line (text : jsstring) : jsstring :=
  rule 16 ++ lit " " ++ text ++ lit " " ++ rule 16 ++ nl.

Record table : Type := Table {
  source : jsstring;
  caption : jsstring;
  headers : list jsstring;
  rows : list (list jsstring)
}.

Record metric : Type := Metric {
  m_label : jsstring;
  m_value : jsstring
}.

Record chart : Type := Chart {
  c_index : nat;
  c_title : jsstring;
  c_data : list jsstring
}.

Record data_attribute : Type := DataAttribute {
  d_text : jsstring;
  d_attributes : list (jsstring * jsstring)
}.

Record form_field : Type := FormField {
  f_type : jsstring;
  f_label : jsstring;
  f_value : jsstring
}.

Record form : Type := Form {
  form_index : nat;
  form_action : jsstring;
  form_fields : list form_field
}.

Record page_list : Type := PageList {
  l_index : nat;
  l_items : list jsstring
}.

Record link : Type := Link {
  l_text : jsstring;
  l_href : jsstring
}.

(** The record built by the injected extraction function. *)
Record extracted : Type := Extracted {
  url : jsstring;
  title : jsstring;
  metaDescription : jsstring;
  timestamp : Z;
  headings : list jsstring;
  tables : list table;
  metrics : list metric;
  chartData : list chart;
  forms : list form;
  links : list link;
  lists : list page_list;
  dataAttributes : list data_attribute;
  mainContent : jsstring;
  allVisibleText : jsstring;
  selectedText : jsstring
}.

Definition nonempty {A} (l : list A) : bool :=
  match l with [] => false | _ => true end.

(** ** The sections of the context text (867-997) *)

Definition header_section (data : extracted) : jsstring :=
  rule 64 ++ nl
  ++ lit "                    COMPLETE PAGE DATA EXTRACTION" ++ nl
  ++ rule 64 ++ nl ++ nl
  ++ pin_glyph ++ lit " URL: " ++ url data ++ nl
  ++ page_glyph ++ lit " TITLE: " ++ title data ++ nl
  ++ memo_glyph ++ lit " DESCRIPTION: "
  ++ or_else (metaDescription data) (lit "N/A") ++ nl ++ nl.

Definition selected_section (data : extracted) : jsstring :=
  if truthy (selectedText data)
  then section_line (lit "SELECTED TEXT") ++ selectedText data ++ nl ++ nl
  else [].

Definition structure_section (data : extracted) : jsstring :=
  if nonempty (headings data)
  then section_line (lit "PAGE STRUCTURE") ++ join nl (headings data)
       ++ nl ++ nl
  else [].

Definition row_line (ir : nat * list jsstring) : jsstring :=
  lit "ROW " ++ nat_to_string (fst ir + 1) ++ lit ": "
  ++ join (lit " | ") (snd ir) ++ nl.

Definition table_text (it : nat * table) : jsstring :=
  let t := snd it in
  (nl ++ lit "--- TABLE " ++ nat_to_string (fst it + 1) ++ lit " "
   ++ (if truthy (caption t) then lit "(" ++ caption t ++ lit ")" else [])
   ++ lit " ---" ++ nl)
  ++ (if nonempty (headers t)
      then (lit "HEADERS: " ++ join (lit " | ") (headers t) ++ nl)
           ++ (repeat_str (lit "-") 50 ++ nl)
      else [])
  ++ concat (map row_line (indexed (rows t))).

Definition tables_section (data : extracted) : jsstring :=
  if nonempty (tables data)
  then section_line (lit "TABLES & DATA GRIDS")
       ++ concat (map table_text (indexed (tables data))) ++ nl
  else [].

Definition metric_line (m : metric) : jsstring :=
  bullet_glyph ++ lit " " ++ or_else (m_label m) (lit "Metric") ++ lit ": "
  ++ m_value m ++ nl.

Definition metrics_section (data : extracted) : jsstring :=
  if nonempty (metrics data)
  then section_line (lit "METRICS & KPIs")
       ++ concat (map metric_line (metrics data)) ++ nl
  else [].

Definition chart_text (ic : nat * chart) : jsstring :=
  let c := snd ic in
  (lit "Chart " ++ nat_to_string (fst ic + 1) ++ lit ": "
   ++ or_else (c_title c) (lit "Untitled") ++ nl)
  ++ (if nonempty (c_data c)
      then lit "  Data: "
           ++ join (lit ", ") (js_slice 0 (Some 50%Z) (c_data c)) ++ nl
      else []).

Definition charts_section (data : extracted) : jsstring :=
  if nonempty (chartData data)
  then section_line (lit "CHART DATA")
       ++ concat (map chart_text (indexed (chartData data))) ++ nl
  else [].

Definition attribute_text (kv : jsstring * jsstring) : jsstring :=
  fst kv ++ lit "=" ++ dquote ++ snd kv ++ dquote.

Definition data_attribute_line (d : data_attribute) : jsstring :=
  let attrs := join (lit ", ") (map attribute_text (d_attributes d)) in
  bullet_glyph ++ lit " " ++ or_else (d_text d) (lit "Element") ++ lit ": "
  ++ attrs ++ nl.

Definition data_attributes_section (data : extracted) : jsstring :=
  if nonempty (dataAttributes data)
  then section_line (lit "DATA ATTRIBUTES")
       ++ concat (map data_attribute_line (dataAttributes data)) ++ nl
  else [].

Definition field_line (f : form_field) : jsstring :=
  lit "  " ++ bullet_glyph ++ lit " [" ++ f_type f ++ lit "] " ++ f_label f
  ++ lit ": " ++ f_value f ++ nl.

Definition form_text (ifm : nat * form) : jsstring :=
  (lit "Form " ++ nat_to_string (fst ifm + 1) ++ lit ":" ++ nl)
  ++ concat (map field_line (form_fields (snd ifm))).

Definition forms_section (data : extracted) : jsstring :=
  if nonempty (forms data)
  then section_line (lit "FORMS")
       ++ concat (map form_text (indexed (forms data))) ++ nl
  else [].

Definition item_line (ji : nat * jsstring) : jsstring :=
  lit "  " ++ nat_to_string (fst ji + 1) ++ lit ". " ++ snd ji ++ nl.

Definition list_text (il : nat * page_list) : jsstring :=
  (lit "List " ++ nat_to_string (fst il + 1) ++ lit ":" ++ nl)
  ++ concat (map item_line (indexed (l_items (snd il)))).

Definition lists_section (data : extracted) : jsstring :=
  if nonempty (lists data)
  then section_line (lit "LISTS")
       ++ concat (map list_text (indexed (lists data))) ++ nl
  else [].

Definition main_section (data : extracted) : jsstring :=
  section_line (lit "MAIN PAGE CONTENT")
  ++ or_else (js_slice 0 (Some 60000%Z) (mainContent data))
             (lit "No content extracted")
  ++ nl ++ nl.

Definition visible_section (data : extracted) : jsstring :=
  if truthy (allVisibleText data)
     && Nat.ltb 100 (length (allVisibleText data))
  then section_line (lit "ALL VISIBLE TEXT (BACKUP)")
       ++ or_else (js_slice 0 (Some 40000%Z) (allVisibleText data)) []
       ++ nl ++ nl
  else [].

Definition link_line (l : link) : jsstring :=
  bullet_glyph ++ lit " " ++ dquote ++ l_text l ++ dquote ++ lit " "
  ++ arrow_glyph ++ lit " " ++ l_href l.

Definition links_section (data : extracted) : jsstring :=
  if nonempty (links data)
  then section_line (lit "LINKS ("
                     ++ nat_to_string (length (links data))
                     ++ lit " total)")
       ++ join nl (map link_line (js_slice 0 (Some 50%Z) (links data)))
       ++ nl
  else [].

(** [formatContentForAI(data)]; [None] is the [null] that a failed
    extraction returns. *)
Definition formatContentForAI (data : option extracted) : jsstring :=
  match data with
  | None => lit "Unable to extract page content."
  | Some d =>
      header_section d
      ++ selected_section d
      ++ structure_section d
      ++ tables_section d
      ++ metrics_section d
      ++ charts_section d
      ++ data_attributes_section d
      ++ forms_section d
      ++ lists_section d
      ++ main_section d
      ++ visible_section d
      ++ links_section d
  end.

(** ** The form extractor (521-565) *)

(** What [document.querySelector] gives for the selector
    [label[for="<id>"]] built from the [id] of a field: it throws when
    the text is not a valid selector (an [id] with a double quote or a
    line feed can make it so), it finds no element, or it finds a
    [label] element, of which the text content is read. *)
Inductive label_query : Type :=
| QueryThrows
| QueryNone
| QueryText (textContent : jsstring).

(** What the extractor reads of a field: its properties, the outcome of
    the query for the [label] element that names it by [for], and the
    text of the [label] element around it. *)
Record dom_field : Type := DomField {
  type : jsstring;
  tagName : jsstring;
  value : jsstring;
  checked : bool;
  selectedOption : option jsstring;
  ariaLabel : option jsstring;
  placeholder : jsstring;
  name : jsstring;
  labelFor : label_query;
  closestLabel : option jsstring
}.

Record dom_form : Type := DomForm {
  visible : bool;
  action : jsstring;
  fields : list dom_field
}.

(** The text of the label around a field, with the field's value taken
    out. *)
Definition closest_label_text (field : dom_field) : jsstring :=
  opt_or
    (option_map (fun t => trim (replace_first (value field) [] (trim t)))
                (closestLabel field))
    [].

(** The label of a field: the first non-empty of the aria label, the
    placeholder, the name, the text of the label naming the field, and
    the text of the label around it with the field's value taken out.
    The query for the label naming the field is made only when the first
    three are empty; [None] when it throws. *)
Definition field_label (field : dom_field) : option jsstring :=
  let named :=
    opt_or (ariaLabel field) (or_else (placeholder field) (name field)) in
  if truthy named then Some named
  else
    match labelFor field with
    | QueryThrows => None
    | QueryNone => Some (closest_label_text field)
    | QueryText t => Some (or_else (trim t) (closest_label_text field))
    end.

Definition field_value (field : dom_field) : jsstring :=
  if str_eqb (type field) (lit "password") then lit "[hidden]"
  else if str_eqb (type field) (lit "checkbox")
          || str_eqb (type field) (lit "radio")
  then (if checked field then lit "checked" else lit "unchecked")
  else if str_eqb (tagName field) (lit "SELECT")
  then opt_or (selectedOption field) []
  else or_else (value field) [].

Definition extract_field (field : dom_field) : option form_field :=
  match field_label field with
  | None => None
  | Some label =>
      Some (FormField (or_else (type field) (to_lower (tagName field)))
                      (js_slice 0 (Some 100%Z) label)
                      (js_slice 0 (Some 500%Z) (field_value field)))
  end.

(** The loop over the fields of a form; [None] as soon as one throws. *)
Fixpoint extract_fields (l : list dom_field) : option (list form_field) :=
  match l with
  | [] => Some []
  | field :: rest =>
      match extract_field field with
      | None => None
      | Some x => option_map (cons x) (extract_fields rest)
      end
  end.

(** The body of the loop over the forms. *)
Definition extract_form (idx_form : nat * dom_form) : option (list form) :=
  let f := snd idx_form in
  if negb (visible f) then Some []
  else
    match extract_fields (fields f) with
    | None => None
    | Some fields_ =>
        let formData := Form (fst idx_form) (or_else (action f) [])
                             fields_ in
        Some (if nonempty (form_fields formData) then [formData] else [])
    end.

Fixpoint extract_forms_from (l : list (nat * dom_form))
  : option (list form) :=
  match l with
  | [] => Some []
  | x :: rest =>
      match extract_form x with
      | None => None
      | Some kept => option_map (app kept) (extract_forms_from rest)
      end
  end.

(** [extractForms()] on the forms of the document, in document order;
    [None] when it throws. *)
Definition extractForms (document_forms : list dom_form)
  : option (list form) :=
  extract_forms_from (indexed document_forms).

(** The forms that reach the extracted record (815-818): those that
    [extractForms] returns, none when it throws. *)
Definition extracted_forms (document_forms : list dom_form) : list form :=
  match extractForms document_forms with
  | Some l => l
  | None => []
  end.

(** ** The backup capture of the visible text (672-734) *)

(** What the capture reads of an element: whether it is visible, the
    texts of its child text nodes, its [value] when that is a string, and
    the text gathered from its shadow tree when it has one. *)
Record dom_element : Type := DomElement {
  el_visible : bool;
  el_text_nodes : list jsstring;
  el_value : option jsstring;
  el_shadow : option jsstring
}.

(** [seenText.has(x)] and [seenText.add(x)] on a set kept in insertion
    order. *)
Definition set_has (x : jsstring) (seen : list jsstring) : bool :=
  existsb (str_eqb x) seen.

Definition set_add (x : jsstring) (seen : list jsstring) : list jsstring :=
  if set_has x seen then seen else seen ++ [x].

(** The body of the loop over all elements. *)
Definition collect_element (seen : list jsstring) (el : dom_element)
  : list jsstring :=
  if negb (el_visible el) then seen
  else
    let directText :=
      join (lit " ") (filter truthy (map trim (el_text_nodes el))) in
    let seen :=
      if truthy directText && negb (set_has directText seen)
      then set_add directText seen else seen in
    let seen :=
      match el_value el with
      | Some v =>
          if truthy v && truthy (trim v) then
            let val := trim v in
            if negb (set_has val seen)
            then set_add (lit "[INPUT: " ++ val ++ lit "]") seen
            else seen
          else seen
      | None => seen
      end in
    match el_shadow el with
    | Some shadowText =>
        if truthy (trim shadowText) && negb (set_has (trim shadowText) seen)
        then set_add (trim shadowText) seen else seen
    | None => seen
    end.

(** [extractAllVisibleText()]; [selection] is the text of the whole body
    as the selection gives it, [None] when that method throws. *)
Definition extractAllVisibleText (selection : option jsstring)
    (allElements : list dom_element) : jsstring :=
  let by_selection :=
    match selection with
    | Some selectedText_ =>
        if truthy (trim selectedText_)
        then [lit "[VISIBLE TEXT VIA SELECTION]"; selectedText_] else []
    | None => []
    end in
  let seenText := fold_left collect_element allElements [] in
  let by_element :=
    if nonempty seenText
    then [lit "[ELEMENT TEXT]"; join nl seenText] else [] in
  join (nl ++ nl) (by_selection ++ by_element).

(** ** The remote chat call (1079-1134) *)

Record settings : Type := Settings {
  apiKey : jsstring;
  model : jsstring;
  maxTokens : Z;
  systemPrompt : jsstring
}.

Definition chat_endpoint : jsstring :=
  lit "https://api.openai.com/v1/chat/completions".

(** [callOpenAI(messages, settings)].  [net] stands for [fetch] and the
    reading of the answer, whose payload is
    [data.choices[0]?.message?.content].  The result lists the requests
    handed to the network. *)
Definition callOpenAI (net : request -> fetch_result (option jsstring))
    (messages_ : list message) (s : settings)
  : list request * outcome jsstring :=
  if negb (truthy (apiKey s)) then
    ([], Threw (lit "API key not configured. Click the gear icon to add your OpenAI API key."))
  else
    let req := Request chat_endpoint (lit "POST")
                       (lit "Bearer " ++ apiKey s)
                       (Some (ChatBody (model s) messages_ (maxTokens s) 7)) in
    match net req with
    | NetworkError msg => ([req], Threw msg)
    | HttpError status error_message =>
        ([req], Threw (http_error_text status error_message))
    | HttpOk payload =>
        ([req], Returned (opt_or payload (lit "No response generated.")))
    end.

(** [handleChatMessage(userMessage, conversationHistory)]: the system
    turn holds the instructions and the current page context. *)
Definition system_content (s : settings) (page_content : jsstring) : jsstring :=
  systemPrompt s ++ nl ++ nl
  ++ rule 64 ++ nl
  ++ lit "                 CURRENT PAGE CONTENT BELOW" ++ nl
  ++ rule 64 ++ nl ++ nl
  ++ page_content ++ nl ++ nl
  ++ rule 64 ++ nl
  ++ lit "                 END OF PAGE CONTENT" ++ nl
  ++ rule 64.

Definition handleChatMessage
    (net : request -> fetch_result (option jsstring))
    (s : settings) (page_content userMessage : jsstring)
    (history : list message)
  : list request * outcome jsstring :=
  let messages_ :=
    Message (lit "system") (system_content s page_content)
    :: history ++ [Message (lit "user") userMessage] in
  callOpenAI net messages_ s.

(** ** The other extractors (221-240, 570-608, 613-667) *)

(** What [getFullText] reads of an element. *)
Record dom_node : Type := DomNode {
  n_tagName : jsstring;
  n_value : jsstring;
  n_placeholder : jsstring;
  n_selected : option jsstring;       (* the text of the selected option *)
  n_innerText : jsstring;
  n_textContent : jsstring
}.

(** [getFullText(el)]; [None] is a missing element. *)
Definition getFullText (el : option dom_node) : jsstring :=
  match el with
  | None => []
  | Some e =>
      let text :=
        if str_eqb (n_tagName e) (lit "INPUT")
           || str_eqb (n_tagName e) (lit "TEXTAREA")
        then or_else (n_value e) (or_else (n_placeholder e) [])
        else if str_eqb (n_tagName e) (lit "SELECT")
        then match n_selected e with
             | Some t => t
             | None => []
             end
        else or_else (n_innerText e) (or_else (n_textContent e) []) in
      trim text
  end.

(** An anchor with an [href] attribute. *)
Record dom_anchor : Type := DomAnchor {
  a_visible : bool;
  a_node : dom_node;
  a_href : jsstring
}.

Definition link_of (a : dom_anchor) : list link :=
  if negb (a_visible a) then []
  else
    let text := js_slice 0 (Some 200%Z) (getFullText (Some (a_node a))) in
    let href := a_href a in
    if truthy text && truthy href
       && negb (starts_with (lit "javascript:") href)
    then [Link text href] else [].

(** [extractLinks()] on the anchors of the document, in document order. *)
Definition extractLinks (anchors : list dom_anchor) : list link :=
  js_slice 0 (Some 150%Z) (concat (map link_of anchors)).

(** A list element and its items. *)
Record dom_list : Type := DomList {
  dl_visible : bool;
  dl_items : list dom_node
}.

Definition list_item_text (item : dom_node) : list jsstring :=
  let text := getFullText (Some item) in
  if truthy text && Nat.ltb (length text) 500 then [text] else [].

Definition list_of (idx_list : nat * dom_list) : list page_list :=
  let l := snd idx_list in
  if negb (dl_visible l) then []
  else
    let items := concat (map list_item_text (dl_items l)) in
    if nonempty items
    then [PageList (fst idx_list) (js_slice 0 (Some 50%Z) items)]
    else [].

(** [extractLists()] on the lists of the document, in document order. *)
Definition extractLists (document_lists : list dom_list) : list page_list :=
  js_slice 0 (Some 20%Z) (concat (map list_of (indexed document_lists))).

(** The three patterns of the clean-up: one or more tabs, one or more
    spaces, four or more line feeds. *)
Definition re_tabs : regex := Plus (Unit_ 9).
Definition re_spaces : regex := Plus (Unit_ 32).
Definition re_blank_lines : regex :=
  lits [LF; LF; LF; LF] (Star true (Unit_ LF)).

(** The clean-up at the end of [extractMainContent] (659-664). *)
Definition clean_up (allText : jsstring) : jsstring :=
  trim
    (replace_all re_blank_lines [Text [LF; LF; LF]]
       (replace_all re_spaces [Text (lit " ")]
          (replace_all re_tabs [Text (lit " ")] allText))).

(** [extractMainContent()]: [bodyText] is the text of the cleaned copy of
    the body, [shadowTexts] the texts gathered from the shadow roots,
    [iframeTexts] the body texts of the frames ([None] for a frame that
    cannot be read), [canvasTexts] the text content of the canvases. *)
Definition extractMainContent (bodyText : jsstring)
    (shadowTexts : list jsstring) (iframeTexts : list (option jsstring))
    (canvasTexts : list jsstring) : jsstring :=
  let allText := bodyText in
  let allText :=
    fold_left (fun acc t => acc ++ nl ++ t) shadowTexts allText in
  let allText :=
    fold_left
      (fun acc f =>
         match f with
         | Some t => acc ++ nl ++ lit "[IFRAME CONTENT]" ++ nl ++ t
         | None => acc
         end) iframeTexts allText in
  let allText :=
    fold_left
      (fun acc t =>
         let fallback := trim t in
         if truthy fallback then acc ++ nl ++ fallback else acc)
      canvasTexts allText in
  clean_up allText.

(** ** The current tab (93-101, 1002-1074) *)

(** [currentTabData]. *)
Record current_tab : Type := CurrentTab {
  ct_tabId : option Z;
  ct_url : jsstring;
  ct_title : jsstring;
  ct_favicon : jsstring;
  ct_content : jsstring;
  ct_rawData : option extracted;
  ct_lastUpdated : option Z
}.

Definition current_tab_start : current_tab :=
  CurrentTab None [] [] [] [] None None.

(** What [chrome.tabs.get] tells of a tab. *)
Record tab_info : Type := TabInfo {
  t_url : jsstring;
  t_title : jsstring;
  t_favIconUrl : jsstring
}.

(** The data of the [tabUpdated] message. *)
Record tab_update : Type := TabUpdate {
  u_tabId : option Z;
  u_url : jsstring;
  u_title : jsstring;
  u_favicon : jsstring;
  u_hasContent : bool;
  u_lastUpdated : option Z
}.

(** [broadcastTabUpdate()]: the message built from the current tab. *)
Definition broadcastTabUpdate (cur : current_tab) : tab_update :=
  TabUpdate (ct_tabId cur) (ct_url cur) (ct_title cur) (ct_favicon cur)
            (Nat.ltb 100 (length (ct_content cur))) (ct_lastUpdated cur).

(** The test made on an extraction result before it is kept. *)
Definition has_content (pageData : option extracted) : bool :=
  match pageData with
  | None => false
  | Some d =>
      (truthy (mainContent d) && Nat.ltb 50 (length (mainContent d)))
      || (truthy (allVisibleText d) && Nat.ltb 50 (length (allVisibleText d)))
      || nonempty (tables d)
  end.

(** What a run of [updateActiveTabData] leaves: the current tab, the
    messages sent to the panel, and the attempts at which the page was
    extracted. *)
Record tab_run : Type := TabRun {
  run_tab : current_tab;
  run_sent : list tab_update;
  run_extracted : list nat
}.

Definition internal_notice : jsstring :=
  lit "Cannot analyze internal browser pages.".

(** [updateActiveTabData(tabId, retryCount)].  The attempts are numbered
    by [retryCount]: [tabs_get n] is the answer of [chrome.tabs.get] at
    attempt [n] ([None] when it throws), [extract n] the result of
    [extractPageContent], [now n] the clock.  A retry is a new call made
    by a timer; [fuel] bounds the calls. *)
Fixpoint updateActiveTabData (fuel : nat)
    (tabs_get : nat -> option tab_info)
    (extract : nat -> option extracted) (now : nat -> Z)
    (tabId : Z) (retryCount : nat) (cur : current_tab) : tab_run :=
  match fuel with
  | O => TabRun cur [] []
  | S more =>
      match tabs_get retryCount with
      | None => TabRun cur [] []
      | Some tab =>
          if negb (truthy (t_url tab))
             || negb (starts_with (lit "http") (t_url tab))
          then
            let cur' :=
              CurrentTab (Some tabId) (or_else (t_url tab) [])
                         (or_else (t_title tab) (lit "Internal Page")) []
                         internal_notice None (Some (now retryCount)) in
            TabRun cur' [broadcastTabUpdate cur'] []
          else
            let pageData := extract retryCount in
            if negb (has_content pageData) && Nat.ltb retryCount 2
            then
              let later :=
                updateActiveTabData more tabs_get extract now tabId
                                    (S retryCount) cur in
              TabRun (run_tab later) (run_sent later)
                     (retryCount :: run_extracted later)
            else
              let cur' :=
                CurrentTab (Some tabId) (t_url tab)
                           (or_else (t_title tab) (lit "Untitled"))
                           (or_else (t_favIconUrl tab) [])
                           (formatContentForAI pageData) pageData
                           (Some (now retryCount)) in
              TabRun cur' [broadcastTabUpdate cur'] [retryCount]
      end
  end.

(** ** The content script (54-64) *)

(** The [mouseup] listener: the text of the message sent to the
    extension, if one is sent; [selection] is the text of the selection,
    [None] when there is no selection object. *)
Definition on_mouseup (selection : option jsstring) : option jsstring :=
  match option_map trim selection with
  | Some selectedText_ =>
      if truthy selectedText_ && Nat.ltb 10 (length selectedText_)
      then Some (js_substring 0 500 selectedText_)
      else None
  | None => None
  end.

End Background.

(* ================================================================== *)
(** * Options script: credential, models and settings                  *)
(* ================================================================== *)

Module Options.

Import Background.

Definition DEFAULT_SYSTEM_PROMPT : jsstring :=
  lit "You are a highly capable AI assistant analyzing the user's current browser tab. You have COMPLETE access to all page content provided below - this includes ALL text, data, tables, numbers, and information visible on the page."
  ++ nl ++ nl
  ++ lit "CRITICAL INSTRUCTIONS:" ++ nl
  ++ lit "1. ALWAYS analyze the ACTUAL DATA provided in the page content - never give generic advice" ++ nl
  ++ lit "2. Reference SPECIFIC numbers, keywords, metrics, and data points from the page" ++ nl
  ++ lit "3. If you see tables, extract and analyze the actual values" ++ nl
  ++ lit "4. Quote specific text from the page when relevant" ++ nl
  ++ lit "5. If asked about data that IS in the page content, provide detailed analysis WITH the actual data" ++ nl
  ++ lit "6. Only say " ++ dquote ++ lit "information not available" ++ dquote
  ++ lit " if you genuinely cannot find it in the provided content"
  ++ nl ++ nl
  ++ lit "You are seeing the SAME content the user sees. Analyze it thoroughly.".

(** Preferred models in order (for sorting). *)
Definition MODEL_PRIORITY : list jsstring :=
  [lit "gpt-4o"; lit "gpt-4o-mini"; lit "gpt-4-turbo"; lit "gpt-4";
   lit "gpt-3.5-turbo"; lit "o1"; lit "o1-mini"; lit "o1-preview"].

Record model_info : Type := ModelInfo {
  model_id : jsstring;
  created : Z;
  owned_by : jsstring
}.

(** The page: its fields, its status line, the model count line (with its
    error mark), the models in memory, and the storage area. *)
Record options : Type := OptionsPage {
  apiKeyField : jsstring;
  modelField : jsstring;
  maxTokensField : option Z;      (* parseInt of the field; None is NaN *)
  systemPromptField : jsstring;
  status : option (jsstring * jsstring);
  modelCount : jsstring * bool;
  availableModels : list model_info;
  storedSettings : option settings;
  cachedModels : list model_info
}.

(** [showStatus(message, type)] *)
Definition showStatus (message_ type_ : jsstring) (o : options) : options :=
  OptionsPage (apiKeyField o) (modelField o) (maxTokensField o)
              (systemPromptField o) (Some (message_, type_)) (modelCount o)
              (availableModels o) (storedSettings o) (cachedModels o).

Definition set_modelCount (text : jsstring) (is_error : bool) (o : options)
  : options :=
  OptionsPage (apiKeyField o) (modelField o) (maxTokensField o)
              (systemPromptField o) (status o) (text, is_error)
              (availableModels o) (storedSettings o) (cachedModels o).

Definition set_availableModels (l : list model_info) (o : options)
  : options :=
  OptionsPage (apiKeyField o) (modelField o) (maxTokensField o)
              (systemPromptField o) (status o) (modelCount o)
              l (storedSettings o) (cachedModels o).

Definition set_cachedModels (l : list model_info) (o : options) : options :=
  OptionsPage (apiKeyField o) (modelField o) (maxTokensField o)
              (systemPromptField o) (status o) (modelCount o)
              (availableModels o) (storedSettings o) l.

Definition store_settings (s : settings) (o : options) : options :=
  OptionsPage (apiKeyField o) (modelField o) (maxTokensField o)
              (systemPromptField o) (status o) (modelCount o)
              (availableModels o) (Some s) (cachedModels o).

Definition invalid_format : jsstring :=
  lit "Invalid API key format. Should start with " ++ dquote ++ lit "sk-"
  ++ dquote.

Definition models_endpoint : jsstring := lit "https://api.openai.com/v1/models".

(** The filter of the model list: chat families only.  [toLowerCase] is
    [String.prototype.toLowerCase]. *)
Definition is_chat_model (toLowerCase : jsstring -> jsstring)
    (m : model_info) : bool :=
  let i := toLowerCase (model_id m) in
  (includes i (lit "gpt-4") || includes i (lit "gpt-3.5")
   || starts_with (lit "o1") i)
  && negb (includes i (lit "instruct"))
  && negb (includes i (lit "vision"))
  && negb (includes i (lit "realtime"))
  && negb (includes i (lit "audio"))
  && negb (includes i (lit "embedding"))
  && negb (includes i (lit "whisper"))
  && negb (includes i (lit "tts"))
  && negb (includes i (lit "dall-e"))
  && negb (includes i (lit "davinci"))
  && negb (includes i (lit "babbage"))
  && negb (includes i (lit "curie"))
  && negb (includes i (lit "ada")).

(** [MODEL_PRIORITY.findIndex(p => id.startsWith(p))] *)
Fixpoint find_index_from (i : Z) (l : list jsstring) (x : jsstring) : Z :=
  match l with
  | [] => (-1)%Z
  | p :: r => if starts_with p x then i else find_index_from (i + 1)%Z r x
  end.

Definition priority (m : model_info) : Z :=
  find_index_from 0%Z MODEL_PRIORITY (model_id m).

Definition compare_models (a b : model_info) : Z :=
  let aPriority := priority a in
  let bPriority := priority b in
  if negb (aPriority =? -1)%Z && negb (bPriority =? -1)%Z
  then (aPriority - bPriority)%Z
  else if negb (aPriority =? -1)%Z then (-1)%Z
  else if negb (bPriority =? -1)%Z then 1%Z
  else (created b - created a)%Z.

Definition check_mark : jsstring := [10003%N].
Definition cross_mark : jsstring := [10007%N].

(** [saveSettings()] (1511-1552).  [storage_error] is the message of the
    rejection of the storage call, if it is rejected. *)
Definition saveSettings (storage_error : option jsstring) (o : options)
  : options :=
  let apiKey_ := trim (apiKeyField o) in
  let model_ := modelField o in
  let maxTokens_ :=
    match maxTokensField o with
    | Some n => if (n =? 0)%Z then 2000%Z else n
    | None => 2000%Z
    end in
  let systemPrompt_ := trim (systemPromptField o) in
  (* Validate API key format *)
  if truthy apiKey_ && negb (starts_with (lit "sk-") apiKey_) then
    showStatus invalid_format (lit "error") o
  else if negb (truthy apiKey_) then
    showStatus (lit "Please enter an API key") (lit "error") o
  else if negb (truthy model_) then
    showStatus (lit "Please select a model (click " ++ dquote
                ++ lit "Load Models" ++ dquote ++ lit " first)")
               (lit "error") o
  else if (maxTokens_ <? 100)%Z || (16000 <? maxTokens_)%Z then
    showStatus (lit "Max tokens must be between 100 and 16000")
               (lit "error") o
  else
    let s := Settings apiKey_ model_ maxTokens_
                      (or_else systemPrompt_ DEFAULT_SYSTEM_PROMPT) in
    match storage_error with
    | None =>
        showStatus (lit "Settings saved successfully!") (lit "success")
                   (store_settings s o)
    | Some msg =>
        showStatus (lit "Failed to save settings: " ++ msg) (lit "error") o
    end.

(** ** The model list of the page (1295-1317, 1421-1485) *)

(** The groups of the model list, in the order in which they are shown. *)
Inductive model_group : Type :=
| GPT_4o | GPT_4_Turbo | GPT_4 | GPT_3_5 | O1_Reasoning | Other.

Definition all_groups : list model_group :=
  [GPT_4o; GPT_4_Turbo; GPT_4; GPT_3_5; O1_Reasoning; Other].

Definition group_label (g : model_group) : jsstring :=
  match g with
  | GPT_4o => lit "GPT-4o"
  | GPT_4_Turbo => lit "GPT-4 Turbo"
  | GPT_4 => lit "GPT-4"
  | GPT_3_5 => lit "GPT-3.5"
  | O1_Reasoning => lit "O1 (Reasoning)"
  | Other => lit "Other"
  end.

Definition group_eqb (a b : model_group) : bool :=
  match a, b with
  | GPT_4o, GPT_4o | GPT_4_Turbo, GPT_4_Turbo | GPT_4, GPT_4
  | GPT_3_5, GPT_3_5 | O1_Reasoning, O1_Reasoning | Other, Other => true
  | _, _ => false
  end.

(** The group a model is put in. *)
Definition group_of (m : model_info) : model_group :=
  let i := model_id m in
  if starts_with (lit "gpt-4o") i then GPT_4o
  else if includes i (lit "gpt-4-turbo") || includes i (lit "gpt-4-1106")
          || includes i (lit "gpt-4-0125") then GPT_4_Turbo
  else if starts_with (lit "gpt-4") i then GPT_4
  else if starts_with (lit "gpt-3.5") i then GPT_3_5
  else if starts_with (lit "o1") i then O1_Reasoning
  else Other.

(** The model list as shown: its groups with their options, the selected
    value, and whether it is disabled. *)
Record dropdown : Type := Dropdown {
  dd_groups : list (jsstring * list model_info);
  dd_value : jsstring;
  dd_disabled : bool
}.

Definition group_options (models : list model_info) (g : model_group)
  : list (jsstring * list model_info) :=
  let members := filter (fun m => group_eqb (group_of m) g) models in
  match members with
  | [] => []
  | _ :: _ => [(group_label g, members)]
  end.

(** The options of the list, in the order of the page. *)
Definition dropdown_options (d : dropdown) : list model_info :=
  concat (map snd (dd_groups d)).

Definition set_modelField (v : jsstring) (o : options) : options :=
  OptionsPage (apiKeyField o) v (maxTokensField o) (systemPromptField o)
              (status o) (modelCount o) (availableModels o)
              (storedSettings o) (cachedModels o).

(** [populateModelDropdown(selectedModel)].  The value of the list is the
    selected model when one of the options has it; with no selected model
    it is set to [gpt-4o-mini] when available, else to the first of the
    available models; otherwise the list keeps its first option. *)
Definition populateModelDropdown (selectedModel : jsstring) (o : options)
  : dropdown * options :=
  match availableModels o with
  | [] => (Dropdown [] [] true, set_modelField [] o)
  | first :: _ =>
      let groups := concat (map (group_options (availableModels o))
                                all_groups) in
      let shown_first :=
        match concat (map snd groups) with
        | m :: _ => model_id m
        | [] => []
        end in
      let value :=
        if negb (truthy selectedModel)
        then match find (fun m => str_eqb (model_id m) (lit "gpt-4o-mini"))
                        (availableModels o) with
             | Some m => model_id m
             | None => model_id first
             end
        else if existsb (fun m => str_eqb (model_id m) selectedModel)
                        (availableModels o)
        then selectedModel
        else shown_first in
      (Dropdown groups value false, set_modelField value o)
  end.

(** The settings read from the storage area, with the defaults of the
    options page. *)
Definition stored_or_default (o : options) : settings :=
  match storedSettings o with
  | Some s => s
  | None => Settings [] [] 2000%Z []
  end.

(** [fetchModels()] (1322-1416).  The result lists the requests handed to
    the network.  [cache_write] is the outcome of the storage call that
    caches the models, [model_read] that of the storage call that reads
    the stored model; both are made inside the [try] block, after the
    models of the page are set. *)
Definition fetchModels (toLowerCase : jsstring -> jsstring)
    (net : request -> fetch_result (list model_info))
    (cache_write model_read : storage_result) (o : options)
  : list request * options :=
  let apiKey_ := trim (apiKeyField o) in
  if negb (truthy apiKey_) then
    ([], showStatus (lit "Please enter an API key first") (lit "error") o)
  else if negb (starts_with (lit "sk-") apiKey_) then
    ([], showStatus invalid_format (lit "error") o)
  else
    let o := set_modelCount (lit "Fetching models...") false o in
    let req := Request models_endpoint (lit "GET")
                       (lit "Bearer " ++ apiKey_) None in
    let failed msg o :=
      showStatus (lit "Failed to fetch models: " ++ msg) (lit "error")
        (set_modelCount (cross_mark ++ lit " " ++ msg) true o) in
    match net req with
    | NetworkError msg => ([req], failed msg o)
    | HttpError status_ error_message =>
        ([req], failed (http_error_text status_ error_message) o)
    | HttpOk data =>
        let chatModels :=
          sort_by compare_models
                  (filter (is_chat_model toLowerCase) data) in
        let o := set_availableModels chatModels o in
        match cache_write with
        | StorageError msg => ([req], failed msg o)
        | StorageOk =>
            let o := set_cachedModels chatModels o in
            match model_read with
            | StorageError msg => ([req], failed msg o)
            | StorageOk =>
                let o :=
                  snd (populateModelDropdown (model (stored_or_default o))
                                             o) in
                ([req],
                 set_modelCount
                   (check_mark ++ lit " Found "
                    ++ nat_to_string (length chatModels)
                    ++ lit " chat models") false o)
            end
        end
    end.

(** [loadSettings()]: the fields are filled from the storage area; the
    model list comes from the cached models, or is fetched when there is
    a credential and no cache. *)
Definition loadSettings (toLowerCase : jsstring -> jsstring)
    (net : request -> fetch_result (list model_info))
    (cache_write model_read : storage_result) (o : options)
  : list request * options :=
  let s := stored_or_default o in
  let o :=
    OptionsPage (apiKey s) (modelField o) (Some (maxTokens s))
                (systemPrompt s) (status o) (modelCount o)
                (availableModels o) (storedSettings o) (cachedModels o) in
  match cachedModels o with
  | _ :: _ =>
      let o := set_availableModels (cachedModels o) o in
      ([], snd (populateModelDropdown (model s) o))
  | [] =>
      if truthy (apiKey s)
      then fetchModels toLowerCase net cache_write model_read o
      else ([], o)
  end.

End Options.

(* ================================================================== *)
(** * The scripts together                                             *)
(* ================================================================== *)

(** [getSettings()] of the background script (106-124): what the options
    page stored, or the defaults. *)
Definition getSettings (stored : option Background.settings)
  : Background.settings :=
  match stored with
  | Some s => s
  | None =>
      Background.Settings [] (lit "gpt-4o-mini") 2000%Z
                          Options.DEFAULT_SYSTEM_PROMPT
  end.

(** The answer of the background script to the [chat] message
    (1192-1202): the reply of [handleChatMessage], or the message of the
    error it threw.  [history] is [None] when the message has none. *)
Definition on_chat (net : request -> fetch_result (option jsstring))
    (stored : option Background.settings) (page_content : jsstring)
    (userMessage : jsstring) (history : option (list message))
  : list request * chat_reply :=
  let r :=
    Background.handleChatMessage net (getSettings stored) page_content
      userMessage (match history with Some h => h | None => [] end) in
  (fst r,
   match snd r with
   | Returned response => ReplyOk response
   | Threw msg => ReplyError (Some msg)
   end).

(** The first run of [updateActiveTabData] for a tab. *)
Definition update_tab (tabs_get : nat -> option Background.tab_info)
    (extract : nat -> option Background.extracted) (now : nat -> Z)
    (tabId : Z) (cur : Background.current_tab) : Background.tab_run :=
  Background.updateActiveTabData 3 tabs_get extract now tabId 0 cur.

(** The header of the panel: the indicator, the title, the address and
    the icon of the tab. *)
Record tab_view : Type := TabView {
  v_inactive : bool;
  v_title : jsstring;
  v_url : jsstring;
  v_favicon : option jsstring
}.

(** [updateTabDisplay(data)] (panel.js, 179-201); [None] is missing
    data, and a tab identifier that is missing or zero counts as none. *)
Definition updateTabDisplay (URL_parse : jsstring -> option url_parts)
    (data : option Background.tab_update) (v : tab_view) : tab_view :=
  let no_tab :=
    TabView true (lit "No tab selected") (lit "-") (v_favicon v) in
  match data with
  | None => no_tab
  | Some d =>
      match Background.u_tabId d with
      | None => no_tab
      | Some i =>
          if (i =? 0)%Z then no_tab
          else
            TabView false
                    (or_else (Background.u_title d) (lit "Untitled"))
                    (or_else (truncateUrl URL_parse (Background.u_url d))
                             (lit "-"))
                    (if truthy (Background.u_favicon d)
                     then Some (Background.u_favicon d) else None)
      end
  end.

(** What the user and the extension do to the panel; a sending and a
    deletion come with the outcome of their storage call. *)
Inductive panel_event : Type :=
| Send (input : jsstring) (attached : option file) (settings_key : bool)
       (reply : chat_reply) (clock : nat -> Z) (storage : storage_result)
| Select (chatId : jsstring)
| Delete (chatId : jsstring) (storage : storage_result)
| NewChat.

(** The effect of an event: the input and the file are set, then the
    handler runs. *)
Definition panel_step (toLocaleDateString : Z -> jsstring) (today : Z)
    (st : panel) (e : panel_event) : panel :=
  match e with
  | Send input attached key reply clock storage =>
      sendMessage toLocaleDateString today key reply clock storage
        (with_file attached (with_input input st))
  | Select chatId => loadChat chatId st
  | Delete chatId storage =>
      deleteChat toLocaleDateString today storage chatId st
  | NewChat => startNewChat st
  end.

Definition panel_run (toLocaleDateString : Z -> jsstring) (today : Z)
    (st : panel) (events : list panel_event) : panel :=
  fold_left (panel_step toLocaleDateString today) events st.

(* ================================================================== *)
(** * Notions used to state the properties                             *)
(* ================================================================== *)

(** [sendMessage] goes past its guards: there is a text or a file, no
    request is pending, and a key is known or found in the settings. *)
Definition sends (settings_key : bool) (st : panel) : bool :=
  negb ((negb (truthy (trim (inputValue st)))
         && match currentFile st with None => true | Some _ => false end)
        || isLoading st)
  && (hasApiKey st || settings_key).

(** The user turn that [sendMessage] records for the current input. *)
Definition sent_turn (st : panel) : message :=
  Message (lit "user") (user_content (trim (inputValue st)) (currentFile st)).

(** A thread updated no earlier than another. *)
Definition newer_first (a b : chat) : Prop := (updatedAt b <= updatedAt a)%Z.

(** The identifiers of the saved threads. *)
Definition ids (l : list chat) : list jsstring := map id l.

(** The identifier that [saveCurrentChat] makes from the clock. *)
Definition new_id (now : nat -> Z) : jsstring :=
  lit "chat-" ++ num_to_string (now 0%nat).

(** The identifier under which [saveCurrentChat] files the conversation:
    the current one, or a new one made from the clock. *)
Definition filed_under (now : nat -> Z) (st : panel) : jsstring :=
  match currentChatId st with
  | Some cid => if truthy cid then cid else new_id now
  | None => new_id now
  end.

(** The current identifier names a saved thread, or the identifier about
    to be made from the clock is not taken yet. *)
Definition id_available (now : nat -> Z) (st : panel) : Prop :=
  match currentChatId st with
  | Some cid => if truthy cid then In cid (ids (savedChats st))
                else ~ In (new_id now) (ids (savedChats st))
  | None => ~ In (new_id now) (ids (savedChats st))
  end.

(** The state the panel keeps between events: the saved threads have
    distinct, non-empty identifiers, and the current identifier, when
    there is one, names a saved thread. *)
Definition panel_ok (st : panel) : Prop :=
  NoDup (ids (savedChats st)) /\
  Forall (fun i => truthy i = true) (ids (savedChats st)) /\
  match currentChatId st with
  | Some cid => In cid (ids (savedChats st))
  | None => True
  end.

(** The saved threads have distinct, non-empty identifiers. *)
Definition threads_ok (st : panel) : Prop :=
  NoDup (ids (savedChats st)) /\
  Forall (fun i => truthy i = true) (ids (savedChats st)).

(** Whether [deleteChat] reaches the start of a new conversation. *)
Definition restarts (storage : storage_result) (chatId : jsstring)
    (st : panel) : bool :=
  match storage with
  | StorageOk => opt_str_eqb (currentChatId st) chatId
  | StorageError _ => false
  end.

(** An options page whose credential field holds the given text. *)
Definition page_with_key (key : string) : Options.options :=
  Options.OptionsPage (lit key) (lit "gpt-4o-mini") (Some 2000%Z) [] None
                      ([], false) [] None [].

(** The table of the example scenario: headers Name and Price, one row
    Widget and $10. *)
Definition price_table (source_ caption_ : jsstring) : Background.table :=
  Background.Table source_ caption_ [lit "Name"; lit "Price"]
                   [[lit "Widget"; lit "$10"]].

(** A page from which nothing was extracted. *)
Definition blank_page : Background.extracted :=
  Background.Extracted (lit "https://example.test/") (lit "Blank") [] 0%Z
                       [] [] [] [] [] [] [] [] [] [] [].

(** A page with one table only. *)
Definition page_with_table (t : Background.table) : Background.extracted :=
  Background.Extracted (lit "https://example.test/") (lit "Prices") [] 0%Z
                       [] [t] [] [] [] [] [] [] [] [] [].

(** A login form whose password field has no aria label, placeholder or
    name and sits inside a [label] element with the text Password; the
    argument is the text typed into the field. *)
Definition password_field (typed : jsstring) : Background.dom_field :=
  Background.DomField (lit "password") (lit "INPUT") typed false None None
                      [] [] Background.QueryNone (Some (lit "Password")).

Definition login_form (typed : jsstring) : list Background.dom_form :=
  [Background.DomForm true (lit "https://example.test/login")
                      [password_field typed]].

(** A page whose only extracted section is its forms. *)
Definition page_with_forms (f : list Background.form)
  : Background.extracted :=
  Background.Extracted (lit "https://example.test/login") (lit "Login") []
                       0%Z [] [] [] [] f [] [] [] [] [] [].

(** The elements of a login page: a paragraph of visible text and the
    password input, which holds the typed text. *)
Definition login_elements (typed : jsstring) : list Background.dom_element :=
  [Background.DomElement true
     [lit "Welcome back. Please sign in with the password that was "
      ++ lit "sent to you by post last week to continue."]
     None None;
   Background.DomElement true [] (Some typed) None].

(** The record extracted from the login page, as far as the forms and the
    backup capture of the visible text go. *)
Definition login_page (typed : jsstring) : Background.extracted :=
  Background.Extracted (lit "https://example.test/login") (lit "Login") []
    0%Z [] [] [] [] (Background.extracted_forms (login_form typed)) [] [] []
    [] (Background.extractAllVisibleText None (login_elements typed)) [].

(** Two fields that differ at most in the text they hold. *)
Definition same_but_value (a b : Background.dom_field) : Prop :=
  Background.type a = Background.type b /\
  Background.tagName a = Background.tagName b /\
  Background.checked a = Background.checked b /\
  Background.selectedOption a = Background.selectedOption b /\
  Background.ariaLabel a = Background.ariaLabel b /\
  Background.placeholder a = Background.placeholder b /\
  Background.name a = Background.name b /\
  Background.labelFor a = Background.labelFor b /\
  Background.closestLabel a = Background.closestLabel b.

(** The data names a tab: it is there, and its tab identifier is
    neither missing nor zero. *)
Definition names_tab (data : option Background.tab_update) : bool :=
  match data with
  | Some d =>
      match Background.u_tabId d with
      | Some i => negb (i =? 0)%Z
      | None => false
      end
  | None => false
  end.

(** The text of the error bubble for a reply that is a failure. *)
Definition failure_text (reply : chat_reply) : option jsstring :=
  match reply with
  | ReplyOk _ => None
  | ReplyError error => Some (opt_or error (lit "Failed to get response"))
  | ReplyThrown msg => Some (or_else msg (lit "An error occurred"))
  end.

(** Whether a reply is the rejection that tells [safeSendMessage] that
    the extension context is lost. *)
Definition context_failure (reply : chat_reply) : bool :=
  match reply with
  | ReplyThrown msg => context_lost msg
  | _ => false
  end.

(** The bubbles that the document shows: those of the message list, as
    long as the body of the document has not been replaced. *)
Definition displayed (st : panel) : list bubble :=
  if bodyReplaced st then [] else shown st.

(** What [saveCurrentChat] never changes of a thread once it exists. *)
Definition thread_card (c : chat) : jsstring * jsstring * Z :=
  (id c, title c, createdAt c).

(** The state of the typing animation after [n] runs of [typeChar]. *)
Definition type_after (n : nat) (content_ : jsstring) : typing :=
  Nat.iter n (typeChar content_) typing_start.

(** The text of a turn as a bubble shows it: a user turn escaped, with
    its line feeds as breaks; any other turn formatted. *)
Definition turn_html (user : bool) (content_ : jsstring) : jsstring :=
  if user
  then flat_map (fun c => if N.eqb c LF then lit "<br>" else escape_unit c)
                content_
  else formatMessage content_.

(** The bubble that [loadChat] shows for a stored turn. *)
Definition turn_bubble (m : message) : bubble :=
  let user := str_eqb (role m) (lit "user") in
  Bubble None
         (lit "message " ++ (if user then lit "user" else lit "assistant"))
         None (turn_html user (content m)).

(** A text without the two angle brackets. *)
Definition no_angle_brackets (s : jsstring) : Prop :=
  Forall (fun c => c <> 60%N /\ c <> 62%N) s.

(** Each sending in a list of events gets from the clock an identifier
    that no saved thread has at that moment. *)
Fixpoint clock_fresh (toLocaleDateString : Z -> jsstring) (today : Z)
    (st : panel) (events : list panel_event) : Prop :=
  match events with
  | [] => True
  | e :: rest =>
      match e with
      | Send _ _ _ _ clock _ =>
          ~ In (new_id (fun i => clock (S i))) (ids (savedChats st))
      | _ => True
      end
      /\ clock_fresh toLocaleDateString today
           (panel_step toLocaleDateString today st e) rest
  end.

(** In a list of events, no deletion of the thread that is current at
    that moment has its storage call rejected. *)
Fixpoint deletes_stored (toLocaleDateString : Z -> jsstring) (today : Z)
    (st : panel) (events : list panel_event) : Prop :=
  match events with
  | [] => True
  | e :: rest =>
      match e with
      | Delete chatId (StorageError _) =>
          opt_str_eqb (currentChatId st) chatId = false
      | _ => True
      end
      /\ deletes_stored toLocaleDateString today
           (panel_step toLocaleDateString today st e) rest
  end.

(** The labels of [formatDate], by the age of the time stamp in
    milliseconds. *)
Definition age_label (toLocaleDateString : Z -> jsstring) (today : Z)
    (timestamp : Z) : jsstring :=
  let age := (today - timestamp)%Z in
  if (age <? 60000)%Z then lit "Just now"
  else if (age <? 3600000)%Z
  then num_to_string (age / 60000) ++ lit "m ago"
  else if (age <? 86400000)%Z
  then num_to_string (age / 3600000) ++ lit "h ago"
  else if (age <? 604800000)%Z
  then num_to_string (age / 86400000) ++ lit "d ago"
  else toLocaleDateString timestamp.

(** A run of one unit squeezed: every maximal run of at least [m] units
    [c] becomes [rep]; shorter runs stay. *)
Fixpoint leading (c : N) (s : jsstring) : nat :=
  match s with
  | x :: r => if N.eqb x c then S (leading c r) else O
  | [] => O
  end.

Fixpoint squeeze (fuel : nat) (m : nat) (c : N) (rep s : jsstring)
  : jsstring :=
  match fuel with
  | O => s
  | S f =>
      match s with
      | [] => []
      | x :: r =>
          if Nat.leb m (leading c s) && Nat.ltb 0 (leading c s)
          then rep ++ squeeze f m c rep (skipn (leading c s) s)
          else x :: squeeze f m c rep r
      end
  end.

(** No run of the unit [c] in the text is longer than [k]. *)
Definition runs_at_most (c : N) (k : nat) (s : jsstring) : Prop :=
  forall n, (leading c (skipn n s) <= k)%nat.

(** The order of the model list: the models of a preferred family come
    first, in the order of the families; the others follow, newest
    first. *)
Definition listed_before (a b : Options.model_info) : Prop :=
  let pa := Options.priority a in
  let pb := Options.priority b in
  if (pa =? -1)%Z
  then pb = (-1)%Z /\ (Options.created b <= Options.created a)%Z
  else pb = (-1)%Z \/ (pa <= pb)%Z.

(* ================================================================== *)
(** * Properties                                                       *)
(* ================================================================== *)

Unset Implicit Arguments.

(** ** Strings and arrays *)

Lemma str_eqb_refl (a : jsstring) : str_eqb a a = true.
Proof.
  induction a as [|x a IH]; simpl; [reflexivity|].
  now rewrite N.eqb_refl, IH.
Qed.

Lemma str_eqb_eq (a b : jsstring) : str_eqb a b = true <-> a = b.
Proof.
  split; [|intros ->; apply str_eqb_refl].
  revert b; induction a as [|x a IH]; intros [|y b]; simpl; try easy.
  intros H; apply andb_true_iff in H as [Hx Ha].
  apply N.eqb_eq in Hx; subst; f_equal; auto.
Qed.

Lemma str_eqb_neq (a b : jsstring) : str_eqb a b = false <-> a <> b.
Proof.
  split; intros H.
  - intros E; apply str_eqb_eq in E; congruence.
  - destruct (str_eqb a b) eqn:E; [|reflexivity].
    apply str_eqb_eq in E; contradiction.
Qed.

Lemma starts_with_app (p s : jsstring) : starts_with p (p ++ s) = true.
Proof.
  induction p as [|x p IH]; simpl; [reflexivity|].
  now rewrite N.eqb_refl, IH.
Qed.

Lemma includes_here (needle s : jsstring) :
  starts_with needle s = true -> includes s needle = true.
Proof. destruct s; simpl; intros ->; reflexivity. Qed.

Lemma includes_skip (pre s needle : jsstring) :
  includes s needle = true -> includes (pre ++ s) needle = true.
Proof.
  induction pre as [|c pre IH]; simpl; [easy|].
  intros H; rewrite (IH H); apply orb_true_r.
Qed.

(** A text that occurs between two others is found by [includes]. *)
Lemma includes_middle (pre needle post : jsstring) :
  includes (pre ++ needle ++ post) needle = true.
Proof. apply includes_skip, includes_here, starts_with_app. Qed.

Lemma includes_self (s : jsstring) : includes s s = true.
Proof.
  rewrite <- (app_nil_r s) at 1. apply (includes_middle [] s []).
Qed.

Lemma js_slice_length_le {A : Type} (n : Z) (l : list A) :
  (0 <= n)%Z -> (Z.of_nat (length (js_slice 0 (Some n) l)) <= n)%Z.
Proof.
  intros Hn; unfold js_slice, rel_index; cbv zeta.
  rewrite length_firstn.
  destruct (n <? 0)%Z eqn:E; [apply Z.ltb_lt in E; lia|].
  change (0 <? 0)%Z with false; cbv iota. lia.
Qed.

Lemma js_substring_length_le (a b : Z) (s : jsstring) :
  (0 <= a <= b)%Z ->
  (Z.of_nat (length (js_substring a b s)) <= b - a)%Z.
Proof.
  intros H; unfold js_substring, clamp; cbv zeta.
  rewrite length_firstn. lia.
Qed.

Lemma js_substring_prefix_length (n : Z) (s : jsstring) :
  (0 <= n <= Z.of_nat (length s))%Z ->
  Z.of_nat (length (js_substring 0 n s)) = n.
Proof.
  intros H; unfold js_substring, clamp; cbv zeta.
  rewrite length_firstn, length_skipn. lia.
Qed.

(** [slice(-n)] keeps the last [n] elements. *)
Lemma js_slice_last {A} (n : nat) (l : list A) :
  (0 < n)%nat ->
  js_slice (- Z.of_nat n) None l = skipn (length l - n) l.
Proof.
  intros Hn; unfold js_slice, rel_index; cbv zeta.
  destruct (- Z.of_nat n <? 0)%Z eqn:E; [|apply Z.ltb_ge in E; lia].
  replace (Z.to_nat (Z.max (Z.of_nat (length l) + - Z.of_nat n) 0))
    with (length l - n)%nat by lia.
  apply firstn_all2. rewrite length_skipn. lia.
Qed.

(** ** The definitions at work *)

Example trim_strips_both_ends :
  trim (lit "  sk-abc " ++ nl) = lit "sk-abc".
Proof. vm_compute. reflexivity. Qed.

Example slice_keeps_the_tail :
  js_slice (-2) None [1; 2; 3; 4; 5]%nat = [4; 5]%nat.
Proof. vm_compute. reflexivity. Qed.

Example formatMessage_inline_marks :
  formatMessage (lit "a **b** *c* `d` <e> & f")
  = lit "a <strong>b</strong> <em>c</em> <code>d</code> &lt;e&gt; &amp; f".
Proof. vm_compute. reflexivity. Qed.

Example formatMessage_lines :
  formatMessage (lit "# Top" ++ nl ++ lit "- one" ++ nl ++ lit "2. two")
  = lit "<strong style=" ++ dquote ++ lit "font-size: 1.3em;" ++ dquote
    ++ lit ">Top</strong><br>" ++ bullet ++ lit " one<br>2. two".
Proof. vm_compute. reflexivity. Qed.

Example formatMessage_fenced_block :
  formatMessage (fence_text ++ lit "js" ++ nl ++ lit " x < 1 " ++ nl
                 ++ fence_text)
  = lit "<pre><code>x &lt; 1</code></pre>".
Proof. vm_compute. reflexivity. Qed.

(** An unfinished mark is left as it is while the text is typed. *)
Example formatMessageIncremental_unfinished_bold :
  formatMessageIncremental (lit "so **far") = lit "so **far".
Proof. vm_compute. reflexivity. Qed.

Example typeMessage_delays :
  timers (typeMessage (lit "Hi, you.")) = [6; 6; 12; 3; 6; 6; 6; 18]%Z.
Proof. vm_compute. reflexivity. Qed.

Example truncateUrl_long_address :
  truncateUrl
    (fun _ => Some (UrlParts (lit "www.example.com")
                             (lit "/a/very/long/path/that/goes/on")))
    (lit "https://www.example.com/a/very/long/path/that/goes/on")
  = lit "www.example.com/a/very/long/path/that...".
Proof. vm_compute. reflexivity. Qed.

Example sort_by_update_is_stable :
  map id
    (sort_by by_update
       [Chat (lit "a") [] [] 0 5; Chat (lit "b") [] [] 0 9;
        Chat (lit "c") [] [] 0 5; Chat (lit "d") [] [] 0 7]%Z)
  = [lit "b"; lit "d"; lit "a"; lit "c"].
Proof. vm_compute. reflexivity. Qed.

Example new_thread_title_drops_attachment_mark :
  map title
    (savedChats
       (saveCurrentChat (fun _ => []) 0%Z (fun _ => 17%Z) StorageOk
          (with_history
             [Message (lit "user") (lit "[ATTACHED FILE: a.txt] hello")]
             panel_start)))
  = [lit "hello"].
Proof. vm_compute. reflexivity. Qed.

Example chat_models_are_filtered_and_ordered :
  map Options.model_id
    (sort_by Options.compare_models
       (filter (Options.is_chat_model to_lower)
          [Options.ModelInfo (lit "whisper-1") 1 [];
           Options.ModelInfo (lit "gpt-3.5-turbo") 2 [];
           Options.ModelInfo (lit "gpt-4o-mini") 3 [];
           Options.ModelInfo (lit "gpt-4-vision-preview") 4 [];
           Options.ModelInfo (lit "gpt-4") 5 []]%Z))
  = [lit "gpt-4o-mini"; lit "gpt-4"; lit "gpt-3.5-turbo"].
Proof. vm_compute. reflexivity. Qed.

(** ** The matcher never runs short of fuel *)

(** Every result of the matcher is a result of its continuation, called
    at a position that is not before the start. *)
Lemma star_loop_result
    (m : (mstate -> option mstate) -> mstate -> option mstate) :
  (forall k s e, m k s = Some e ->
     exists s', k s' = Some e /\ (length (after s') <= length (after s))%nat) ->
  forall greedy k fuel s e,
    star_loop greedy m k fuel s = Some e ->
    exists s', k s' = Some e /\ (length (after s') <= length (after s))%nat.
Proof.
  intros Hm greedy k fuel.
  induction fuel as [|f IH]; intros s e H; simpl in H; [eauto|].
  assert (Hround :
    m (fun s1 => if Nat.ltb (length (after s1)) (length (after s))
                 then star_loop greedy m k f s1 else None) s = Some e ->
    exists s', k s' = Some e /\ (length (after s') <= length (after s))%nat).
  { intros Hr. apply Hm in Hr as (s1 & Hs1 & Hle).
    destruct (Nat.ltb _ _) eqn:E; [|discriminate Hs1].
    apply IH in Hs1 as (s' & Hk & Hle'). exists s'; split; [exact Hk|lia]. }
  destruct greedy.
  - destruct (m _ s) as [e'|] eqn:E.
    + inversion H; subst e'. now apply Hround.
    + eauto.
  - destruct (k s) as [e'|] eqn:E.
    + inversion H; subst e'. eauto.
    + now apply Hround.
Qed.

Lemma mt_result (r : regex) :
  forall k s e, mt r k s = Some e ->
    exists s', k s' = Some e /\ (length (after s') <= length (after s))%nat.
Proof.
  induction r as [|c|p|r1 IH1 r2 IH2|r IH|g r IH|n r IH| | |p|r IH];
    intros k s e H; simpl in H.
  - eauto.
  - destruct (after s) as [|x t] eqn:E; [discriminate|].
    destruct (N.eqb x c); [|discriminate].
    exists (advance s); split; [exact H|].
    unfold advance; rewrite E; simpl; lia.
  - destruct (after s) as [|x t] eqn:E; [discriminate|].
    destruct (p x); [|discriminate].
    exists (advance s); split; [exact H|].
    unfold advance; rewrite E; simpl; lia.
  - apply IH1 in H as (s1 & H1 & L1). apply IH2 in H1 as (s2 & H2 & L2).
    exists s2; split; [exact H2|lia].
  - destruct (mt r k s) as [e'|] eqn:E.
    + inversion H; subst e'. now apply IH in E.
    + eauto.
  - now apply (star_loop_result (mt r) IH) in H.
  - apply IH in H as (s1 & H1 & L1).
    exists (set_cap n (consumed s s1) s1). split; [exact H1|exact L1].
  - destruct (at_line_start s); [eauto|discriminate].
  - destruct (at_line_end s); [eauto|discriminate].
  - destruct (before s) as [|c t]; [eauto|].
    destruct (p c); [discriminate|eauto].
  - destruct (mt r _ s); [discriminate|eauto].
Qed.

(** The loop of a repetition gives the same answer with any fuel that is
    at least the number of units left: the fuel given by [mt] is enough. *)
Lemma star_loop_ext
    (m : (mstate -> option mstate) -> mstate -> option mstate) :
  (forall k k' s, (forall x, k x = k' x) -> m k s = m k' s) ->
  forall greedy k k' fuel s,
    (forall x, k x = k' x) ->
    star_loop greedy m k fuel s = star_loop greedy m k' fuel s.
Proof.
  intros Hm greedy k k' fuel.
  induction fuel as [|f IH]; intros s Hk; simpl; [apply Hk|].
  rewrite (Hm _ (fun s1 => if Nat.ltb (length (after s1)) (length (after s))
                           then star_loop greedy m k' f s1 else None) s).
  - now rewrite Hk.
  - intros x. destruct (Nat.ltb _ _); [now apply IH|reflexivity].
Qed.

Lemma mt_ext (r : regex) :
  forall k k' s, (forall x, k x = k' x) -> mt r k s = mt r k' s.
Proof.
  induction r as [|c|p|r1 IH1 r2 IH2|r IH|g r IH|n r IH| | |p|r IH];
    intros k k' s Hk; simpl.
  - apply Hk.
  - destruct (after s) as [|x t]; [reflexivity|]. now rewrite Hk.
  - destruct (after s) as [|x t]; [reflexivity|]. now rewrite Hk.
  - apply IH1. intros x. now apply IH2.
  - now rewrite (IH k k' s Hk), Hk.
  - now apply star_loop_ext.
  - apply IH. intros x. apply Hk.
  - now rewrite Hk.
  - now rewrite Hk.
  - now rewrite Hk.
  - now rewrite Hk.
Qed.

Lemma star_loop_fuel (greedy : bool) (r : regex)
    (k : mstate -> option mstate) :
  forall fuel s,
    (length (after s) <= fuel)%nat ->
    star_loop greedy (mt r) k (S fuel) s = star_loop greedy (mt r) k fuel s.
Proof.
  induction fuel as [|f IH]; intros s Hle.
  - assert (Hnone : mt r (fun s1 =>
               if Nat.ltb (length (after s1)) (length (after s))
               then star_loop greedy (mt r) k 0 s1 else None) s = None).
    { destruct (mt r _ s) as [e|] eqn:E; [|reflexivity].
      apply mt_result in E as (s1 & H1 & _).
      destruct (Nat.ltb _ _) eqn:L; [|discriminate H1].
      apply Nat.ltb_lt in L. lia. }
    change (star_loop greedy (mt r) k 1 s) with
      (let again s1 := if Nat.ltb (length (after s1)) (length (after s))
                       then star_loop greedy (mt r) k 0 s1 else None in
       if greedy then match mt r again s with
                      | Some e => Some e | None => k s end
       else match k s with Some e => Some e | None => mt r again s end).
    cbv zeta. rewrite Hnone.
    change (star_loop greedy (mt r) k 0 s) with (k s).
    destruct greedy; [reflexivity|]. destruct (k s); reflexivity.
  - change (star_loop greedy (mt r) k (S (S f)) s) with
      (let again s1 := if Nat.ltb (length (after s1)) (length (after s))
                       then star_loop greedy (mt r) k (S f) s1 else None in
       if greedy then match mt r again s with
                      | Some e => Some e | None => k s end
       else match k s with Some e => Some e | None => mt r again s end).
    change (star_loop greedy (mt r) k (S f) s) with
      (let again s1 := if Nat.ltb (length (after s1)) (length (after s))
                       then star_loop greedy (mt r) k f s1 else None in
       if greedy then match mt r again s with
                      | Some e => Some e | None => k s end
       else match k s with Some e => Some e | None => mt r again s end).
    cbv zeta.
    rewrite (mt_ext r _ (fun s1 =>
               if Nat.ltb (length (after s1)) (length (after s))
               then star_loop greedy (mt r) k f s1 else None) s);
      [reflexivity|].
    intros x. destruct (Nat.ltb _ _) eqn:L; [|reflexivity].
    apply Nat.ltb_lt in L. apply IH. lia.
Qed.

(** A global replacement gives the same text with any fuel above the
    length of what is left of the subject. *)
Lemma replace_from_fuel (r : regex)
    (f : jsstring -> list (nat * jsstring) -> jsstring) :
  forall fuel s,
    (length (after s) < fuel)%nat ->
    replace_from (S fuel) r f s = replace_from fuel r f s.
Proof.
  induction fuel as [|n IH]; intros s Hlt; [lia|].
  change (replace_from (S (S n)) r f s) with
    (match match_here r s with
     | Some e =>
         let out := f (consumed s e) (caps e) in
         if Nat.ltb (length (after e)) (length (after s))
         then out ++ replace_from (S n) r f e
         else match after s with
              | [] => out
              | c :: _ => out ++ c :: replace_from (S n) r f (advance s)
              end
     | None =>
         match after s with
         | [] => []
         | c :: _ => c :: replace_from (S n) r f (advance s)
         end
     end).
  change (replace_from (S n) r f s) with
    (match match_here r s with
     | Some e =>
         let out := f (consumed s e) (caps e) in
         if Nat.ltb (length (after e)) (length (after s))
         then out ++ replace_from n r f e
         else match after s with
              | [] => out
              | c :: _ => out ++ c :: replace_from n r f (advance s)
              end
     | None =>
         match after s with
         | [] => []
         | c :: _ => c :: replace_from n r f (advance s)
         end
     end).
  assert (Hadv : forall c t, after s = c :: t ->
            replace_from (S n) r f (advance s)
            = replace_from n r f (advance s)).
  { intros c t E. apply IH. unfold advance. rewrite E. simpl.
    rewrite E in Hlt. simpl in Hlt. lia. }
  destruct (match_here r s) as [e|].
  - cbv zeta. destruct (Nat.ltb _ _) eqn:L.
    + apply Nat.ltb_lt in L. rewrite IH by lia. reflexivity.
    + destruct (after s) as [|c t] eqn:E; [reflexivity|].
      now rewrite (Hadv c t).
  - destruct (after s) as [|c t] eqn:E; [reflexivity|].
    now rewrite (Hadv c t).
Qed.

(** ** The two formatters and the typing animation *)

Arguments formatMessage : simpl never.
Arguments formatMessageIncremental : simpl never.

Lemma firstn_snoc {A} (l : list A) (i : nat) (x : A) :
  nth_error l i = Some x -> firstn i l ++ [x] = firstn (S i) l.
Proof.
  revert i; induction l as [|y l IH]; intros [|i] H; simpl in *; try easy.
  - now inversion H.
  - f_equal; auto.
Qed.

(** One step of the animation reveals exactly the next code unit. *)
Lemma typeChar_reveals (content_ : jsstring) (t : typing) :
  (index t < length content_)%nat ->
  rawText t = firstn (index t) content_ ->
  let t' := typeChar content_ t in
  index t' = S (index t) /\
  rawText t' = firstn (S (index t)) content_ /\
  bubbleHtml t' = formatMessageIncremental (firstn (S (index t)) content_) /\
  contentHtml t' = contentHtml t /\
  footer t' = footer t.
Proof.
  intros Hlt Hraw; unfold typeChar.
  apply Nat.ltb_lt in Hlt as Hb; rewrite Hb.
  destruct (nth_error content_ (index t)) as [c|] eqn:E.
  - simpl. rewrite Hraw, (@firstn_snoc _ _ _ _ E). repeat split; reflexivity.
  - apply nth_error_None in E. lia.
Qed.

Lemma typeChar_finishes (content_ : jsstring) (t : typing) :
  index t = length content_ ->
  typeChar content_ t =
  Typing (rawText t) (index t) (bubbleHtml t) false
         (Some (formatMessage content_)) (timers t).
Proof.
  intros H; unfold typeChar. rewrite H, Nat.ltb_irrefl. reflexivity.
Qed.

(** With enough timer ticks the loop reveals the whole text, leaves in the
    bubble the incremental rendering of the whole text (when at least one
    unit was still to be revealed) and makes the final pass. *)
Lemma type_loop_completes (content_ : jsstring) :
  forall (fuel : nat) (t : typing),
    (index t <= length content_)%nat ->
    rawText t = firstn (index t) content_ ->
    contentHtml t = None ->
    (length content_ - index t < fuel)%nat ->
    let r := type_loop fuel content_ t in
    rawText r = content_ /\
    index r = length content_ /\
    contentHtml r = Some (formatMessage content_) /\
    footer r = false /\
    bubbleHtml r = (if Nat.ltb (index t) (length content_)
                    then formatMessageIncremental content_
                    else bubbleHtml t).
Proof.
  induction fuel as [|fuel IH]; intros t Hle Hraw Hnone Hfuel; [lia|].
  simpl.
  destruct (Nat.eq_dec (index t) (length content_)) as [Heq|Hne].
  - rewrite (@typeChar_finishes content_ t Heq); simpl.
    rewrite Hraw, Heq, firstn_all, Nat.ltb_irrefl. repeat split; reflexivity.
  - assert (Hlt : (index t < length content_)%nat) by lia.
    destruct (@typeChar_reveals content_ t Hlt Hraw)
      as (Hi & Hr & Hb & Hc & _).
    rewrite Hc, Hnone.
    specialize (IH (typeChar content_ t)).
    rewrite Hi, Hr, Hc in IH.
    destruct (IH ltac:(lia) eq_refl Hnone ltac:(lia))
      as (R1 & R2 & R3 & R4 & R5).
    repeat split; try assumption.
    rewrite R5. apply Nat.ltb_lt in Hlt as ->.
    destruct (Nat.ltb (S (index t)) (length content_)) eqn:E; [reflexivity|].
    rewrite Hb. apply Nat.ltb_ge in E.
    replace (S (index t)) with (length content_) by lia.
    now rewrite firstn_all.
Qed.

(** The two formatters are the same chain of replacements. *)
Lemma same_pipeline (content_ : jsstring) :
  formatMessageIncremental content_ = formatMessage content_.
Proof.
  unfold formatMessageIncremental, formatMessage; cbv zeta. reflexivity.
Qed.

(** C1.  For every reply text the incremental formatter and the full
    formatter give the same string; the animation reveals every code unit
    of the reply ([rawText] ends equal to the reply), the last incremental
    rendering put in the bubble is the rendering of the final pass (for a
    reply with at least one unit; for the empty reply nothing is revealed
    and the bubble stays empty), and the final pass is made. *)
Theorem incremental_format_agrees_with_full_format (content_ : jsstring) :
  formatMessageIncremental content_ = formatMessage content_ /\
  rawText (typeMessage content_) = content_ /\
  contentHtml (typeMessage content_) = Some (formatMessage content_) /\
  bubbleHtml (typeMessage content_) =
    match content_ with
    | [] => []
    | _ :: _ => formatMessage content_
    end.
Proof.
  split; [apply same_pipeline|].
  assert (H0 : (index typing_start <= length content_)%nat)
    by (unfold typing_start, index; lia).
  assert (H1 : rawText typing_start = firstn (index typing_start) content_)
    by reflexivity.
  assert (H2 : contentHtml typing_start = None) by reflexivity.
  assert (H3 : (length content_ - index typing_start
                < S (length content_))%nat) by lia.
  destruct (@type_loop_completes content_ (S (length content_)) typing_start
              H0 H1 H2 H3) as (R1 & _ & R3 & _ & R5).
  fold (typeMessage content_) in R1, R3, R5.
  split; [exact R1|]. split; [exact R3|].
  rewrite R5. destruct content_ as [|c rest].
  - reflexivity.
  - change (Nat.ltb (index typing_start) (length (c :: rest))) with true.
    cbv iota. apply same_pipeline.
Qed.

(** ** The displayed address *)

(** C10.  Whatever the URL parser answers (also when it throws and the
    fallback branch is taken), the text returned by [truncateUrl] has at
    most 40 code units. *)
Theorem truncateUrl_at_most_40
    (URL_parse : jsstring -> option url_parts) (url_ : jsstring) :
  (length (truncateUrl URL_parse url_) <= 40)%nat.
Proof.
  unfold truncateUrl.
  destruct (truthy url_); cbn [negb]; [|cbn; lia].
  destruct (URL_parse url_) as [parsed|]; cbv zeta.
  - destruct (Nat.ltb 40 (length (hostname parsed ++ pathname parsed))) eqn:E.
    + rewrite length_app.
      pose proof (js_substring_length_le 0 37
                    (hostname parsed ++ pathname parsed) ltac:(lia)).
      change (length (lit "...")) with 3%nat. lia.
    + apply Nat.ltb_ge in E. exact E.
  - pose proof (js_substring_length_le 0 40 url_ ltac:(lia)). lia.
Qed.

(** ** The history kept by the panel *)

Lemma push_exchange_bounded (u r : jsstring) (h : list message) :
  (length (push_exchange u r h) <= 20)%nat.
Proof.
  unfold push_exchange.
  destruct (Nat.ltb 20 _) eqn:E.
  - rewrite (js_slice_last 20) by lia. rewrite length_skipn.
    apply Nat.ltb_lt in E. lia.
  - apply Nat.ltb_ge in E. exact E.
Qed.

Lemma push_exchange_suffix (u r : jsstring) (h : list message) :
  exists dropped,
    h ++ [Message (lit "user") u; Message (lit "assistant") r]
    = dropped ++ push_exchange u r h.
Proof.
  unfold push_exchange.
  replace ((h ++ [Message (lit "user") u]) ++ [Message (lit "assistant") r])
    with (h ++ [Message (lit "user") u; Message (lit "assistant") r])
    by (rewrite <- app_assoc; reflexivity).
  destruct (Nat.ltb 20 _).
  - rewrite (js_slice_last 20) by lia.
    eexists. symmetry. apply firstn_skipn.
  - exists []. reflexivity.
Qed.

Arguments typeMessage : simpl never.
Arguments trim : simpl never.
Arguments escapeHtml : simpl never.
Arguments num_to_string : simpl never.
Arguments replace_all : simpl never.
Arguments user_content : simpl never.
Arguments display_message : simpl never.

(** The [catch] block of a storage call leaves the variables of the
    script as they are. *)
Lemma storage_catch_history (msg : jsstring) (st : panel) :
  conversationHistory (storage_catch msg st) = conversationHistory st.
Proof. unfold storage_catch. destruct (includes _ _); reflexivity. Qed.

Lemma storage_catch_saved (msg : jsstring) (st : panel) :
  savedChats (storage_catch msg st) = savedChats st.
Proof. unfold storage_catch. destruct (includes _ _); reflexivity. Qed.

Lemma storage_catch_chatId (msg : jsstring) (st : panel) :
  currentChatId (storage_catch msg st) = currentChatId st.
Proof. unfold storage_catch. destruct (includes _ _); reflexivity. Qed.

Lemma storage_catch_persisted (msg : jsstring) (st : panel) :
  persisted (storage_catch msg st) = persisted st.
Proof. unfold storage_catch. destruct (includes _ _); reflexivity. Qed.

Lemma with_loading_history (b : bool) (st : panel) :
  conversationHistory (with_loading b st) = conversationHistory st.
Proof. reflexivity. Qed.

Lemma with_loading_saved (b : bool) (st : panel) :
  savedChats (with_loading b st) = savedChats st.
Proof. reflexivity. Qed.

Lemma with_loading_chatId (b : bool) (st : panel) :
  currentChatId (with_loading b st) = currentChatId st.
Proof. reflexivity. Qed.

Section PanelFacts.

Variable toLocaleDateString : Z -> jsstring.
Variable today : Z.

Lemma renderChatsList_history (st : panel) :
  conversationHistory (renderChatsList toLocaleDateString today st)
  = conversationHistory st.
Proof. unfold renderChatsList; destruct (savedChats st); reflexivity. Qed.

Lemma renderChatsList_chatId (st : panel) :
  currentChatId (renderChatsList toLocaleDateString today st)
  = currentChatId st.
Proof. unfold renderChatsList; destruct (savedChats st); reflexivity. Qed.

Lemma saveCurrentChat_history (now : nat -> Z) (storage : storage_result)
    (st : panel) :
  conversationHistory
    (saveCurrentChat toLocaleDateString today now storage st)
  = conversationHistory st.
Proof.
  unfold saveCurrentChat.
  destruct (conversationHistory st) as [|m h] eqn:E; [exact E|].
  cbv zeta.
  destruct (currentChatId st) as [c|]; [destruct (truthy c)|];
    destruct storage;
    rewrite ?renderChatsList_history, ?storage_catch_history; exact E.
Qed.

Lemma addMessage_history (ty c : jsstring) (f : option jsstring) (st : panel) :
  conversationHistory (addMessage ty c f st) = conversationHistory st.
Proof. reflexivity. Qed.

Lemma typed_out_history (i c : jsstring) (st : panel) :
  conversationHistory (typed_out i c st) = conversationHistory st.
Proof.
  unfold typed_out. destruct (bodyReplaced st); [reflexivity|].
  destruct (contentHtml _); reflexivity.
Qed.

(** What a successful exchange leaves in the history. *)
Lemma sendMessage_history (key : bool) (response : jsstring)
    (clock : nat -> Z) (storage : storage_result) (st : panel) :
  sends key st = true ->
  conversationHistory
    (sendMessage toLocaleDateString today key (ReplyOk response) clock
                 storage st)
  = push_exchange (content (sent_turn st)) response (conversationHistory st).
Proof.
  unfold sends, sendMessage, sent_turn. intros H.
  apply andb_true_iff in H as [Hg Hk]. apply negb_true_iff in Hg.
  cbv zeta. rewrite Hg, Hk. cbn [negb].
  rewrite with_loading_history, saveCurrentChat_history, typed_out_history.
  reflexivity.
Qed.

End PanelFacts.

(** C2.  Whenever [sendMessage] goes through with a successful reply, the
    history it keeps has at most 20 entries, and it is what remains of the
    old history followed by the new user turn and the assistant turn after
    a front part (the oldest entries) is dropped. *)
Theorem sendMessage_keeps_newest_20
    (toLocaleDateString : Z -> jsstring) (today : Z) (key : bool)
    (response : jsstring) (clock : nat -> Z)
    (storage : storage_result) (st : panel) :
  sends key st = true ->
  let st' := sendMessage toLocaleDateString today key (ReplyOk response)
                         clock storage st in
  (length (conversationHistory st') <= 20)%nat /\
  exists dropped,
    conversationHistory st
      ++ [sent_turn st; Message (lit "assistant") response]
    = dropped ++ conversationHistory st'.
Proof.
  intros H st'; subst st'.
  rewrite (sendMessage_history toLocaleDateString today key response clock
             storage st H).
  split; [apply push_exchange_bounded|apply push_exchange_suffix].
Qed.

Lemma sendMessage_keeps_newest_20_witness :
  let st := with_history (repeat (Message (lit "user") (lit "q")) 20)
              (with_input (lit " next question ") panel_start) in
  let st' := sendMessage (fun _ => []) 0%Z true (ReplyOk (lit "answer"))
                         (fun _ => 1700000000000%Z) StorageOk st in
  (length (conversationHistory st') <= 20)%nat /\
  exists dropped,
    conversationHistory st
      ++ [sent_turn st; Message (lit "assistant") (lit "answer")]
    = dropped ++ conversationHistory st'.
Proof.
  apply (sendMessage_keeps_newest_20 (fun _ => []) 0%Z true (lit "answer")
           (fun _ => 1700000000000%Z) StorageOk).
  vm_compute. reflexivity.
Defined.

(** ** The order of the thread list *)

Lemma insert_by_perm {A : Type} (compare : A -> A -> Z) (x : A) (l : list A) :
  Permutation (insert_by compare x l) (x :: l).
Proof.
  induction l as [|y l IH]; simpl; [apply Permutation_refl|].
  destruct (compare x y <=? 0)%Z; [apply Permutation_refl|].
  apply perm_trans with (y :: x :: l); [now apply perm_skip|apply perm_swap].
Qed.

Lemma sort_by_perm {A : Type} (compare : A -> A -> Z) (l : list A) :
  Permutation (sort_by compare l) l.
Proof.
  induction l as [|x l IH]; simpl; [apply perm_nil|].
  eapply perm_trans; [apply insert_by_perm|now apply perm_skip].
Qed.

Lemma newer_first_trans (a b c : chat) :
  newer_first a b -> newer_first b c -> newer_first a c.
Proof. unfold newer_first; lia. Qed.

Lemma insert_by_update_sorted (x : chat) (l : list chat) :
  StronglySorted newer_first l ->
  StronglySorted newer_first (insert_by by_update x l).
Proof.
  induction 1 as [|y l Hs IH Hall]; simpl.
  - constructor; constructor.
  - unfold by_update at 1.
    destruct (updatedAt y - updatedAt x <=? 0)%Z eqn:E.
    + apply Z.leb_le in E.
      assert (Hxy : newer_first x y) by (unfold newer_first; lia).
      constructor; [constructor; assumption|].
      constructor; [exact Hxy|].
      eapply Forall_impl; [|exact Hall].
      intros c Hc; exact (newer_first_trans x y c Hxy Hc).
    + apply Z.leb_gt in E.
      constructor; [exact IH|].
      apply (Permutation_Forall (Permutation_sym (insert_by_perm by_update x l))).
      constructor; [unfold newer_first; lia|exact Hall].
Qed.

Lemma sort_by_update_sorted (l : list chat) :
  StronglySorted newer_first (sort_by by_update l).
Proof.
  induction l as [|x l IH]; simpl; [constructor|].
  now apply insert_by_update_sorted.
Qed.

(** C6.  For every list of saved threads, the rendered list shows the
    threads most recently updated first: the order of the shown threads is
    non-increasing in the update time, the shown threads are the saved ones
    (a rearrangement of them), and the entries of the list are made from
    them in that order. *)
Theorem renderChatsList_most_recent_first
    (toLocaleDateString : Z -> jsstring) (today : Z) (st : panel) :
  StronglySorted newer_first (rendered_chats toLocaleDateString today st) /\
  Permutation (rendered_chats toLocaleDateString today st) (savedChats st) /\
  chatsList (renderChatsList toLocaleDateString today st) =
    match savedChats st with
    | [] => NoChats
    | _ :: _ =>
        Items (map (render_item toLocaleDateString today)
                   (rendered_chats toLocaleDateString today st))
    end.
Proof.
  unfold rendered_chats, renderChatsList.
  destruct (savedChats st) as [|c l] eqn:E.
  - cbn. rewrite E. repeat split; constructor.
  - cbn [savedChats with_chatsList with_savedChats chatsList].
    repeat split; [apply sort_by_update_sorted|apply sort_by_perm].
Qed.

(** ** Saving and loading a thread *)

Lemma find_by_id_unique (l : list chat) (c : chat) :
  NoDup (ids l) -> In c l ->
  find (fun x => str_eqb (id x) (id c)) l = Some c.
Proof.
  unfold ids. induction l as [|a l IH]; simpl; intros Hnd Hin; [easy|].
  inversion Hnd as [|? ? Hnotin Hnd']; subst.
  destruct Hin as [->|Hin].
  - now rewrite str_eqb_refl.
  - destruct (str_eqb (id a) (id c)) eqn:E; [|auto].
    apply str_eqb_eq in E. exfalso; apply Hnotin.
    rewrite E. now apply in_map.
Qed.

Lemma update_chat_ids (cid : jsstring) (turns : list message) (t : Z)
    (l : list chat) :
  ids (update_chat cid turns t l) = ids l.
Proof.
  unfold ids. induction l as [|c l IH]; simpl; [reflexivity|].
  destruct (str_eqb (id c) cid); simpl; [reflexivity|now rewrite IH].
Qed.

Lemma update_chat_holds (cid : jsstring) (turns : list message) (t : Z)
    (l : list chat) :
  In cid (ids l) ->
  exists c, In c (update_chat cid turns t l)
            /\ id c = cid /\ messages c = turns /\ updatedAt c = t.
Proof.
  unfold ids. induction l as [|c l IH]; simpl; [easy|].
  intros Hin. destruct (str_eqb (id c) cid) eqn:E.
  - apply str_eqb_eq in E. eexists; split; [left; reflexivity|].
    simpl; auto.
  - destruct Hin as [Hc|Hin].
    + apply str_eqb_neq in E; contradiction.
    + destruct (IH Hin) as (c' & Hc' & R). exists c'; split; [now right|exact R].
Qed.

Lemma fold_addMessage_keeps (l : list message) (acc : panel) :
  let r := fold_left
             (fun acc msg =>
                addMessage (if str_eqb (role msg) (lit "user")
                            then lit "user" else lit "assistant")
                           (content msg) None acc) l acc in
  conversationHistory r = conversationHistory acc /\
  currentChatId r = currentChatId acc /\
  savedChats r = savedChats acc.
Proof.
  revert acc; induction l as [|m l IH]; intros acc; cbn [fold_left];
    [auto|].
  destruct (IH (addMessage (if str_eqb (role m) (lit "user")
                            then lit "user" else lit "assistant")
                           (content m) None acc)) as (H1 & H2 & H3).
  cbv zeta. rewrite H1, H2, H3. repeat split; reflexivity.
Qed.

(** Loading a thread that is found puts its turns in the history. *)
Lemma loadChat_found (chatId : jsstring) (st : panel) (c : chat) :
  find (fun x => str_eqb (id x) chatId) (savedChats st) = Some c ->
  conversationHistory (loadChat chatId st) = messages c /\
  currentChatId (loadChat chatId st) = Some chatId.
Proof.
  intros H; unfold loadChat; rewrite H.
  match goal with
  | |- context [fold_left ?f ?l ?a] =>
      destruct (fold_addMessage_keeps l a) as (H1 & H2 & _)
  end.
  cbv zeta in H1, H2. rewrite H1, H2. split; reflexivity.
Qed.

Section SaveFacts.

Variable toLocaleDateString : Z -> jsstring.
Variable today : Z.

Lemma renderChatsList_saved (st : panel) :
  Permutation (savedChats (renderChatsList toLocaleDateString today st))
              (savedChats st).
Proof.
  unfold renderChatsList. destruct (savedChats st) as [|c l] eqn:E.
  - cbn. rewrite E. constructor.
  - cbn. apply (sort_by_perm by_update (c :: l)).
Qed.

(** After [saveCurrentChat] the current identifier is the one the
    conversation is filed under, and when that identifier was available
    the saved threads have distinct identifiers and hold under it a thread
    with the turns of the conversation. *)
Lemma saveCurrentChat_files (now : nat -> Z) (storage : storage_result)
    (st : panel) :
  conversationHistory st <> [] ->
  NoDup (ids (savedChats st)) ->
  id_available now st ->
  let st' := saveCurrentChat toLocaleDateString today now storage st in
  currentChatId st' = Some (filed_under now st) /\
  NoDup (ids (savedChats st')) /\
  exists c, In c (savedChats st') /\ id c = filed_under now st
            /\ messages c = conversationHistory st.
Proof.
  intros Hne Hnd Hav. unfold saveCurrentChat.
  destruct (conversationHistory st) as [|m h] eqn:EH; [contradiction|].
  cbv zeta. rewrite <- EH. clear Hne.
  fold (new_id now).
  set (updated cid := with_savedChats
         (update_chat cid (conversationHistory st) (now 0%nat)
                      (savedChats st)) st).
  match goal with
  | |- context [with_savedChats ?l (with_chatId (Some (new_id now)) st)] =>
      set (created := with_savedChats l (with_chatId (Some (new_id now)) st))
  end.
  assert (Hupd : forall cid, In cid (ids (savedChats st)) ->
            currentChatId st = Some cid ->
            currentChatId (updated cid) = Some cid /\
            NoDup (ids (savedChats (updated cid))) /\
            exists c, In c (savedChats (updated cid)) /\ id c = cid
                      /\ messages c = conversationHistory st).
  { intros cid Hin Hcur. unfold updated; cbn. split; [exact Hcur|].
    rewrite update_chat_ids. split; [exact Hnd|].
    destruct (update_chat_holds cid (conversationHistory st) (now 0%nat)
                (savedChats st) Hin) as (c & Hc & Hi & Hm & _).
    exists c; auto. }
  assert (Hcre : ~ In (new_id now) (ids (savedChats st)) ->
            currentChatId created = Some (new_id now) /\
            NoDup (ids (savedChats created)) /\
            exists c, In c (savedChats created) /\ id c = new_id now
                      /\ messages c = conversationHistory st).
  { intros Hfresh. unfold created; cbn. split; [reflexivity|]. split.
    - unfold ids. rewrite map_app. cbn.
      apply (Permutation_NoDup (l := new_id now :: map id (savedChats st))).
      + apply Permutation_cons_append.
      + constructor; assumption.
    - eexists; split; [apply in_or_app; right; left; reflexivity|].
      cbn; auto. }
  assert (Hfinish : forall st1 cid,
            currentChatId st1 = Some cid /\
            NoDup (ids (savedChats st1)) /\
            (exists c, In c (savedChats st1) /\ id c = cid
                       /\ messages c = conversationHistory st) ->
            let r := match storage with
                     | StorageOk =>
                         renderChatsList toLocaleDateString today
                                         (storage_set st1)
                     | StorageError msg => storage_catch msg st1
                     end in
            currentChatId r = Some cid /\
            NoDup (ids (savedChats r)) /\
            exists c, In c (savedChats r) /\ id c = cid
                      /\ messages c = conversationHistory st).
  { intros st1 cid (H1 & H2 & c & H3 & H4). destruct storage; cbv zeta;
      [|rewrite storage_catch_chatId, storage_catch_saved; eauto].
    pose proof (renderChatsList_saved (storage_set st1)) as P.
    change (savedChats (storage_set st1)) with (savedChats st1) in P.
    rewrite renderChatsList_chatId. split; [exact H1|]. split.
    - unfold ids.
      apply (Permutation_NoDup (l := map id (savedChats st1)));
        [apply Permutation_map, Permutation_sym, P|exact H2].
    - exists c. split; [|exact H4].
      apply (Permutation_in c (Permutation_sym P) H3). }
  unfold id_available, filed_under in *.
  destruct (currentChatId st) as [cid|] eqn:EC.
  - destruct (truthy cid).
    + apply Hfinish, Hupd; [exact Hav|reflexivity].
    + apply Hfinish, Hcre, Hav.
  - apply Hfinish, Hcre, Hav.
Qed.

End SaveFacts.

(** ** The panel keeps its threads well identified *)

Lemma panel_start_ok : panel_ok panel_start.
Proof. repeat split; constructor. Qed.

(** In such a state the identifier a conversation is filed under is
    available as soon as the clock gives a new one. *)
Lemma panel_ok_id_available (now : nat -> Z) (st : panel) :
  panel_ok st ->
  ~ In (new_id now) (ids (savedChats st)) ->
  id_available now st.
Proof.
  intros (_ & Hall & Hcur) Hnew. unfold id_available.
  destruct (currentChatId st) as [cid|]; [|exact Hnew].
  rewrite Forall_forall in Hall. now rewrite (Hall cid Hcur).
Qed.

Lemma new_id_truthy (now : nat -> Z) : truthy (new_id now) = true.
Proof. reflexivity. Qed.

Lemma ids_filter_in (f : chat -> bool) (l : list chat) (i : jsstring) :
  In i (ids (filter f l)) -> In i (ids l).
Proof.
  unfold ids. intros H. apply in_map_iff in H as (c & Hc & Hin).
  apply filter_In in Hin as [Hin _]. apply in_map_iff. eauto.
Qed.

Lemma ids_filter_nodup (f : chat -> bool) (l : list chat) :
  NoDup (ids l) -> NoDup (ids (filter f l)).
Proof.
  induction l as [|c l IH]; simpl; intros H; [constructor|].
  inversion H as [|? ? Hnotin Hnd]; subst.
  destruct (f c); simpl; [|auto].
  constructor; [|auto].
  intros Hin. apply Hnotin. now apply (ids_filter_in f).
Qed.

Section Invariant.

Variable toLocaleDateString : Z -> jsstring.
Variable today : Z.

Lemma renderChatsList_ok (st : panel) :
  panel_ok st -> panel_ok (renderChatsList toLocaleDateString today st).
Proof.
  intros (Hnd & Hall & Hcur).
  pose proof (renderChatsList_saved toLocaleDateString today st) as P.
  assert (Pi : Permutation
                 (ids (savedChats (renderChatsList toLocaleDateString today st)))
                 (ids (savedChats st)))
    by (apply Permutation_map, P).
  unfold panel_ok. rewrite renderChatsList_chatId.
  split; [exact (Permutation_NoDup (Permutation_sym Pi) Hnd)|].
  split; [exact (Permutation_Forall (Permutation_sym Pi) Hall)|].
  destruct (currentChatId st) as [cid|]; [|exact I].
  exact (Permutation_in cid (Permutation_sym Pi) Hcur).
Qed.

Lemma saveCurrentChat_ok (now : nat -> Z) (storage : storage_result)
    (st : panel) :
  panel_ok st ->
  ~ In (new_id now) (ids (savedChats st)) ->
  panel_ok (saveCurrentChat toLocaleDateString today now storage st).
Proof.
  intros Hok Hnew. unfold saveCurrentChat.
  destruct (conversationHistory st) as [|m h] eqn:EH; [exact Hok|].
  cbv zeta. rewrite <- EH.
  fold (new_id now).
  assert (Hfinish : forall st1, panel_ok st1 ->
            panel_ok (match storage with
                      | StorageOk =>
                          renderChatsList toLocaleDateString today
                                          (storage_set st1)
                      | StorageError msg => storage_catch msg st1
                      end)).
  { intros st1 H1. destruct storage.
    - apply renderChatsList_ok. exact H1.
    - unfold panel_ok.
      rewrite storage_catch_chatId, storage_catch_saved. exact H1. }
  destruct Hok as (Hnd & Hall & Hcur).
  assert (Hcreate : panel_ok
            (with_savedChats
               (savedChats st ++
                [Chat (new_id now)
                   (or_else
                      (trim (replace_all re_attached []
                         (opt_or
                            (option_map
                               (fun m0 => js_slice 0 (Some 50%Z) (content m0))
                               (find (fun m0 => str_eqb (role m0) (lit "user"))
                                     (conversationHistory st)))
                            (lit "New Chat"))))
                      (lit "New Chat"))
                   (conversationHistory st) (now 1%nat) (now 2%nat)])
               (with_chatId (Some (new_id now)) st))).
  { unfold panel_ok; cbn [savedChats currentChatId with_savedChats with_chatId].
    unfold ids in *. rewrite map_app. cbn [map id].
    split; [|split].
    - apply (Permutation_NoDup (l := new_id now :: map id (savedChats st)));
        [apply Permutation_cons_append|now constructor].
    - apply Forall_app; split; [exact Hall|].
      constructor; [apply new_id_truthy|constructor].
    - apply in_or_app; right; left; reflexivity. }
  destruct (currentChatId st) as [cid|] eqn:EC.
  - destruct (truthy cid).
    + apply Hfinish. unfold panel_ok.
      cbn [savedChats currentChatId with_savedChats].
      rewrite update_chat_ids, EC. auto.
    + apply Hfinish, Hcreate.
  - apply Hfinish, Hcreate.
Qed.

Lemma loadChat_ok (chatId : jsstring) (st : panel) :
  panel_ok st -> panel_ok (loadChat chatId st).
Proof.
  intros Hok. unfold loadChat.
  destruct (find _ (savedChats st)) as [c|] eqn:E; [|exact Hok].
  apply find_some in E as [Hin Heq]. apply str_eqb_eq in Heq.
  match goal with
  | |- panel_ok (fold_left ?f ?l ?a) =>
      destruct (fold_addMessage_keeps l a) as (_ & H2 & H3)
  end.
  cbv zeta in H2, H3. unfold panel_ok. rewrite H2, H3.
  destruct Hok as (Hnd & Hall & _).
  cbn [savedChats currentChatId with_welcome with_shown with_history
       with_chatId].
  split; [exact Hnd|]. split; [exact Hall|].
  unfold ids. rewrite <- Heq. now apply in_map.
Qed.

Lemma startNewChat_ok (st : panel) :
  panel_ok st -> panel_ok (startNewChat st).
Proof. intros (Hnd & Hall & _). repeat split; assumption. Qed.

(** [deleteChat] keeps the panel in such a state when the storage call
    succeeds. *)
Lemma deleteChat_ok (chatId : jsstring) (st : panel) :
  panel_ok st ->
  panel_ok (deleteChat toLocaleDateString today StorageOk chatId st).
Proof.
  intros (Hnd & Hall & Hcur). unfold deleteChat; cbv zeta.
  apply renderChatsList_ok.
  set (kept := filter (fun c => negb (str_eqb (id c) chatId)) (savedChats st)).
  assert (Hk : NoDup (ids kept) /\
               Forall (fun i => truthy i = true) (ids kept)).
  { split; [now apply ids_filter_nodup|].
    rewrite Forall_forall in *. intros i Hi.
    apply Hall. now apply (ids_filter_in _ _ _ Hi). }
  destruct Hk as [Hk1 Hk2].
  cbn [currentChatId storage_set with_persisted with_savedChats].
  destruct (opt_str_eqb (currentChatId st) chatId) eqn:E.
  - repeat split; assumption.
  - unfold panel_ok, storage_set.
    cbn [savedChats currentChatId with_persisted with_savedChats].
    split; [exact Hk1|]. split; [exact Hk2|].
    destruct (currentChatId st) as [cid|]; [|exact I].
    simpl in E. unfold ids in *. apply in_map_iff in Hcur as (c & Hc & Hin).
    apply in_map_iff. exists c. split; [exact Hc|].
    apply filter_In. split; [exact Hin|]. now rewrite Hc, E.
Qed.

End Invariant.

(** In a panel whose saved threads have distinct identifiers, and whose
    current identifier names one of them or, when it is made from the
    clock, is new: after [saveCurrentChat] of a non-empty conversation
    the conversation has an identifier, and loading the thread with that
    identifier, from any later state of the panel that holds the same
    saved threads, puts back in the history exactly the turns of the
    saved conversation, in the same order. *)
Lemma save_then_load_same_turns
    (toLocaleDateString : Z -> jsstring) (today : Z) (now : nat -> Z)
    (storage : storage_result) (st : panel) :
  conversationHistory st <> [] ->
  NoDup (ids (savedChats st)) ->
  id_available now st ->
  let st' := saveCurrentChat toLocaleDateString today now storage st in
  currentChatId st' = Some (filed_under now st) /\
  forall later : panel,
    savedChats later = savedChats st' ->
    conversationHistory (loadChat (filed_under now st) later)
    = conversationHistory st.
Proof.
  intros Hne Hnd Hav st'.
  destruct (saveCurrentChat_files toLocaleDateString today now storage st
              Hne Hnd Hav) as (Hcur & Hnd' & c & Hin & Hid & Hmsg).
  fold st' in Hcur, Hnd', Hin.
  split; [exact Hcur|].
  intros later Hsame.
  pose proof (find_by_id_unique (savedChats st') c Hnd' Hin) as Hfind.
  rewrite Hid, <- Hsame in Hfind.
  destruct (loadChat_found _ later c Hfind) as [H _].
  now rewrite H.
Qed.

(** C3, at the failing input.  The user exchanges a message, which is
    saved as a thread; deletes that thread while the storage call is
    rejected; and exchanges another message, with a storage call that
    succeeds.  The conversation then has four turns and still carries the
    identifier of the deleted thread.  [saveCurrentChat] finds no thread
    with that identifier and saves none: no saved thread and no stored
    thread holds the turns, and [loadChat] with the identifier of the
    conversation, from the panel as a new chat leaves it, finds nothing
    and puts back no turn. *)
Theorem save_then_load_loses_turns_after_rejected_delete :
  let cid := lit "chat-1700000000000" in
  let events :=
    [Send (lit "hello") None true (ReplyOk (lit "hi"))
          (fun _ => 1700000000000%Z) StorageOk;
     Delete cid (StorageError (lit "QUOTA_BYTES quota exceeded"));
     Send (lit "more") None true (ReplyOk (lit "sure"))
          (fun _ => 1700000060000%Z) StorageOk] in
  let st := panel_run (fun _ => []) 0%Z panel_start events in
  let st' := saveCurrentChat (fun _ => []) 0%Z (fun _ => 1700000120000%Z)
                             StorageOk st in
  conversationHistory st
  = [Message (lit "user") (lit "hello");
     Message (lit "assistant") (lit "hi");
     Message (lit "user") (lit "more");
     Message (lit "assistant") (lit "sure")] /\
  currentChatId st = Some cid /\
  currentChatId st' = Some cid /\
  savedChats st' = [] /\
  persisted st' = [] /\
  loadChat cid (startNewChat st') = startNewChat st' /\
  conversationHistory (loadChat cid (startNewChat st')) = [].
Proof. vm_compute. repeat split. Qed.

(** The round trip also fails when the clock gives an identifier that a
    saved thread has already: the new thread is filed behind the old one
    and [loadChat] finds the old one. *)
Lemma save_then_load_clock_collision :
  let turns := [Message (lit "user") (lit "new question")] in
  let old := Chat (lit "chat-17") (lit "Earlier")
                  [Message (lit "user") (lit "old question")] 17%Z 17%Z in
  let st := with_savedChats [old] (with_history turns panel_start) in
  let st' := saveCurrentChat (fun _ => []) 0%Z (fun _ => 17%Z) StorageOk st in
  currentChatId st' = Some (lit "chat-17") /\
  conversationHistory (loadChat (lit "chat-17") st')
  = [Message (lit "user") (lit "old question")].
Proof. vm_compute. split; reflexivity. Qed.

(** ** Deleting a thread *)

Section DeleteFacts.

Variable toLocaleDateString : Z -> jsstring.
Variable today : Z.

Lemma startNewChat_saved (st : panel) :
  savedChats (startNewChat st) = savedChats st.
Proof. reflexivity. Qed.

Lemma deleteChat_saved (storage : storage_result) (chatId : jsstring)
    (st : panel) :
  Permutation
    (savedChats (deleteChat toLocaleDateString today storage chatId st))
    (filter (fun c => negb (str_eqb (id c) chatId)) (savedChats st)).
Proof.
  unfold deleteChat; cbv zeta.
  destruct storage; [|rewrite storage_catch_saved; apply Permutation_refl].
  eapply perm_trans; [apply renderChatsList_saved|].
  destruct (opt_str_eqb _ chatId); apply Permutation_refl.
Qed.

Lemma deleteChat_conversation (storage : storage_result)
    (chatId : jsstring) (st : panel) :
  let st' := deleteChat toLocaleDateString today storage chatId st in
  conversationHistory st' =
    (if restarts storage chatId st then [] else conversationHistory st) /\
  currentChatId st' =
    (if restarts storage chatId st then None else currentChatId st).
Proof.
  unfold deleteChat, restarts; cbv zeta.
  destruct storage;
    [|rewrite storage_catch_history, storage_catch_chatId;
      split; reflexivity].
  rewrite renderChatsList_history, renderChatsList_chatId.
  change (currentChatId (storage_set
            (with_savedChats
               (filter (fun c => negb (str_eqb (id c) chatId)) (savedChats st))
               st))) with (currentChatId st).
  destruct (opt_str_eqb (currentChatId st) chatId); split; reflexivity.
Qed.

End DeleteFacts.

(** What [deleteChat] does, with either outcome of the storage call: it
    removes from the saved threads exactly those whose identifier is the
    given one; what remains is, up to the order of the list, the saved
    threads with another identifier, each as it was.  The history becomes
    empty and the current identifier is cleared exactly when the storage
    call succeeds and the deleted thread is the current one. *)
Lemma deleteChat_frame
    (toLocaleDateString : Z -> jsstring) (today : Z)
    (storage : storage_result) (chatId : jsstring) (st : panel) :
  let st' := deleteChat toLocaleDateString today storage chatId st in
  Permutation (savedChats st')
    (filter (fun c => negb (str_eqb (id c) chatId)) (savedChats st)) /\
  (forall c,
      In c (savedChats st') <-> In c (savedChats st) /\ id c <> chatId) /\
  conversationHistory st' =
    (if restarts storage chatId st then [] else conversationHistory st) /\
  currentChatId st' =
    (if restarts storage chatId st then None else currentChatId st).
Proof.
  intros st'; subst st'.
  pose proof (deleteChat_saved toLocaleDateString today storage chatId st)
    as P.
  destruct (deleteChat_conversation toLocaleDateString today storage chatId
              st) as [H1 H2].
  split; [exact P|]. split; [|split; assumption].
  intros c. split.
  - intros Hin. apply (Permutation_in c P) in Hin.
    apply filter_In in Hin as [Hin Hb]. split; [exact Hin|].
    apply negb_true_iff in Hb. now apply str_eqb_neq.
  - intros [Hin Hne]. apply (Permutation_in c (Permutation_sym P)).
    apply filter_In. split; [exact Hin|].
    apply negb_true_iff. now apply str_eqb_neq.
Qed.

(** C9, at the failing input.  The current thread is deleted while the
    storage call is rejected.  The panel was well identified; afterwards
    the thread is gone from the saved threads, yet the conversation is
    not restarted: the history and the current identifier stay, the
    current identifier names no saved thread any more, and the storage
    area still holds the thread.  With a storage call that succeeds the
    same deletion starts a new conversation. *)
Theorem deleteChat_current_storage_rejected :
  let turns := [Message (lit "user") (lit "hello");
                Message (lit "assistant") (lit "hi")] in
  let current := Chat (lit "chat-7") (lit "hello") turns 7%Z 7%Z in
  let st := with_persisted [current]
              (with_chatId (Some (lit "chat-7"))
                 (with_savedChats [current]
                    (with_history turns panel_start))) in
  let st' := deleteChat (fun _ => []) 0%Z
                        (StorageError (lit "QUOTA_BYTES quota exceeded"))
                        (lit "chat-7") st in
  let done := deleteChat (fun _ => []) 0%Z StorageOk (lit "chat-7") st in
  panel_ok st /\
  currentChatId st = Some (lit "chat-7") /\
  savedChats st' = [] /\
  persisted st' = [current] /\
  conversationHistory st' = turns /\
  currentChatId st' = Some (lit "chat-7") /\
  ~ panel_ok st' /\
  conversationHistory done = [] /\
  currentChatId done = None /\
  panel_ok done.
Proof.
  cbv zeta. split; [|split; [|split; [|split; [|split; [|split; [|split;
    [|split; [|split]]]]]]]]; try (vm_compute; reflexivity).
  - repeat split; [repeat constructor; intros []|repeat constructor
                  |left; reflexivity].
  - intros (_ & _ & H). vm_compute in H. exact H.
  - repeat split; constructor.
Qed.

(** ** The credential checks *)

(** The options page lets no credential without the prefix through:
    [fetchModels] hands nothing to the network and shows an error. *)
Lemma fetchModels_rejects_without_prefix
    (toLowerCase : jsstring -> jsstring)
    (net : request -> fetch_result (list Options.model_info))
    (cache_write model_read : storage_result) (o : Options.options) :
  starts_with (lit "sk-") (trim (Options.apiKeyField o)) = false ->
  fst (Options.fetchModels toLowerCase net cache_write model_read o) = [] /\
  exists msg,
    Options.status
      (snd (Options.fetchModels toLowerCase net cache_write model_read o))
    = Some (msg, lit "error").
Proof.
  intros H; unfold Options.fetchModels; cbv zeta.
  destruct (truthy (trim (Options.apiKeyField o))); cbn [negb].
  - rewrite H; cbn [negb fst snd]. split; [reflexivity|].
    eexists; reflexivity.
  - cbn [fst snd]. split; [reflexivity|]. eexists; reflexivity.
Qed.

(** [saveSettings] stores nothing for such a credential and shows an
    error, whatever the other fields hold. *)
Lemma saveSettings_rejects_without_prefix
    (storage_error : option jsstring) (o : Options.options) :
  starts_with (lit "sk-") (trim (Options.apiKeyField o)) = false ->
  Options.storedSettings (Options.saveSettings storage_error o)
  = Options.storedSettings o /\
  exists msg,
    Options.status (Options.saveSettings storage_error o)
    = Some (msg, lit "error").
Proof.
  intros H; unfold Options.saveSettings; cbv zeta. rewrite H.
  destruct (truthy (trim (Options.apiKeyField o))); cbn [negb andb].
  - split; [reflexivity|]. eexists; reflexivity.
  - split; [reflexivity|]. eexists; reflexivity.
Qed.

(** [callOpenAI] checks only that a credential is there. *)
Lemma callOpenAI_missing_key
    (net : request -> fetch_result (option jsstring))
    (messages_ : list message) (s : Background.settings) :
  Background.apiKey s = [] ->
  fst (Background.callOpenAI net messages_ s) = [] /\
  exists msg, snd (Background.callOpenAI net messages_ s) = Threw msg.
Proof.
  intros H; unfold Background.callOpenAI; rewrite H; cbn.
  split; [reflexivity|]. eexists; reflexivity.
Qed.

Lemma callOpenAI_sends_any_key
    (net : request -> fetch_result (option jsstring))
    (messages_ : list message) (s : Background.settings) :
  Background.apiKey s <> [] ->
  fst (Background.callOpenAI net messages_ s) =
    [Request Background.chat_endpoint (lit "POST")
             (lit "Bearer " ++ Background.apiKey s)
             (Some (ChatBody (Background.model s) messages_
                             (Background.maxTokens s) 7))].
Proof.
  intros H; unfold Background.callOpenAI.
  destruct (Background.apiKey s) as [|c k] eqn:E; [contradiction|].
  cbn [truthy negb]; cbv zeta.
  destruct (net _); reflexivity.
Qed.

(** C4 (as amended).  For every credential that, once trimmed, does not
    start with [sk-]: [fetchModels] shows an error and hands no request to
    the network; [saveSettings] shows an error and stores nothing.  The
    chat call [callOpenAI] rejects, before any request, only the missing
    (empty) credential; any credential [c :: k] that is there is sent in
    the authorization header of the request. *)
Theorem credential_without_prefix_rejected_by_options_page
    (toLowerCase : jsstring -> jsstring)
    (net_models : request -> fetch_result (list Options.model_info))
    (cache_write model_read : storage_result)
    (net_chat : request -> fetch_result (option jsstring))
    (storage_error : option jsstring) (o : Options.options)
    (messages_ : list message) (model_ prompt : jsstring) (cap : Z)
    (c : N) (k : jsstring) :
  starts_with (lit "sk-") (trim (Options.apiKeyField o)) = false ->
  (fst (Options.fetchModels toLowerCase net_models cache_write model_read o)
   = [] /\
   exists msg,
     Options.status
       (snd (Options.fetchModels toLowerCase net_models cache_write
                                 model_read o))
     = Some (msg, lit "error")) /\
  (Options.storedSettings (Options.saveSettings storage_error o)
   = Options.storedSettings o /\
   exists msg, Options.status (Options.saveSettings storage_error o)
               = Some (msg, lit "error")) /\
  (fst (Background.callOpenAI net_chat messages_
          (Background.Settings [] model_ cap prompt)) = [] /\
   exists msg, snd (Background.callOpenAI net_chat messages_
                      (Background.Settings [] model_ cap prompt))
               = Threw msg) /\
  fst (Background.callOpenAI net_chat messages_
         (Background.Settings (c :: k) model_ cap prompt)) =
    [Request Background.chat_endpoint (lit "POST")
             (lit "Bearer " ++ c :: k)
             (Some (ChatBody model_ messages_ cap 7))].
Proof.
  intros H. split; [|split; [|split]].
  - apply fetchModels_rejects_without_prefix, H.
  - apply saveSettings_rejects_without_prefix, H.
  - apply callOpenAI_missing_key. reflexivity.
  - apply (callOpenAI_sends_any_key net_chat messages_
             (Background.Settings (c :: k) model_ cap prompt)).
    discriminate.
Qed.

Lemma credential_without_prefix_rejected_by_options_page_witness :
  let o := page_with_key " pk-12345 " in
  let net_models := fun _ : request =>
                      @HttpOk (list Options.model_info) [] in
  let net_chat := fun _ : request => @HttpOk (option jsstring) None in
  let s := Background.Settings [] (lit "gpt-4o-mini") 2000%Z [] in
  let s' := Background.Settings (115%N :: lit "k-1") (lit "gpt-4o-mini")
                                2000%Z [] in
  (fst (Options.fetchModels to_lower net_models StorageOk StorageOk o)
   = [] /\
   exists msg,
     Options.status
       (snd (Options.fetchModels to_lower net_models StorageOk StorageOk o))
     = Some (msg, lit "error")) /\
  (Options.storedSettings (Options.saveSettings None o)
   = Options.storedSettings o /\
   exists msg, Options.status (Options.saveSettings None o)
               = Some (msg, lit "error")) /\
  (fst (Background.callOpenAI net_chat [] s) = [] /\
   exists msg, snd (Background.callOpenAI net_chat [] s) = Threw msg) /\
  fst (Background.callOpenAI net_chat [] s') =
    [Request Background.chat_endpoint (lit "POST")
             (lit "Bearer " ++ 115%N :: lit "k-1")
             (Some (ChatBody (lit "gpt-4o-mini") [] 2000%Z 7))].
Proof.
  apply (credential_without_prefix_rejected_by_options_page
           to_lower (fun _ => HttpOk []) StorageOk StorageOk
           (fun _ => HttpOk None) None
           (page_with_key " pk-12345 ") [] (lit "gpt-4o-mini") [] 2000%Z
           115%N (lit "k-1")).
  vm_compute. reflexivity.
Defined.

(** C4, the claim as first stated, fails for the chat call: a stored
    credential without the prefix is sent to the remote service. *)
Lemma callOpenAI_sends_credential_without_prefix :
  let s := Background.Settings (lit "pk-12345") (lit "gpt-4o-mini")
                               2000%Z [] in
  starts_with (lit "sk-") (Background.apiKey s) = false /\
  fst (Background.callOpenAI (fun _ => HttpError 401 None) [] s) =
    [Request Background.chat_endpoint (lit "POST") (lit "Bearer pk-12345")
             (Some (ChatBody (lit "gpt-4o-mini") [] 2000 7))].
Proof. vm_compute. split; reflexivity. Qed.

(** ** The context text *)

Lemma starts_with_app_l (n a b : jsstring) :
  starts_with n a = true -> starts_with n (a ++ b) = true.
Proof.
  revert a; induction n as [|x n IH]; intros [|y a]; simpl; try easy.
  intros H; apply andb_true_iff in H as [H1 H2].
  now rewrite H1, (IH a H2).
Qed.

Lemma includes_app_l (a b n : jsstring) :
  includes a n = true -> includes (a ++ b) n = true.
Proof.
  induction a as [|c a IH]; simpl.
  - rewrite orb_false_r. intros H. destruct n; [|discriminate H].
    destruct b; reflexivity.
  - intros H; apply orb_true_iff in H as [H|H].
    + pose proof (starts_with_app_l n (c :: a) b H) as H'.
      rewrite <- app_comm_cons in H'. now rewrite H'.
    + rewrite (IH H). apply orb_true_r.
Qed.

Lemma includes_app_r (a b n : jsstring) :
  includes b n = true -> includes (a ++ b) n = true.
Proof. apply includes_skip. Qed.

Lemma truthy_app_l (a b : jsstring) :
  truthy a = true -> truthy (a ++ b) = true.
Proof. destruct a; [discriminate|reflexivity]. Qed.

(** The context text is never empty. *)
Lemma formatContentForAI_not_empty (data : option Background.extracted) :
  truthy (Background.formatContentForAI data) = true.
Proof.
  destruct data as [d|]; [|reflexivity].
  unfold Background.formatContentForAI, Background.header_section.
  rewrite <- !app_assoc. apply truthy_app_l. reflexivity.
Qed.

(** C5 (as amended).  The context text is never empty.  When extraction
    returned a record whose main content is empty (in particular when no
    section was extracted) the text holds the notice
    [No content extracted]; when extraction returned nothing at all the
    text is [Unable to extract page content.]. *)
Theorem formatContentForAI_notice_when_nothing_extracted
    (data : option Background.extracted) :
  match data with
  | Some d => Background.mainContent d = []
  | None => True
  end ->
  truthy (Background.formatContentForAI data) = true /\
  match data with
  | Some _ =>
      includes (Background.formatContentForAI data)
               (lit "No content extracted") = true
  | None =>
      Background.formatContentForAI data
      = lit "Unable to extract page content."
  end.
Proof.
  intros H. split; [apply formatContentForAI_not_empty|].
  destruct data as [d|]; [|reflexivity].
  unfold Background.formatContentForAI.
  do 9 apply includes_app_r. apply includes_app_l.
  unfold Background.main_section. rewrite H.
  apply includes_app_r, includes_app_l. reflexivity.
Qed.

Lemma formatContentForAI_notice_when_nothing_extracted_witness :
  truthy (Background.formatContentForAI (Some blank_page)) = true /\
  includes (Background.formatContentForAI (Some blank_page))
           (lit "No content extracted") = true.
Proof.
  apply (formatContentForAI_notice_when_nothing_extracted (Some blank_page)).
  reflexivity.
Defined.

(** C5, the claim as first stated, fails when extraction returned nothing
    at all: the text is then another notice, which does not hold the
    words of the placeholder in either case of letters. *)
Lemma formatContentForAI_null_has_other_notice :
  Background.formatContentForAI None = lit "Unable to extract page content."
  /\ includes (to_lower (Background.formatContentForAI None))
              (lit "no content extracted") = false.
Proof. vm_compute. split; reflexivity. Qed.

(** C7.  For an extraction result whose only table has the headers Name
    and Price and the single row Widget, $10 (whatever its caption and
    origin, and whatever the other sections hold), the context text holds
    the header line [HEADERS: Name | Price] and the row line
    [ROW 1: Widget | $10]. *)
Theorem formatContentForAI_shows_table
    (d : Background.extracted) (source_ caption_ : jsstring) :
  Background.tables d = [price_table source_ caption_] ->
  includes (Background.formatContentForAI (Some d))
           (lit "HEADERS: Name | Price") = true /\
  includes (Background.formatContentForAI (Some d))
           (lit "ROW 1: Widget | $10") = true.
Proof.
  intros H.
  unfold Background.formatContentForAI, Background.tables_section.
  rewrite H. cbn [Background.nonempty].
  unfold indexed; cbn [indexed_from map concat].
  unfold Background.table_text, price_table.
  cbn [snd fst Background.caption Background.headers Background.rows
       Background.nonempty].
  split.
  - do 3 apply includes_app_r. apply includes_app_l.
    apply includes_app_r, includes_app_l, includes_app_l.
    apply includes_app_r, includes_app_l, includes_app_l.
    vm_compute. reflexivity.
  - do 3 apply includes_app_r. apply includes_app_l.
    apply includes_app_r, includes_app_l, includes_app_l.
    apply includes_app_r, includes_app_r.
    vm_compute. reflexivity.
Qed.

Lemma formatContentForAI_shows_table_witness :
  let d := page_with_table (price_table (lit "table") []) in
  includes (Background.formatContentForAI (Some d))
           (lit "HEADERS: Name | Price") = true /\
  includes (Background.formatContentForAI (Some d))
           (lit "ROW 1: Widget | $10") = true.
Proof.
  apply (formatContentForAI_shows_table
           (page_with_table (price_table (lit "table") []))
           (lit "table") []).
  reflexivity.
Defined.

(** ** The form extractor and password fields *)

(** The value recorded for a password field is the constant [[hidden]],
    whatever the field holds. *)
Lemma password_value_is_hidden (field : Background.dom_field)
    (x : Background.form_field) :
  Background.type field = lit "password" ->
  Background.extract_field field = Some x ->
  Background.f_value x = lit "[hidden]".
Proof.
  intros H. unfold Background.extract_field, Background.field_value.
  rewrite H. destruct (Background.field_label field); [|discriminate].
  intros E. inversion E. reflexivity.
Qed.

(** When no [label] element surrounds the field, what is recorded for a
    password field does not depend on the text typed into it. *)
Lemma password_field_without_label_around
    (a b : Background.dom_field) :
  same_but_value a b ->
  Background.type a = lit "password" ->
  Background.closestLabel a = None ->
  Background.extract_field a = Background.extract_field b.
Proof.
  intros (Ht & Hg & Hc & Hs & Ha & Hp & Hn & Hf & Hl) Hpw Hnone.
  unfold Background.extract_field, Background.field_value,
    Background.field_label, Background.closest_label_text.
  rewrite <- Ht, <- Hg, <- Ha, <- Hp, <- Hn, <- Hf, <- Hl, Hpw, Hnone.
  reflexivity.
Qed.

(** C8, at the failing input.  Two login forms that differ only in the
    text typed into the password field: the recorded value is [[hidden]]
    in both, but the recorded label is [word] for the typed text [Pass]
    and [Password] for the typed text [hunter2], because the label text
    is taken from the surrounding [label] element with the field's value
    removed from it.  The extracted forms differ, and so do the context
    texts built from them. *)
Theorem password_text_reaches_extracted_label :
  let url_ := lit "https://example.test/login" in
  same_but_value (password_field (lit "Pass"))
                 (password_field (lit "hunter2")) /\
  Background.extractForms (login_form (lit "Pass")) =
    Some [Background.Form 0 url_
            [Background.FormField (lit "password") (lit "word")
                                  (lit "[hidden]")]] /\
  Background.extractForms (login_form (lit "hunter2")) =
    Some [Background.Form 0 url_
            [Background.FormField (lit "password") (lit "Password")
                                  (lit "[hidden]")]] /\
  str_eqb
    (Background.formatContentForAI
       (Some (page_with_forms
                (Background.extracted_forms (login_form (lit "Pass"))))))
    (Background.formatContentForAI
       (Some (page_with_forms
                (Background.extracted_forms (login_form (lit "hunter2"))))))
  = false.
Proof.
  cbv zeta. split; [repeat split|].
  split; [vm_compute; reflexivity|].
  split; vm_compute; reflexivity.
Qed.

(** The typed password also reaches the context text through the backup
    capture of the visible text, which records the value of every visible
    element that has one. *)
Lemma typed_password_reaches_visible_text :
  includes (Background.formatContentForAI
              (Some (login_page (lit "hunter2"))))
           (lit "[INPUT: hunter2]") = true /\
  includes (Background.formatContentForAI
              (Some (login_page (lit "letmein"))))
           (lit "[INPUT: hunter2]") = false.
Proof. vm_compute. split; reflexivity. Qed.

(* ================================================================== *)
(** * Further properties of the side panel                             *)
(* ================================================================== *)

(** ** Replacing one code unit *)

(** A global replacement of a single code unit by a fixed text works unit
    by unit. *)
Lemma replace_from_unit (c : N) (t : jsstring) :
  forall fuel s,
    (length (after s) < fuel)%nat ->
    replace_from fuel (Unit_ c) (expand [Text t]) s
    = flat_map (fun x => if N.eqb x c then t else [x]) (after s).
Proof.
  induction fuel as [|n IH]; intros s Hlt; [lia|].
  destruct s as [b a k]. cbn [after] in *.
  destruct a as [|x r]; [reflexivity|].
  cbn [replace_from match_here mt after before caps flat_map].
  destruct (N.eqb x c) eqn:E.
  - cbn [advance after before caps consumed expand map concat length].
    replace (Nat.ltb (length r) (S (length r))) with true
      by (symmetry; apply Nat.ltb_lt; lia).
    rewrite IH by (cbn; simpl in Hlt; lia).
    cbn [after]. now rewrite app_nil_r.
  - cbn [advance after before caps].
    rewrite IH by (cbn; simpl in Hlt; lia). reflexivity.
Qed.

Lemma replace_all_unit (c : N) (t s : jsstring) :
  replace_all (Unit_ c) [Text t] s
  = flat_map (fun x => if N.eqb x c then t else [x]) s.
Proof.
  unfold replace_all, replace_with.
  now rewrite replace_from_unit by (cbn; lia).
Qed.

Lemma flat_map_flat_map {A B C : Type} (f : A -> list B) (g : B -> list C)
    (l : list A) :
  flat_map g (flat_map f l) = flat_map (fun x => flat_map g (f x)) l.
Proof.
  induction l as [|x l IH]; simpl; [reflexivity|].
  now rewrite flat_map_app, IH.
Qed.


(** ** Escaped text *)

Lemma escape_unit_no_angle_brackets (c : N) :
  no_angle_brackets (escape_unit c).
Proof.
  unfold escape_unit, no_angle_brackets.
  destruct (N.eqb c 38) eqn:E1; [repeat constructor; discriminate|].
  destruct (N.eqb c 60) eqn:E2; [repeat constructor; discriminate|].
  destruct (N.eqb c 62) eqn:E3; [repeat constructor; discriminate|].
  apply N.eqb_neq in E2, E3.
  destruct (N.eqb c 160); repeat constructor; try discriminate; assumption.
Qed.

Lemma escapeHtml_no_angle_brackets (text : jsstring) :
  no_angle_brackets (escapeHtml text).
Proof.
  unfold escapeHtml, no_angle_brackets.
  induction text as [|c text IH]; simpl; [constructor|].
  apply Forall_app. split; [apply escape_unit_no_angle_brackets|exact IH].
Qed.

(** X2.  In the rendered thread list every title is escaped: it holds
    no angle bracket, whatever the saved title is, and the entries carry
    the identifiers of the shown threads in order. *)
Theorem thread_list_titles_are_escaped
    (toLocaleDateString : Z -> jsstring) (today : Z) (st : panel) :
  match chatsList (renderChatsList toLocaleDateString today st) with
  | NoChats => savedChats st = []
  | Items items =>
      Forall (fun it => no_angle_brackets (item_title it)) items /\
      map data_id items
      = ids (rendered_chats toLocaleDateString today st)
  end.
Proof.
  unfold rendered_chats, renderChatsList.
  destruct (savedChats st) as [|c l] eqn:E; cbn; [reflexivity|].
  split.
  - apply Forall_map, Forall_forall. intros x _.
    apply escapeHtml_no_angle_brackets.
  - unfold ids. rewrite map_map. reflexivity.
Qed.

Lemma user_html_escaped (content_ : jsstring) :
  replace_all (Unit_ LF) [Text (lit "<br>")] (escapeHtml content_)
  = turn_html true content_.
Proof.
  unfold turn_html.
  rewrite replace_all_unit. unfold escapeHtml.
  rewrite <- flat_map_concat_map, flat_map_flat_map.
  apply flat_map_ext. intros c.
  unfold escape_unit.
  destruct (N.eqb c LF) eqn:E.
  - apply N.eqb_eq in E; subst c. reflexivity.
  - destruct (N.eqb c 38); [reflexivity|].
    destruct (N.eqb c 60); [reflexivity|].
    destruct (N.eqb c 62); [reflexivity|].
    destruct (N.eqb c 160); [reflexivity|].
    cbn. now rewrite E.
Qed.

(** X3.  The HTML of a user bubble is the text of the turn taken unit by
    unit: the ampersand, the angle brackets and the no-break space become
    entities, a line feed becomes a break, every other unit is kept; no
    markdown is interpreted. *)
Theorem user_bubble_is_escaped_text (content_ : jsstring)
    (fileName : option jsstring) (st : panel) :
  shown (addMessage (lit "user") content_ fileName st)
  = shown st ++
    [Bubble None (lit "message user")
            (match fileName with
             | Some f => if truthy f then Some (escapeHtml f) else None
             | None => None
             end)
            (turn_html true content_)].
Proof.
  unfold addMessage. cbn [shown with_shown].
  change (str_eqb (lit "user") (lit "user")) with true. cbv iota.
  now rewrite user_html_escaped.
Qed.

(** ** The typing animation, tick by tick *)

Lemma char_delay_bounds (c : N) : (3 <= char_delay c <= 18)%Z.
Proof.
  unfold char_delay, baseSpeed.
  destruct (N.eqb c 32); [cbn; lia|].
  destruct (includes _ _); [lia|].
  destruct (includes _ _); [lia|].
  destruct (N.eqb c LF); lia.
Qed.

Lemma skipn_nth {A : Type} (l : list A) (i : nat) (x : A) :
  nth_error l i = Some x -> skipn i l = x :: skipn (S i) l.
Proof.
  revert i; induction l as [|y l IH]; intros [|i] H; simpl in *; try easy.
  - now inversion H.
  - now apply IH.
Qed.

Lemma type_loop_timers (content_ : jsstring) :
  forall (fuel : nat) (t : typing),
    (index t <= length content_)%nat ->
    contentHtml t = None ->
    (length content_ - index t < fuel)%nat ->
    timers (type_loop fuel content_ t)
    = timers t ++ map char_delay (skipn (index t) content_).
Proof.
  induction fuel as [|fuel IH]; intros t Hle Hnone Hfuel; [lia|].
  cbn [type_loop].
  destruct (Nat.eq_dec (index t) (length content_)) as [Heq|Hne].
  - rewrite (typeChar_finishes content_ t Heq).
    cbn [contentHtml timers]. rewrite Heq, skipn_all. cbn.
    now rewrite app_nil_r.
  - assert (Hlt : (index t < length content_)%nat) by lia.
    apply Nat.ltb_lt in Hlt as Hb.
    destruct (nth_error content_ (index t)) as [c|] eqn:E;
      [|apply nth_error_None in E; lia].
    assert (Ht : typeChar content_ t =
                 Typing (rawText t ++ [c]) (S (index t))
                        (formatMessageIncremental (rawText t ++ [c]))
                        (footer t) (contentHtml t)
                        (timers t ++ [char_delay c]))
      by (unfold typeChar; rewrite Hb, E; reflexivity).
    rewrite Ht. cbn [contentHtml]. rewrite Hnone.
    rewrite IH.
    + cbn [index timers]. rewrite <- app_assoc. f_equal.
      now rewrite (skipn_nth content_ (index t) c E).
    + cbn [index]. lia.
    + cbn [contentHtml]. first [exact Hnone | reflexivity].
    + cbn [index]. lia.
Qed.

(** X4.  The animation asks for exactly one timer per code unit of the
    reply, in order, each with the delay of that unit, and every delay is
    between 3 and 18 milliseconds: the reveal of a reply of [n] units is
    scheduled to take between [3 n] and [18 n] milliseconds. *)
Theorem typeMessage_one_timer_per_unit (content_ : jsstring) :
  timers (typeMessage content_) = map char_delay content_ /\
  Forall (fun d => (3 <= d <= 18)%Z) (timers (typeMessage content_)) /\
  (3 * Z.of_nat (length content_)
   <= fold_right Z.add 0%Z (timers (typeMessage content_))
   <= 18 * Z.of_nat (length content_))%Z.
Proof.
  assert (H : timers (typeMessage content_) = map char_delay content_).
  { unfold typeMessage.
    rewrite type_loop_timers; cbn [index typing_start contentHtml timers];
      try lia; reflexivity. }
  rewrite H. split; [reflexivity|]. split.
  - apply Forall_map, Forall_forall. intros c _. apply char_delay_bounds.
  - induction content_ as [|c l IH]; [cbn; lia|].
    cbn [map fold_right length].
    pose proof (char_delay_bounds c).
    assert (Hl : timers (typeMessage l) = map char_delay l).
    { unfold typeMessage.
      rewrite type_loop_timers; cbn [index typing_start contentHtml timers];
        try lia; reflexivity. }
    specialize (IH Hl). lia.
Qed.

Lemma type_after_state (content_ : jsstring) :
  forall n, (n <= length content_)%nat ->
    index (type_after n content_) = n /\
    rawText (type_after n content_) = firstn n content_ /\
    contentHtml (type_after n content_) = None /\
    bubbleHtml (type_after n content_) =
      match n with
      | O => []
      | S _ => formatMessageIncremental (firstn n content_)
      end.
Proof.
  induction n as [|n IH]; intros Hle.
  - cbn. repeat split; reflexivity.
  - destruct (IH ltac:(lia)) as (Hi & Hr & Hc & _).
    change (type_after (S n) content_)
      with (typeChar content_ (type_after n content_)).
    set (t := type_after n content_) in *.
    assert (Hlt : (index t < length content_)%nat) by lia.
    rewrite <- Hi in Hr.
    destruct (typeChar_reveals content_ t Hlt Hr) as (H1 & H2 & H3 & H4 & _).
    rewrite H1, H2, H3, H4, Hi. repeat split; assumption.
Qed.

(** X5.  After [n] ticks of the animation, for every [n] up to the length
    of the reply, exactly the first [n] code units have been revealed, the
    bubble shows the incremental formatting of exactly that prefix, and
    the final pass has not been made yet. *)
Theorem typing_reveals_prefixes (content_ : jsstring) (n : nat) :
  (n <= length content_)%nat ->
  rawText (type_after n content_) = firstn n content_ /\
  contentHtml (type_after n content_) = None /\
  bubbleHtml (type_after n content_) =
    match n with
    | O => []
    | S _ => formatMessageIncremental (firstn n content_)
    end.
Proof.
  intros H. destruct (type_after_state content_ n H) as (_ & H2 & H3 & H4).
  repeat split; assumption.
Qed.

Lemma typing_reveals_prefixes_witness :
  rawText (type_after 3 (lit "**ok**")) = firstn 3 (lit "**ok**") /\
  contentHtml (type_after 3 (lit "**ok**")) = None /\
  bubbleHtml (type_after 3 (lit "**ok**")) =
    formatMessageIncremental (firstn 3 (lit "**ok**")).
Proof.
  apply (typing_reveals_prefixes (lit "**ok**") 3). cbn. lia.
Defined.

(** ** The header of the panel *)

(** X6.  When the host name and path of a parsed address have more than
    40 code units, the displayed text has exactly 40: the first 37 units
    of host name and path, followed by three full stops. *)
Theorem truncateUrl_cuts_to_37_and_dots
    (URL_parse : jsstring -> option url_parts) (url_ : jsstring)
    (parsed : url_parts) :
  url_ <> [] ->
  URL_parse url_ = Some parsed ->
  (40 < length (hostname parsed ++ pathname parsed))%nat ->
  truncateUrl URL_parse url_
  = firstn 37 (hostname parsed ++ pathname parsed) ++ lit "..." /\
  length (truncateUrl URL_parse url_) = 40%nat.
Proof.
  intros Hne Hp Hlen. unfold truncateUrl.
  destruct url_ as [|c u]; [contradiction|]. cbn [truthy negb].
  rewrite Hp. cbv zeta.
  apply Nat.ltb_lt in Hlen as Hb. rewrite Hb.
  assert (Hs : js_substring 0 37 (hostname parsed ++ pathname parsed)
               = firstn 37 (hostname parsed ++ pathname parsed)).
  { unfold js_substring, clamp; cbv zeta.
    replace (Z.to_nat _) with 37%nat by lia.
    replace (Z.to_nat _) with 0%nat by lia. reflexivity. }
  rewrite Hs. split; [reflexivity|].
  rewrite length_app, length_firstn. cbn [length lit]. lia.
Qed.

Lemma truncateUrl_cuts_to_37_and_dots_witness :
  let parsed := UrlParts (lit "www.example.com")
                         (lit "/a/very/long/path/that/goes/on") in
  let parse := fun _ : jsstring => Some parsed in
  truncateUrl parse (lit "https://www.example.com/a/very/long/path")
  = firstn 37 (hostname parsed ++ pathname parsed) ++ lit "..." /\
  length (truncateUrl parse (lit "https://www.example.com/a/very/long/path"))
  = 40%nat.
Proof.
  apply (truncateUrl_cuts_to_37_and_dots
           (fun _ => Some (UrlParts (lit "www.example.com")
                                    (lit "/a/very/long/path/that/goes/on")))
           (lit "https://www.example.com/a/very/long/path")
           (UrlParts (lit "www.example.com")
                     (lit "/a/very/long/path/that/goes/on"))).
  - discriminate.
  - reflexivity.
  - cbn. lia.
Defined.

Lemma truncateUrl_length (URL_parse : jsstring -> option url_parts)
    (url_ : jsstring) :
  (length (truncateUrl URL_parse url_) <= 40)%nat.
Proof.
  unfold truncateUrl.
  destruct (truthy url_); cbn [negb]; [|cbn; lia].
  destruct (URL_parse url_) as [parsed|]; cbv zeta.
  - destruct (Nat.ltb 40 (length (hostname parsed ++ pathname parsed))) eqn:E.
    + rewrite length_app.
      pose proof (js_substring_length_le 0 37
                    (hostname parsed ++ pathname parsed) ltac:(lia)).
      change (length (lit "...")) with 3%nat. lia.
    + apply Nat.ltb_ge in E. exact E.
  - pose proof (js_substring_length_le 0 40 url_ ltac:(lia)). lia.
Qed.

(** X7.  Whatever data arrives, the header of the panel never shows an
    empty title or an empty address, and the address shown has at most
    40 code units.  When the data names no tab (there is no data, or its
    tab identifier is missing or zero) the header is marked inactive,
    shows [No tab selected] and a dash, and keeps the icon it had; when
    it names one the header is marked active. *)
Theorem updateTabDisplay_texts
    (URL_parse : jsstring -> option url_parts)
    (data : option Background.tab_update) (v : tab_view) :
  let v' := updateTabDisplay URL_parse data v in
  truthy (v_title v') = true /\
  truthy (v_url v') = true /\
  (length (v_url v') <= 40)%nat /\
  (if names_tab data
   then v_inactive v' = false
   else v' = TabView true (lit "No tab selected") (lit "-") (v_favicon v)).
Proof.
  assert (Hor : forall a b, truthy b = true -> truthy (or_else a b) = true).
  { intros a b Hb. unfold or_else. destruct (truthy a) eqn:E; assumption. }
  unfold updateTabDisplay, names_tab; cbv zeta.
  destruct data as [d|]; [|cbn; repeat split; try reflexivity; lia].
  destruct (Background.u_tabId d) as [i|];
    [|cbn; repeat split; try reflexivity; lia].
  destruct (i =? 0)%Z; [cbn; repeat split; try reflexivity; lia|].
  cbn [v_title v_url v_inactive v_favicon negb].
  split; [now apply Hor|]. split; [now apply Hor|]. split; [|reflexivity].
  unfold or_else.
  destruct (truncateUrl URL_parse (Background.u_url d)) eqn:E;
    cbn [truthy]; [cbn; lia|].
  rewrite <- E. apply truncateUrl_length.
Qed.

(** ** The age of a thread *)

(** X8.  The label of a time stamp depends only on its age: [Just now]
    below one minute (also for a time stamp in the future), whole minutes
    below one hour, whole hours below one day, whole days below seven
    days, and the date in the user's locale from seven days on. *)
Theorem formatDate_by_age (toLocaleDateString : Z -> jsstring)
    (today timestamp : Z) :
  formatDate toLocaleDateString today timestamp
  = age_label toLocaleDateString today timestamp.
Proof.
  unfold formatDate, age_label; cbv zeta.
  set (age := (today - timestamp)%Z).
  assert (H1 : (age / 60000 <? 1)%Z = (age <? 60000)%Z).
  { destruct (age <? 60000)%Z eqn:E.
    - apply Z.ltb_lt in E. apply Z.ltb_lt.
      apply Z.div_lt_upper_bound; lia.
    - apply Z.ltb_ge in E. apply Z.ltb_ge.
      apply Z.div_le_lower_bound; lia. }
  assert (H2 : (age / 60000 <? 60)%Z = (age <? 3600000)%Z).
  { destruct (age <? 3600000)%Z eqn:E.
    - apply Z.ltb_lt in E. apply Z.ltb_lt.
      apply Z.div_lt_upper_bound; lia.
    - apply Z.ltb_ge in E. apply Z.ltb_ge.
      apply Z.div_le_lower_bound; lia. }
  assert (H3 : (age / 3600000 <? 24)%Z = (age <? 86400000)%Z).
  { destruct (age <? 86400000)%Z eqn:E.
    - apply Z.ltb_lt in E. apply Z.ltb_lt.
      apply Z.div_lt_upper_bound; lia.
    - apply Z.ltb_ge in E. apply Z.ltb_ge.
      apply Z.div_le_lower_bound; lia. }
  assert (H4 : (age / 86400000 <? 7)%Z = (age <? 604800000)%Z).
  { destruct (age <? 604800000)%Z eqn:E.
    - apply Z.ltb_lt in E. apply Z.ltb_lt.
      apply Z.div_lt_upper_bound; lia.
    - apply Z.ltb_ge in E. apply Z.ltb_ge.
      apply Z.div_le_lower_bound; lia. }
  now rewrite H1, H2, H3, H4.
Qed.

(** ** Sending a message *)

Lemma push_exchange_shape (u r : jsstring) (h : list message) :
  push_exchange u r h
  = skipn (length h - 18) h
    ++ [Message (lit "user") u; Message (lit "assistant") r].
Proof.
  unfold push_exchange.
  replace ((h ++ [Message (lit "user") u]) ++ [Message (lit "assistant") r])
    with (h ++ [Message (lit "user") u; Message (lit "assistant") r])
    by (rewrite <- app_assoc; reflexivity).
  destruct (Nat.ltb 20 _) eqn:E.
  - apply Nat.ltb_lt in E. rewrite length_app in E. cbn [length] in E.
    rewrite (js_slice_last 20) by lia.
    rewrite length_app. cbn [length].
    rewrite skipn_app.
    replace (length h + 2 - 20)%nat with (length h - 18)%nat by lia.
    replace (length h - 18 - length h)%nat with 0%nat by lia.
    reflexivity.
  - apply Nat.ltb_ge in E. rewrite length_app in E. cbn [length] in E.
    replace (length h - 18)%nat with 0%nat by lia. reflexivity.
Qed.

(** X9.  After a successful exchange the retained history always ends
    with the new user turn followed by the reply; before them comes the
    old history without its first [length - 18] entries, so nothing older
    is dropped while the old history has at most 18 entries. *)
Theorem push_exchange_ends_with_new_turns (u r : jsstring)
    (h : list message) :
  push_exchange u r h
  = skipn (length h - 18) h
    ++ [Message (lit "user") u; Message (lit "assistant") r].
Proof. apply push_exchange_shape. Qed.

(** X10.  [sendMessage] does nothing at all when there is neither a text
    (after trimming) nor a file, or when a request is pending. *)
Theorem sendMessage_ignored
    (toLocaleDateString : Z -> jsstring) (today : Z) (key : bool)
    (reply : chat_reply) (clock : nat -> Z)
    (storage : storage_result) (st : panel) :
  (trim (inputValue st) = [] /\ currentFile st = None)
  \/ isLoading st = true ->
  sendMessage toLocaleDateString today key reply clock storage st = st.
Proof.
  intros H. unfold sendMessage; cbv zeta.
  destruct H as [[Ht Hf]|Hl].
  - rewrite Ht, Hf. reflexivity.
  - rewrite Hl, orb_true_r. reflexivity.
Qed.

Lemma sendMessage_ignored_witness :
  sendMessage (fun _ => []) 0%Z true (ReplyOk (lit "x")) (fun _ => 0%Z)
              StorageOk
              (with_input (lit "   ") panel_start)
  = with_input (lit "   ") panel_start.
Proof.
  apply (sendMessage_ignored (fun _ => []) 0%Z true (ReplyOk (lit "x"))
           (fun _ => 0%Z) StorageOk (with_input (lit "   ") panel_start)).
  left. split; reflexivity.
Defined.

(** X11.  When no credential is known and the settings hold none,
    [sendMessage] only adds an error bubble and changes nothing else:
    the input and the file stay, no placeholder is shown, and the
    history, the saved threads and the current identifier are as they
    were. *)
Theorem sendMessage_without_key
    (toLocaleDateString : Z -> jsstring) (today : Z)
    (reply : chat_reply) (clock : nat -> Z)
    (storage : storage_result) (st : panel) :
  hasApiKey st = false ->
  isLoading st = false ->
  (truthy (trim (inputValue st)) = true \/ currentFile st <> None) ->
  sendMessage toLocaleDateString today false reply clock storage st
  = addMessage (lit "error")
      (lit "Please configure your OpenAI API key in settings first.")
      None st.
Proof.
  intros Hk Hl Hin. unfold sendMessage; cbv zeta.
  rewrite Hl, orb_false_r.
  assert (Hg : negb (truthy (trim (inputValue st)))
               && match currentFile st with
                  | Some _ => false | None => true end = false).
  { destruct Hin as [Ht|Hf]; [now rewrite Ht|].
    destruct (currentFile st); [apply andb_false_r|contradiction]. }
  rewrite Hg, Hk. cbn [orb negb].
  unfold addMessage, with_apiKey, with_shown. cbn.
  destruct st; cbn in *. subst. reflexivity.
Qed.

Lemma sendMessage_without_key_witness :
  let st := with_input (lit "hello") panel_start in
  sendMessage (fun _ => []) 0%Z false (ReplyOk (lit "x")) (fun _ => 0%Z)
              StorageOk st
  = addMessage (lit "error")
      (lit "Please configure your OpenAI API key in settings first.")
      None st.
Proof.
  apply (sendMessage_without_key (fun _ => []) 0%Z (ReplyOk (lit "x"))
           (fun _ => 0%Z) StorageOk (with_input (lit "hello") panel_start)).
  - reflexivity.
  - reflexivity.
  - left. vm_compute. reflexivity.
Defined.

Lemma sends_true (key : bool) (st : panel) :
  sends key st = true ->
  (negb (truthy (trim (inputValue st)))
   && match currentFile st with Some _ => false | None => true end)
  || isLoading st = false
  /\ hasApiKey st || key = true.
Proof.
  unfold sends. intros H. apply andb_true_iff in H as [H1 H2].
  apply negb_true_iff in H1. split; assumption.
Qed.

Lemma sends_not_loading (key : bool) (st : panel) :
  sends key st = true -> isLoading st = false.
Proof.
  intros H. apply sends_true in H as [H _].
  apply orb_false_iff in H as [_ H]. exact H.
Qed.

(** X12.  When the request fails (the background script answers with an
    error, or the request is rejected), the exchange leaves no trace in
    the conversation: the history, the saved threads, the stored threads
    and the current identifier are unchanged.  The input is cleared, the
    file is detached and the panel is ready for the next message.  The
    error, with the text of the failure or a default text when there is
    none, is appended to the message list.  When the rejection tells
    that the extension context is lost, the body of the document is
    replaced by the notice that asks for a refresh: the message list is
    then no longer part of the document, its placeholder is not removed,
    and the document shows none of the bubbles.  Otherwise the
    placeholder is removed, if the body was not replaced before. *)
Theorem sendMessage_failed_exchange
    (toLocaleDateString : Z -> jsstring) (today : Z) (key : bool)
    (reply : chat_reply) (clock : nat -> Z) (storage : storage_result)
    (st : panel) (text : jsstring) :
  sends key st = true ->
  failure_text reply = Some text ->
  let st' := sendMessage toLocaleDateString today key reply clock storage
                         st in
  let assistantMsgId := lit "msg-" ++ num_to_string (clock 0%nat) in
  let pending :=
    shown (addMessagePlaceholder assistantMsgId
             (addMessage (lit "user")
                (display_message (trim (inputValue st)) (currentFile st))
                (option_map name (currentFile st)) st)) in
  let error_bubble :=
    Bubble None (lit "message error") None (formatMessage text) in
  conversationHistory st' = conversationHistory st /\
  savedChats st' = savedChats st /\
  persisted st' = persisted st /\
  currentChatId st' = currentChatId st /\
  isLoading st' = false /\
  inputValue st' = [] /\
  currentFile st' = None /\
  bodyReplaced st' = bodyReplaced st || context_failure reply /\
  shown st'
  = (if bodyReplaced st' then pending
     else remove_bubble assistantMsgId pending) ++ [error_bubble] /\
  displayed st'
  = (if bodyReplaced st || context_failure reply then []
     else remove_bubble assistantMsgId pending ++ [error_bubble]).
Proof.
  intros Hs Hf. destruct (sends_true key st Hs) as [Hg Hk].
  unfold displayed, sendMessage; cbv zeta. rewrite Hg, Hk. cbn [negb].
  destruct reply as [r|e|m]; [discriminate Hf| |];
    cbn [failure_text] in Hf; inversion Hf; subst text; clear Hf;
    cbn [context_failure];
    [|destruct (context_lost m)];
    unfold removeMessagePlaceholder, handleContextInvalidated;
    cbn [conversationHistory savedChats persisted currentChatId isLoading
         inputValue currentFile shown bodyReplaced with_loading addMessage
         with_shown addMessagePlaceholder with_file with_input
         with_welcome with_apiKey with_bodyReplaced];
    rewrite ?orb_false_r, ?orb_true_r;
    try (destruct (bodyReplaced st) eqn:Eb;
         cbn [conversationHistory savedChats persisted currentChatId
              isLoading inputValue currentFile shown bodyReplaced
              with_loading addMessage with_shown addMessagePlaceholder
              with_file with_input with_welcome with_apiKey
              with_bodyReplaced];
         rewrite ?Eb);
    repeat split; reflexivity.
Qed.

Lemma sendMessage_failed_exchange_witness :
  let st := with_apiKey true (with_input (lit "hello") panel_start) in
  let reply := ReplyThrown (lit "Extension context invalidated.") in
  let st' := sendMessage (fun _ => []) 0%Z false reply
                         (fun _ => 0%Z) StorageOk st in
  let assistantMsgId := lit "msg-" ++ num_to_string 0%Z in
  let pending :=
    shown (addMessagePlaceholder assistantMsgId
             (addMessage (lit "user")
                (display_message (trim (inputValue st)) (currentFile st))
                (option_map name (currentFile st)) st)) in
  let error_bubble :=
    Bubble None (lit "message error") None
           (formatMessage (lit "Extension context invalidated.")) in
  conversationHistory st' = conversationHistory st /\
  savedChats st' = savedChats st /\
  persisted st' = persisted st /\
  currentChatId st' = currentChatId st /\
  isLoading st' = false /\
  inputValue st' = [] /\
  currentFile st' = None /\
  bodyReplaced st' = bodyReplaced st || context_failure reply /\
  shown st'
  = (if bodyReplaced st' then pending
     else remove_bubble assistantMsgId pending) ++ [error_bubble] /\
  displayed st'
  = (if bodyReplaced st || context_failure reply then []
     else remove_bubble assistantMsgId pending ++ [error_bubble]).
Proof.
  apply (sendMessage_failed_exchange (fun _ => []) 0%Z false
           (ReplyThrown (lit "Extension context invalidated."))
           (fun _ => 0%Z) StorageOk
           (with_apiKey true (with_input (lit "hello") panel_start))
           (lit "Extension context invalidated.")).
  - vm_compute. reflexivity.
  - reflexivity.
Defined.

(** ** Threads across events *)

Lemma typed_out_frame (i c : jsstring) (st : panel) :
  savedChats (typed_out i c st) = savedChats st /\
  currentChatId (typed_out i c st) = currentChatId st /\
  persisted (typed_out i c st) = persisted st.
Proof.
  unfold typed_out. destruct (bodyReplaced st); [repeat split|].
  destruct (contentHtml _); repeat split.
Qed.

(** The state in which a successful exchange is saved. *)
Lemma sendMessage_saves (toLocaleDateString : Z -> jsstring) (today : Z)
    (key : bool) (response : jsstring) (clock : nat -> Z)
    (storage : storage_result)
    (st : panel) :
  sends key st = true ->
  exists pre,
    sendMessage toLocaleDateString today key (ReplyOk response) clock storage st
    = with_loading false
        (saveCurrentChat toLocaleDateString today (fun i => clock (S i)) storage
                         pre) /\
    savedChats pre = savedChats st /\
    currentChatId pre = currentChatId st /\
    conversationHistory pre
    = push_exchange (content (sent_turn st)) response
                    (conversationHistory st).
Proof.
  intros Hs. destruct (sends_true key st Hs) as [Hg Hk].
  unfold sendMessage; cbv zeta. rewrite Hg, Hk. cbn [negb].
  eexists. split; [reflexivity|].
  match goal with
  | |- context [typed_out ?i ?c ?s] =>
      destruct (typed_out_frame i c s) as (H1 & H2 & _);
      rewrite H1, H2, (typed_out_history i c s)
  end.
  repeat split.
Qed.

Lemma push_exchange_not_empty (u r : jsstring) (h : list message) :
  push_exchange u r h <> [].
Proof.
  rewrite push_exchange_shape.
  intros H. apply app_eq_nil in H as [_ H]. discriminate H.
Qed.

Lemma with_loading_ok (b : bool) (st : panel) :
  panel_ok st -> panel_ok (with_loading b st).
Proof. intros H; exact H. Qed.

Lemma panel_ok_same (a b : panel) :
  savedChats a = savedChats b -> currentChatId a = currentChatId b ->
  panel_ok b -> panel_ok a.
Proof. unfold panel_ok. intros -> ->. auto. Qed.

(** X13.  A successful exchange is saved at once and can be brought
    back: in a panel whose threads are well identified, and with a clock
    that gives a new identifier, after [sendMessage] the conversation
    has an identifier, the threads are still well identified, and
    loading that identifier from any later state with the same saved
    threads restores exactly the history kept after the exchange. *)
Theorem sendMessage_then_loadChat
    (toLocaleDateString : Z -> jsstring) (today : Z) (key : bool)
    (response : jsstring) (clock : nat -> Z)
    (storage : storage_result) (st : panel) :
  sends key st = true ->
  panel_ok st ->
  ~ In (new_id (fun i => clock (S i))) (ids (savedChats st)) ->
  let st' := sendMessage toLocaleDateString today key (ReplyOk response)
                         clock storage st in
  panel_ok st' /\
  exists cid,
    currentChatId st' = Some cid /\
    forall later : panel,
      savedChats later = savedChats st' ->
      conversationHistory (loadChat cid later) = conversationHistory st'.
Proof.
  intros Hs Hok Hnew st'.
  destruct (sendMessage_saves toLocaleDateString today key response clock
              storage st Hs) as (pre & Heq & Hsv & Hcur & Hh).
  subst st'. rewrite Heq.
  assert (Hpre : panel_ok pre) by exact (panel_ok_same pre st Hsv Hcur Hok).
  assert (Hnew' : ~ In (new_id (fun i => clock (S i))) (ids (savedChats pre)))
    by (now rewrite Hsv).
  split.
  - apply with_loading_ok, saveCurrentChat_ok; assumption.
  - assert (Hne : conversationHistory pre <> [])
      by (rewrite Hh; apply push_exchange_not_empty).
    destruct Hpre as (Hnd & Hall & Hc).
    pose proof (panel_ok_id_available (fun i => clock (S i)) pre
                  (conj Hnd (conj Hall Hc)) Hnew') as Hav.
    destruct (saveCurrentChat_files toLocaleDateString today
                (fun i => clock (S i)) storage pre Hne Hnd Hav)
      as (Hcid & Hnd' & c & Hin & Hid & Hmsg).
    exists (filed_under (fun i => clock (S i)) pre).
    split; [exact Hcid|].
    intros later Hsame.
    cbn [savedChats with_loading] in Hsame.
    pose proof (find_by_id_unique _ c Hnd' Hin) as Hfind.
    rewrite Hid, <- Hsame in Hfind.
    destruct (loadChat_found _ later c Hfind) as [H _].
    rewrite H, Hmsg.
    cbn [conversationHistory with_loading].
    now rewrite saveCurrentChat_history.
Qed.

Lemma sendMessage_then_loadChat_witness :
  let st := with_apiKey true (with_input (lit "hello") panel_start) in
  let st' := sendMessage (fun _ => []) 0%Z false (ReplyOk (lit "hi"))
                         (fun _ => 1700000000000%Z) StorageOk st in
  panel_ok st' /\
  exists cid,
    currentChatId st' = Some cid /\
    forall later : panel,
      savedChats later = savedChats st' ->
      conversationHistory (loadChat cid later) = conversationHistory st'.
Proof.
  apply (sendMessage_then_loadChat (fun _ => []) 0%Z false (lit "hi")
           (fun _ => 1700000000000%Z) StorageOk
           (with_apiKey true (with_input (lit "hello") panel_start))).
  - vm_compute. reflexivity.
  - repeat split; constructor.
  - intros [].
Defined.

Lemma sendMessage_frame (toLocaleDateString : Z -> jsstring) (today : Z)
    (key : bool) (reply : chat_reply) (clock : nat -> Z)
    (storage : storage_result)
    (st : panel) :
  sends key st = false \/ failure_text reply <> None ->
  savedChats (sendMessage toLocaleDateString today key reply clock storage st)
  = savedChats st /\
  currentChatId
    (sendMessage toLocaleDateString today key reply clock storage st)
  = currentChatId st.
Proof.
  intros H. unfold sendMessage; cbv zeta.
  destruct ((negb (truthy (trim (inputValue st)))
             && match currentFile st with
                | Some _ => false | None => true end)
            || isLoading st) eqn:Hg; [split; reflexivity|].
  destruct (hasApiKey st || key) eqn:Hk; cbn [negb];
    [|split; reflexivity].
  destruct H as [H|H].
  - unfold sends in H. rewrite Hg, Hk in H. discriminate H.
  - destruct reply as [r|e|m]; [cbn in H; contradiction| |];
      unfold removeMessagePlaceholder, handleContextInvalidated;
      [|destruct (context_lost m)];
      cbn [bodyReplaced with_loading addMessage with_shown
           addMessagePlaceholder with_file with_input with_welcome
           with_apiKey with_bodyReplaced];
      destruct (bodyReplaced st); split; reflexivity.
Qed.

Lemma sendMessage_ok (toLocaleDateString : Z -> jsstring) (today : Z)
    (key : bool) (reply : chat_reply) (clock : nat -> Z)
    (storage : storage_result)
    (st : panel) :
  panel_ok st ->
  ~ In (new_id (fun i => clock (S i))) (ids (savedChats st)) ->
  panel_ok (sendMessage toLocaleDateString today key reply clock storage st).
Proof.
  intros Hok Hnew.
  destruct (sends key st) eqn:Hs.
  - destruct reply as [r|e|m].
    + destruct (sendMessage_saves toLocaleDateString today key r clock
                  storage st
                  Hs) as (pre & Heq & Hsv & Hcur & _).
      rewrite Heq. apply with_loading_ok, saveCurrentChat_ok.
      * exact (panel_ok_same pre st Hsv Hcur Hok).
      * now rewrite Hsv.
    + destruct (sendMessage_frame toLocaleDateString today key
                  (ReplyError e) clock storage st) as [H1 H2];
        [right; discriminate|].
      exact (panel_ok_same _ st H1 H2 Hok).
    + destruct (sendMessage_frame toLocaleDateString today key
                  (ReplyThrown m) clock storage st) as [H1 H2];
        [right; discriminate|].
      exact (panel_ok_same _ st H1 H2 Hok).
  - destruct (sendMessage_frame toLocaleDateString today key reply clock
                storage st)
      as [H1 H2]; [now left|].
    exact (panel_ok_same _ st H1 H2 Hok).
Qed.

Lemma panel_ok_threads (st : panel) : panel_ok st -> threads_ok st.
Proof. intros (H1 & H2 & _). split; assumption. Qed.

Lemma threads_ok_same (a b : panel) :
  savedChats a = savedChats b -> threads_ok b -> threads_ok a.
Proof. unfold threads_ok. intros ->. auto. Qed.

Lemma renderChatsList_threads_ok (toLocaleDateString : Z -> jsstring)
    (today : Z) (st : panel) :
  threads_ok st -> threads_ok (renderChatsList toLocaleDateString today st).
Proof.
  intros (Hnd & Hall).
  pose proof (renderChatsList_saved toLocaleDateString today st) as P.
  apply (Permutation_map id), Permutation_sym in P.
  fold (ids (savedChats st)) in P.
  split.
  - exact (Permutation_NoDup P Hnd).
  - exact (Permutation_Forall P Hall).
Qed.

(** Saving keeps the identifiers distinct, whatever the current
    identifier names, as long as the clock gives a new one. *)
Lemma saveCurrentChat_threads_ok (toLocaleDateString : Z -> jsstring)
    (today : Z) (now : nat -> Z) (storage : storage_result) (st : panel) :
  threads_ok st ->
  ~ In (new_id now) (ids (savedChats st)) ->
  threads_ok (saveCurrentChat toLocaleDateString today now storage st).
Proof.
  intros Hok Hnew. unfold saveCurrentChat.
  destruct (conversationHistory st) as [|m h] eqn:EH; [exact Hok|].
  cbv zeta. rewrite <- EH. fold (new_id now).
  assert (Hfinish : forall st1, threads_ok st1 ->
            threads_ok (match storage with
                        | StorageOk =>
                            renderChatsList toLocaleDateString today
                                            (storage_set st1)
                        | StorageError msg => storage_catch msg st1
                        end)).
  { intros st1 H1. destruct storage.
    - apply renderChatsList_threads_ok. exact H1.
    - unfold threads_ok. rewrite storage_catch_saved. exact H1. }
  destruct Hok as (Hnd & Hall).
  assert (Hupdate : forall cid,
            threads_ok
              (with_savedChats
                 (update_chat cid (conversationHistory st) (now 0%nat)
                              (savedChats st)) st)).
  { intros cid. unfold threads_ok. cbn [savedChats with_savedChats].
    rewrite update_chat_ids. split; assumption. }
  assert (Hcreate : forall t : jsstring,
            threads_ok
              (with_savedChats
                 (savedChats st ++
                  [Chat (new_id now) t (conversationHistory st)
                        (now 1%nat) (now 2%nat)])
                 (with_chatId (Some (new_id now)) st))).
  { intros t. unfold threads_ok; cbn [savedChats with_savedChats with_chatId].
    unfold ids in *. rewrite map_app. cbn [map id]. split.
    - apply (Permutation_NoDup (l := new_id now :: map id (savedChats st)));
        [apply Permutation_cons_append|now constructor].
    - apply Forall_app; split; [exact Hall|].
      constructor; [apply new_id_truthy|constructor]. }
  destruct (currentChatId st) as [cid|].
  - destruct (truthy cid); apply Hfinish; [apply Hupdate|apply Hcreate].
  - apply Hfinish, Hcreate.
Qed.

Lemma sendMessage_threads_ok (toLocaleDateString : Z -> jsstring)
    (today : Z) (key : bool) (reply : chat_reply) (clock : nat -> Z)
    (storage : storage_result) (st : panel) :
  threads_ok st ->
  ~ In (new_id (fun i => clock (S i))) (ids (savedChats st)) ->
  threads_ok (sendMessage toLocaleDateString today key reply clock storage st).
Proof.
  intros Hok Hnew.
  destruct (sends key st) eqn:Hs.
  - destruct reply as [r|e|m].
    + destruct (sendMessage_saves toLocaleDateString today key r clock
                  storage st Hs) as (pre & Heq & Hsv & _ & _).
      rewrite Heq.
      apply (threads_ok_same _ _ (with_loading_saved false _)).
      apply saveCurrentChat_threads_ok.
      * exact (threads_ok_same pre st Hsv Hok).
      * now rewrite Hsv.
    + destruct (sendMessage_frame toLocaleDateString today key
                  (ReplyError e) clock storage st) as [H1 _];
        [right; discriminate|].
      exact (threads_ok_same _ st H1 Hok).
    + destruct (sendMessage_frame toLocaleDateString today key
                  (ReplyThrown m) clock storage st) as [H1 _];
        [right; discriminate|].
      exact (threads_ok_same _ st H1 Hok).
  - destruct (sendMessage_frame toLocaleDateString today key reply clock
                storage st) as [H1 _]; [now left|].
    exact (threads_ok_same _ st H1 Hok).
Qed.

Lemma deleteChat_threads_ok (toLocaleDateString : Z -> jsstring) (today : Z)
    (storage : storage_result) (chatId : jsstring) (st : panel) :
  threads_ok st ->
  threads_ok (deleteChat toLocaleDateString today storage chatId st).
Proof.
  intros (Hnd & Hall).
  pose proof (deleteChat_saved toLocaleDateString today storage chatId st)
    as P.
  apply (Permutation_map id), Permutation_sym in P.
  split.
  - apply (Permutation_NoDup P). now apply ids_filter_nodup.
  - apply (Permutation_Forall P).
    rewrite Forall_forall in *. intros i Hi.
    apply Hall. exact (ids_filter_in _ _ _ Hi).
Qed.

(** A deletion whose storage call is rejected keeps the panel well
    identified when the deleted thread is not the current one. *)
Lemma deleteChat_rejected_ok (toLocaleDateString : Z -> jsstring)
    (today : Z) (msg chatId : jsstring) (st : panel) :
  opt_str_eqb (currentChatId st) chatId = false ->
  panel_ok st ->
  panel_ok (deleteChat toLocaleDateString today (StorageError msg) chatId st).
Proof.
  intros E Hok.
  destruct (deleteChat_threads_ok toLocaleDateString today
              (StorageError msg) chatId st (panel_ok_threads st Hok))
    as [H1 H2].
  split; [exact H1|]. split; [exact H2|].
  destruct Hok as (_ & _ & Hcur).
  unfold deleteChat; cbv zeta.
  rewrite storage_catch_chatId, storage_catch_saved.
  cbn [currentChatId savedChats with_savedChats].
  destruct (currentChatId st) as [cid|]; [|exact I].
  cbn [opt_str_eqb] in E. unfold ids in *.
  apply in_map_iff in Hcur as (c & Hc & Hin).
  apply in_map_iff. exists c. split; [exact Hc|].
  apply filter_In. split; [exact Hin|]. now rewrite Hc, E.
Qed.

(** X14.  Through every sequence of events (sending with any outcome,
    selecting a thread, deleting a thread with either outcome of the
    storage call, starting a new chat) the saved threads keep distinct,
    non-empty identifiers, as long as each sending gets from the clock an
    identifier that is not in use.  The current identifier keeps naming
    one of the saved threads as long as, in addition, no deletion of the
    current thread has its storage call rejected. *)
Theorem panel_events_keep_threads_identified
    (toLocaleDateString : Z -> jsstring) (today : Z)
    (events : list panel_event) :
  forall st : panel,
    panel_ok st ->
    clock_fresh toLocaleDateString today st events ->
    threads_ok (panel_run toLocaleDateString today st events) /\
    (deletes_stored toLocaleDateString today st events ->
     panel_ok (panel_run toLocaleDateString today st events)).
Proof.
  intros st Hok Hfresh. split.
  - apply panel_ok_threads in Hok. revert st Hok Hfresh. unfold panel_run.
    induction events as [|e events IH]; intros st Hok Hfresh; [exact Hok|].
    cbn [fold_left]. destruct Hfresh as [He Hrest].
    apply IH; [|exact Hrest].
    destruct e as [input attached key reply clock storage|chatId
                  |chatId storage|]; cbn [panel_step].
    + apply sendMessage_threads_ok; [exact Hok|exact He].
    + unfold loadChat. destruct (find _ _); [|exact Hok].
      match goal with
      | |- threads_ok (fold_left ?f ?l ?a) =>
          destruct (fold_addMessage_keeps l a) as (_ & _ & H3)
      end.
      cbv zeta in H3. exact (threads_ok_same _ _ H3 Hok).
    + now apply deleteChat_threads_ok.
    + exact Hok.
  - revert st Hok Hfresh. unfold panel_run.
    induction events as [|e events IH]; intros st Hok Hfresh Hdel;
      [exact Hok|].
    cbn [fold_left]. destruct Hfresh as [He Hrest].
    destruct Hdel as [Hd Hdrest].
    apply IH; [|exact Hrest|exact Hdrest].
    destruct e as [input attached key reply clock storage|chatId
                  |chatId storage|]; cbn [panel_step].
    + apply sendMessage_ok; [exact Hok|exact He].
    + now apply loadChat_ok.
    + destruct storage as [|msg].
      * now apply deleteChat_ok.
      * now apply deleteChat_rejected_ok.
    + now apply startNewChat_ok.
Qed.

Lemma panel_events_keep_threads_identified_witness :
  let clock1 := fun _ : nat => 1700000000000%Z in
  let clock2 := fun _ : nat => 1700000060000%Z in
  let events :=
    [Send (lit "first") None true (ReplyOk (lit "one")) clock1 StorageOk;
     NewChat;
     Send (lit "second") None true (ReplyOk (lit "two")) clock2 StorageOk;
     Select (lit "chat-1700000000000");
     Delete (lit "chat-1700000060000") (StorageError (lit "QUOTA_BYTES"))] in
  threads_ok (panel_run (fun _ => []) 0%Z panel_start events) /\
  (deletes_stored (fun _ => []) 0%Z panel_start events ->
   panel_ok (panel_run (fun _ => []) 0%Z panel_start events)).
Proof.
  apply (panel_events_keep_threads_identified (fun _ => []) 0%Z).
  - apply panel_start_ok.
  - vm_compute.
    repeat split; try (intros H; repeat destruct H as [H|H];
                       try discriminate H; exact H).
Defined.

(** ** Selecting, listing and naming threads *)

Lemma addMessage_turn (m : message) (st : panel) :
  addMessage (if str_eqb (role m) (lit "user")
              then lit "user" else lit "assistant")
             (content m) None st
  = with_shown (shown st ++ [turn_bubble m]) st.
Proof.
  unfold turn_bubble; cbv zeta.
  destruct (str_eqb (role m) (lit "user")) eqn:E.
  - unfold addMessage.
    change (str_eqb (lit "user") (lit "user")) with true. cbv iota.
    now rewrite user_html_escaped.
  - unfold addMessage, turn_html.
    change (str_eqb (lit "assistant") (lit "user")) with false.
    reflexivity.
Qed.

Lemma fold_addMessage_shown (l : list message) (acc : panel) :
  fold_left
    (fun acc msg =>
       addMessage (if str_eqb (role msg) (lit "user")
                   then lit "user" else lit "assistant")
                  (content msg) None acc) l acc
  = with_shown (shown acc ++ map turn_bubble l) acc.
Proof.
  revert acc; induction l as [|m l IH]; intros acc; cbn [fold_left map].
  - rewrite app_nil_r. destruct acc; reflexivity.
  - rewrite addMessage_turn, IH.
    cbn [shown with_shown]. rewrite <- app_assoc. reflexivity.
Qed.

(** X15.  Selecting a saved thread replaces what the panel shows by
    exactly one bubble per stored turn, in the order of the turns: user
    turns escaped, the others formatted; the welcome screen is hidden,
    the history is the stored turns and the thread becomes the current
    one.  Nothing else of the panel changes. *)
Theorem loadChat_shows_stored_turns (chatId : jsstring) (st : panel)
    (c : chat) :
  find (fun x => str_eqb (id x) chatId) (savedChats st) = Some c ->
  loadChat chatId st
  = with_shown (map turn_bubble (messages c))
      (with_welcome false
         (with_history (messages c) (with_chatId (Some chatId) st))).
Proof.
  intros H. unfold loadChat. rewrite H. cbv zeta.
  rewrite fold_addMessage_shown. reflexivity.
Qed.

Lemma loadChat_shows_stored_turns_witness :
  let turns := [Message (lit "user") (lit "a < b?");
                Message (lit "assistant") (lit "**yes**")] in
  let c := Chat (lit "chat-7") (lit "a < b?") turns 7%Z 7%Z in
  let st := with_savedChats [c] panel_start in
  loadChat (lit "chat-7") st
  = with_shown (map turn_bubble (messages c))
      (with_welcome false
         (with_history (messages c)
            (with_chatId (Some (lit "chat-7")) st))).
Proof.
  apply (loadChat_shows_stored_turns (lit "chat-7")
           (with_savedChats
              [Chat (lit "chat-7") (lit "a < b?")
                    [Message (lit "user") (lit "a < b?");
                     Message (lit "assistant") (lit "**yes**")] 7%Z 7%Z]
              panel_start)).
  reflexivity.
Defined.

Lemma find_none_by_id (chatId : jsstring) (l : list chat) :
  (forall c, In c l -> id c <> chatId) ->
  find (fun x => str_eqb (id x) chatId) l = None.
Proof.
  induction l as [|a l IH]; intros H; cbn [find]; [reflexivity|].
  destruct (str_eqb (id a) chatId) eqn:E.
  - apply str_eqb_eq in E. exfalso. apply (H a); [now left|exact E].
  - apply IH. intros c Hc. apply H. now right.
Qed.

(** X16.  A deleted thread cannot be selected any more: after
    [deleteChat], with either outcome of the storage call, [loadChat]
    with the same identifier changes nothing, even when several saved
    threads had that identifier. *)
Theorem loadChat_after_deleteChat
    (toLocaleDateString : Z -> jsstring) (today : Z) (storage : storage_result)
    (chatId : jsstring) (st : panel) :
  loadChat chatId (deleteChat toLocaleDateString today storage chatId st)
  = deleteChat toLocaleDateString today storage chatId st.
Proof.
  unfold loadChat.
  rewrite find_none_by_id; [reflexivity|].
  intros c Hin.
  pose proof (deleteChat_saved toLocaleDateString today storage chatId st) as P.
  apply (Permutation_in c P) in Hin.
  apply filter_In in Hin as [_ Hb].
  apply negb_true_iff in Hb. now apply str_eqb_neq.
Qed.

Lemma sort_by_update_sorted_id (l : list chat) :
  StronglySorted newer_first l -> sort_by by_update l = l.
Proof.
  induction 1 as [|x l Hs IH Hall]; [reflexivity|].
  cbn [sort_by fold_right] in *. fold (sort_by by_update l). rewrite IH.
  destruct l as [|y r]; [reflexivity|].
  cbn [insert_by]. unfold by_update at 1.
  inversion Hall as [|? ? Hxy _]; subst. unfold newer_first in Hxy.
  destruct (updatedAt y - updatedAt x <=? 0)%Z eqn:E; [reflexivity|].
  apply Z.leb_gt in E. lia.
Qed.

(** X17.  Rendering the thread list twice gives the same panel as
    rendering it once: the saved threads, once put in order, stay in that
    order, and the list shown is the same. *)
Theorem renderChatsList_twice
    (toLocaleDateString : Z -> jsstring) (today : Z) (st : panel) :
  renderChatsList toLocaleDateString today
    (renderChatsList toLocaleDateString today st)
  = renderChatsList toLocaleDateString today st.
Proof.
  destruct st as [h il hk cf cid sc ps sh w cl iv].
  unfold renderChatsList. cbn [savedChats].
  destruct sc as [|c l]; [reflexivity|].
  pose proof (sort_by_update_sorted (c :: l)) as Hs.
  pose proof (sort_by_perm by_update (c :: l)) as P.
  destruct (sort_by by_update (c :: l)) as [|c' l'] eqn:E'.
  - apply Permutation_nil in P. discriminate P.
  - cbn [savedChats with_chatsList with_savedChats conversationHistory
         isLoading hasApiKey currentFile currentChatId persisted shown
         welcomeShown chatsList inputValue].
    now rewrite (sort_by_update_sorted_id _ Hs).
Qed.

Lemma trim_start_length (s : jsstring) :
  (length (trim_start s) <= length s)%nat.
Proof.
  induction s as [|c s IH]; cbn [trim_start]; [lia|].
  destruct (is_space c); cbn [length]; lia.
Qed.

Lemma trim_length (s : jsstring) : (length (trim s) <= length s)%nat.
Proof.
  unfold trim. rewrite length_rev.
  pose proof (trim_start_length (rev (trim_start s))) as H.
  rewrite length_rev in H. pose proof (trim_start_length s). lia.
Qed.

(** A global replacement by the empty text never makes a text longer. *)
Lemma replace_from_empty_length (r : regex) :
  forall fuel s,
    (length (replace_from fuel r (expand []) s) <= length (after s))%nat.
Proof.
  induction fuel as [|n IH]; intros s; cbn [replace_from];
    [apply Nat.le_refl|].
  assert (Hadv : forall c t, after s = c :: t ->
            (length (c :: replace_from n r (expand []) (advance s))
             <= length (c :: t))%nat).
  { intros c t E. cbn [length]. apply le_n_S.
    pose proof (IH (advance s)) as H.
    unfold advance in H. rewrite E in H. cbn [after] in H.
    unfold advance. rewrite E. exact H. }
  destruct (match_here r s) as [e|].
  - cbv zeta. change (expand [] (consumed s e) (caps e)) with (@nil N).
    cbn [app].
    destruct (Nat.ltb _ _) eqn:L.
    + apply Nat.ltb_lt in L.
      eapply Nat.le_trans; [apply IH|apply Nat.lt_le_incl, L].
    + destruct (after s) as [|c t] eqn:E; [apply Nat.le_refl|].
      now apply Hadv.
  - destruct (after s) as [|c t] eqn:E; [apply Nat.le_refl|].
    now apply Hadv.
Qed.

Lemma or_else_bounds (a b : jsstring) (n : nat) :
  truthy b = true -> (length a <= n)%nat -> (length b <= n)%nat ->
  truthy (or_else a b) = true /\ (length (or_else a b) <= n)%nat.
Proof.
  intros Hb Ha Hn. unfold or_else.
  destruct (truthy a) eqn:E; split; assumption.
Qed.

Lemma new_title_bounds (firstUserMsg : option message) :
  let t :=
    or_else
      (trim (replace_all re_attached []
               (opt_or (option_map
                          (fun m => js_slice 0 (Some 50%Z) (content m))
                          firstUserMsg)
                       (lit "New Chat"))))
      (lit "New Chat") in
  truthy t = true /\ (length t <= 50)%nat.
Proof.
  cbv zeta. apply or_else_bounds; [reflexivity| |cbn; lia].
  eapply Nat.le_trans; [apply trim_length|].
  unfold replace_all, replace_with.
  eapply Nat.le_trans; [apply replace_from_empty_length|].
  cbn [after].
  destruct firstUserMsg as [m|]; cbn [option_map opt_or]; [|cbn; lia].
  apply or_else_bounds; [reflexivity| |cbn; lia].
  pose proof (js_slice_length_le 50 (content m) ltac:(lia)). lia.
Qed.

(** X18.  Saving a conversation that has no identifier yet adds exactly
    one thread and leaves the others as they are.  The new thread has
    the identifier made from the clock, the turns of the conversation,
    and a title that is never empty and never longer than 50 code
    units. *)
Theorem saveCurrentChat_new_thread
    (toLocaleDateString : Z -> jsstring) (today : Z) (now : nat -> Z)
    (storage : storage_result) (st : panel) :
  conversationHistory st <> [] ->
  currentChatId st = None ->
  let st' := saveCurrentChat toLocaleDateString today now storage st in
  exists c,
    Permutation (savedChats st') (c :: savedChats st) /\
    currentChatId st' = Some (id c) /\
    id c = new_id now /\
    messages c = conversationHistory st /\
    createdAt c = now 1%nat /\ updatedAt c = now 2%nat /\
    truthy (title c) = true /\ (length (title c) <= 50)%nat.
Proof.
  intros Hne Hcur. unfold saveCurrentChat.
  destruct (conversationHistory st) as [|m h] eqn:EH; [contradiction|].
  cbv zeta. rewrite <- EH, Hcur. clear Hne.
  match goal with
  | |- context [with_savedChats (savedChats st ++ [?c]) ?s] =>
      exists c; set (new := c)
  end.
  assert (Hperm : forall st1, savedChats st1 = savedChats st ++ [new] ->
            Permutation
              (savedChats
                 (match storage with
                  | StorageOk =>
                      renderChatsList toLocaleDateString today
                                      (storage_set st1)
                  | StorageError msg => storage_catch msg st1
                  end))
              (new :: savedChats st)).
  { intros st1 H1. destruct storage.
    - eapply perm_trans; [apply renderChatsList_saved|].
      cbn [savedChats storage_set with_persisted]. rewrite H1.
      apply Permutation_sym, Permutation_cons_append.
    - rewrite storage_catch_saved, H1.
      apply Permutation_sym, Permutation_cons_append. }
  split; [apply Hperm; reflexivity|].
  split.
  { destruct storage;
      [rewrite renderChatsList_chatId|rewrite storage_catch_chatId];
      reflexivity. }
  subst new. cbn [id messages createdAt updatedAt title].
  repeat split; apply new_title_bounds.
Qed.

Lemma saveCurrentChat_new_thread_witness :
  let st := with_history [Message (lit "user") (lit "hello")] panel_start in
  let st' := saveCurrentChat (fun _ => lit "1/1/2024") 0%Z
                             (fun n => Z.of_nat n) StorageOk st in
  exists c,
    Permutation (savedChats st') (c :: savedChats st) /\
    currentChatId st' = Some (id c) /\
    id c = new_id (fun n => Z.of_nat n) /\
    messages c = conversationHistory st /\
    createdAt c = 1%Z /\ updatedAt c = 2%Z /\
    truthy (title c) = true /\ (length (title c) <= 50)%nat.
Proof.
  apply (saveCurrentChat_new_thread (fun _ => lit "1/1/2024") 0%Z
           (fun n => Z.of_nat n) StorageOk
           (with_history [Message (lit "user") (lit "hello")] panel_start)).
  - discriminate.
  - reflexivity.
Defined.

(* ================================================================== *)
(** * Further properties of the background script                      *)
(* ================================================================== *)

(** ** The answer to a chat message *)

Lemma opt_or_truthy (a : option jsstring) (b : jsstring) :
  truthy b = true -> truthy (opt_or a b) = true.
Proof.
  intros Hb. destruct a as [[|c a]|]; cbn; try exact Hb. reflexivity.
Qed.

(** X19.  The background script answers a chat message with at most one
    request.  Without a credential in the settings nothing is sent and
    the answer is the notice that the key is not configured.  With one,
    exactly one request goes to the chat endpoint; its turns are the
    system turn, which holds the page content, then the history, then
    the user's message; and a successful answer is never an empty
    text. *)
Theorem on_chat_sends_one_request_with_the_page
    (net : request -> fetch_result (option jsstring))
    (stored : option Background.settings)
    (page_content userMessage : jsstring)
    (history : option (list message)) :
  let s := getSettings stored in
  let r := on_chat net stored page_content userMessage history in
  let turns :=
    Message (lit "system") (Background.system_content s page_content)
    :: match history with Some h => h | None => [] end
       ++ [Message (lit "user") userMessage] in
  includes (Background.system_content s page_content) page_content = true /\
  if truthy (Background.apiKey s)
  then
    fst r = [Request Background.chat_endpoint (lit "POST")
               (lit "Bearer " ++ Background.apiKey s)
               (Some (ChatBody (Background.model s) turns
                               (Background.maxTokens s) 7))]
    /\ match snd r with
       | ReplyOk text => truthy text = true
       | ReplyError (Some _) => True
       | _ => False
       end
  else
    r = ([], ReplyError (Some (lit "API key not configured. Click the gear icon to add your OpenAI API key."))).
Proof.
  cbv zeta. split.
  { unfold Background.system_content.
    do 10 apply includes_app_r. apply includes_app_l, includes_self. }
  unfold on_chat, Background.handleChatMessage, Background.callOpenAI.
  destruct (truthy (Background.apiKey (getSettings stored)));
    cbn [negb]; cbv zeta; [|reflexivity].
  destruct (net _) as [msg|st em|payload]; cbn [fst snd];
    (split; [reflexivity|]); try exact I.
  apply opt_or_truthy. reflexivity.
Qed.

(** ** Keeping the current tab up to date *)

Ltac tab_cases tabs_get extract :=
  repeat match goal with
  | |- context [match tabs_get ?n with _ => _ end] =>
      destruct (tabs_get n) as [?tab|] eqn:?
  | |- context [negb (truthy (Background.t_url ?t))
                || negb (starts_with (lit "http") (Background.t_url ?t))] =>
      destruct (negb (truthy (Background.t_url t))
                || negb (starts_with (lit "http") (Background.t_url t)))
        eqn:?
  | |- context [Background.has_content (extract ?n)] =>
      destruct (Background.has_content (extract n)) eqn:?;
      cbn [negb andb Nat.ltb Nat.leb]
  end.

(** X20.  A run of [updateActiveTabData] extracts the page at most three
    times, at the attempts 0, 1, 2 in this order, and more fuel changes
    nothing.  It either leaves the current tab as it was and tells the
    panel nothing, or it records the tab under the given identifier with
    a content that is not empty and tells the panel once, with the data
    of the tab it recorded. *)
Theorem update_tab_tries_at_most_three
    (tabs_get : nat -> option Background.tab_info)
    (extract : nat -> option Background.extracted) (now : nat -> Z)
    (tabId : Z) (cur : Background.current_tab) (extra : nat) :
  let r := update_tab tabs_get extract now tabId cur in
  Background.updateActiveTabData (3 + extra) tabs_get extract now tabId 0 cur
  = r /\
  (exists n, (n <= 3)%nat /\ Background.run_extracted r = seq 0 n) /\
  (Background.run_sent r = [] /\ Background.run_tab r = cur
   \/ Background.run_sent r
      = [Background.broadcastTabUpdate (Background.run_tab r)]
      /\ Background.ct_tabId (Background.run_tab r) = Some tabId
      /\ truthy (Background.ct_content (Background.run_tab r)) = true).
Proof.
  cbv zeta. unfold update_tab.
  cbn [Nat.add Background.updateActiveTabData].
  tab_cases tabs_get extract;
    cbn [Background.run_tab Background.run_sent Background.run_extracted
         Background.ct_tabId Background.ct_content];
    (split; [reflexivity|]);
    (split;
     [first [ exists 0%nat; split; [lia|reflexivity]
            | exists 1%nat; split; [lia|reflexivity]
            | exists 2%nat; split; [lia|reflexivity]
            | exists 3%nat; split; [lia|reflexivity] ]
     |]);
    first [ left; split; reflexivity
          | right; split; [reflexivity|];
            split; [reflexivity|];
            first [ reflexivity | apply formatContentForAI_not_empty ] ].
Qed.

(** X21.  A tab whose address does not start with [http] (an internal
    page of the browser, or a tab without address) is never extracted:
    the content recorded for it is the notice that internal pages cannot
    be analysed, no page data is kept, and the panel is told that the
    tab has no content. *)
Theorem internal_page_is_never_extracted
    (tabs_get : nat -> option Background.tab_info)
    (extract : nat -> option Background.extracted) (now : nat -> Z)
    (tabId : Z) (cur : Background.current_tab) (tab : Background.tab_info) :
  tabs_get 0%nat = Some tab ->
  starts_with (lit "http") (Background.t_url tab) = false ->
  let r := update_tab tabs_get extract now tabId cur in
  Background.run_extracted r = [] /\
  Background.ct_content (Background.run_tab r) = Background.internal_notice /\
  Background.ct_rawData (Background.run_tab r) = None /\
  Background.ct_url (Background.run_tab r) = Background.t_url tab /\
  exists u, Background.run_sent r = [u] /\ Background.u_hasContent u = false.
Proof.
  intros Hget Hurl. cbv zeta. unfold update_tab.
  cbn [Background.updateActiveTabData]. rewrite Hget, Hurl.
  cbn [negb]. rewrite orb_true_r.
  cbn [Background.run_tab Background.run_sent Background.run_extracted
       Background.ct_content Background.ct_rawData Background.ct_url].
  repeat split.
  - unfold or_else. now destruct (Background.t_url tab).
  - eexists. split; reflexivity.
Qed.

Lemma internal_page_is_never_extracted_witness :
  let tab := Background.TabInfo (lit "chrome://extensions")
                                (lit "Extensions") [] in
  let r := update_tab (fun _ => Some tab) (fun _ => None)
                      (fun n => Z.of_nat n) 7%Z
                      Background.current_tab_start in
  Background.run_extracted r = [] /\
  Background.ct_content (Background.run_tab r) = Background.internal_notice /\
  Background.ct_rawData (Background.run_tab r) = None /\
  Background.ct_url (Background.run_tab r) = Background.t_url tab /\
  exists u, Background.run_sent r = [u] /\ Background.u_hasContent u = false.
Proof.
  apply (internal_page_is_never_extracted
           (fun _ => Some (Background.TabInfo (lit "chrome://extensions")
                                              (lit "Extensions") []))
           (fun _ => None) (fun n => Z.of_nat n) 7%Z
           Background.current_tab_start
           (Background.TabInfo (lit "chrome://extensions")
                               (lit "Extensions") [])).
  - reflexivity.
  - reflexivity.
Defined.

(** The context text of an extracted record is longer than 100 code
    units, whatever the record holds; the notice for a failed extraction
    is shorter. *)
Lemma formatContentForAI_length (data : option Background.extracted) :
  Nat.ltb 100 (length (Background.formatContentForAI data))
  = match data with Some _ => true | None => false end.
Proof.
  destruct data as [d|]; [|reflexivity].
  apply Nat.ltb_lt.
  unfold Background.formatContentForAI, Background.header_section.
  rewrite <- !app_assoc. rewrite (length_app (Background.rule 64)).
  assert (H : length (Background.rule 64) = 128%nat) by reflexivity.
  rewrite H. apply Nat.lt_lt_add_r. repeat constructor.
Qed.

(** X22.  For a tab with an [http] address the page is extracted again
    until an attempt gives enough content or the third attempt is made;
    what is recorded and formatted is the result of that last attempt,
    stamped with its time, and the panel is told once.  The panel is
    told that the tab has content exactly when that attempt returned a
    record, whatever the record holds. *)
Theorem update_tab_retries_until_content
    (tabs_get : nat -> option Background.tab_info)
    (extract : nat -> option Background.extracted) (now : nat -> Z)
    (tabId : Z) (cur : Background.current_tab) (tab : Background.tab_info) :
  (forall n, tabs_get n = Some tab) ->
  starts_with (lit "http") (Background.t_url tab) = true ->
  let r := update_tab tabs_get extract now tabId cur in
  exists k, (k <= 2)%nat /\
    Background.run_extracted r = seq 0 (S k) /\
    (forall j, (j < k)%nat -> Background.has_content (extract j) = false) /\
    ((k < 2)%nat -> Background.has_content (extract k) = true) /\
    Background.ct_rawData (Background.run_tab r) = extract k /\
    Background.ct_content (Background.run_tab r)
    = Background.formatContentForAI (extract k) /\
    Background.ct_lastUpdated (Background.run_tab r) = Some (now k) /\
    Background.run_sent r
    = [Background.broadcastTabUpdate (Background.run_tab r)] /\
    Background.u_hasContent
      (Background.broadcastTabUpdate (Background.run_tab r))
    = match extract k with Some _ => true | None => false end.
Proof.
  intros Hget Hurl. cbv zeta. unfold update_tab.
  assert (Hcond : negb (truthy (Background.t_url tab))
                  || negb (starts_with (lit "http") (Background.t_url tab))
                  = false).
  { rewrite Hurl. destruct (Background.t_url tab); [discriminate Hurl|].
    reflexivity. }
  cbn [Background.updateActiveTabData]. rewrite !Hget, Hcond.
  destruct (Background.has_content (extract 0%nat)) eqn:E0;
    cbn [negb andb Nat.ltb Nat.leb];
    [|destruct (Background.has_content (extract 1%nat)) eqn:E1;
      cbn [negb andb Nat.ltb Nat.leb]; rewrite ?andb_false_r];
    cbn [Background.run_tab Background.run_sent Background.run_extracted
         Background.ct_rawData Background.ct_content
         Background.ct_lastUpdated].
  - exists 0%nat.
    repeat split; try reflexivity; try lia;
      try apply formatContentForAI_length.
    intros; exact E0.
  - exists 1%nat.
    repeat split; try reflexivity; try lia;
      try apply formatContentForAI_length.
    + intros j Hj. destruct j; [exact E0|lia].
    + intros; exact E1.
  - exists 2%nat.
    repeat split; try reflexivity; try lia;
      try apply formatContentForAI_length.
    intros j Hj. destruct j as [|[|j]]; [exact E0|exact E1|lia].
Qed.

Lemma update_tab_retries_until_content_witness :
  let tab := Background.TabInfo (lit "https://example.test/")
                                (lit "Blank") [] in
  let extract := fun _ : nat => Some blank_page in
  let now := fun n => Z.of_nat n in
  let r := update_tab (fun _ => Some tab) extract now 7%Z
                      Background.current_tab_start in
  exists k, (k <= 2)%nat /\
    Background.run_extracted r = seq 0 (S k) /\
    (forall j, (j < k)%nat -> Background.has_content (extract j) = false) /\
    ((k < 2)%nat -> Background.has_content (extract k) = true) /\
    Background.ct_rawData (Background.run_tab r) = extract k /\
    Background.ct_content (Background.run_tab r)
    = Background.formatContentForAI (extract k) /\
    Background.ct_lastUpdated (Background.run_tab r) = Some (now k) /\
    Background.run_sent r
    = [Background.broadcastTabUpdate (Background.run_tab r)] /\
    Background.u_hasContent
      (Background.broadcastTabUpdate (Background.run_tab r))
    = match extract k with Some _ => true | None => false end.
Proof.
  apply (update_tab_retries_until_content
           (fun _ => Some (Background.TabInfo (lit "https://example.test/")
                                              (lit "Blank") []))
           (fun _ : nat => Some blank_page) (fun n => Z.of_nat n) 7%Z
           Background.current_tab_start
           (Background.TabInfo (lit "https://example.test/")
                               (lit "Blank") [])).
  - intros n. reflexivity.
  - reflexivity.
Defined.

(** ** What the extractors keep *)

Lemma js_slice_prefix {A : Type} (n : nat) (l : list A) :
  js_slice 0 (Some (Z.of_nat n)) l = firstn n l.
Proof.
  unfold js_slice, rel_index; cbv zeta.
  change (0 <? 0)%Z with false; cbv iota.
  destruct (Z.of_nat n <? 0)%Z eqn:E; [apply Z.ltb_lt in E; lia|].
  rewrite (Z.min_l 0) by lia. cbn [Z.to_nat skipn].
  destruct (Nat.le_gt_cases n (length l)) as [H|H].
  - rewrite Z.min_l by lia. rewrite Z.sub_0_r, Nat2Z.id. reflexivity.
  - rewrite Z.min_r by lia. rewrite Z.sub_0_r, Nat2Z.id.
    rewrite !firstn_all2 by lia. reflexivity.
Qed.

Lemma In_firstn {A : Type} (n : nat) (l : list A) (x : A) :
  In x (firstn n l) -> In x l.
Proof.
  intros H. rewrite <- (firstn_skipn n l). apply in_or_app. now left.
Qed.

Lemma Forall_concat_map {A B : Type} (P : B -> Prop) (f : A -> list B)
    (l : list A) :
  (forall a, In a l -> Forall P (f a)) -> Forall P (concat (map f l)).
Proof.
  intros H. induction l as [|a l IH]; cbn [map concat]; [constructor|].
  apply Forall_app. split.
  - apply H. now left.
  - apply IH. intros b Hb. apply H. now right.
Qed.

Lemma indexed_from_nth {A : Type} (l : list A) :
  forall k i x, In (i, x) (indexed_from k l) ->
                (k <= i)%nat /\ nth_error l (i - k) = Some x.
Proof.
  induction l as [|y l IH]; intros k i x H; cbn [indexed_from] in H;
    [contradiction|].
  destruct H as [H|H].
  - inversion H; subst. split; [apply Nat.le_refl|].
    rewrite Nat.sub_diag. reflexivity.
  - apply IH in H as [Hk Hn]. split; [lia|].
    replace (i - k)%nat with (S (i - S k)) by lia. exact Hn.
Qed.

Lemma extract_fields_kept (l : list Background.dom_field) :
  forall xs,
    Background.extract_fields l = Some xs ->
    length xs = length l /\
    Forall (fun fld =>
              (length (Background.f_label fld) <= 100)%nat /\
              (length (Background.f_value fld) <= 500)%nat)
           xs.
Proof.
  induction l as [|field l IH]; intros xs H;
    cbn [Background.extract_fields] in H.
  - inversion H. split; [reflexivity|constructor].
  - destruct (Background.extract_field field) as [x|] eqn:Ex; [|discriminate].
    destruct (Background.extract_fields l) as [rest|]; [|discriminate].
    inversion H; subst xs. destruct (IH rest eq_refl) as [Hl Hb].
    split; [cbn [length]; now rewrite Hl|].
    constructor; [|exact Hb].
    unfold Background.extract_field in Ex.
    destruct (Background.field_label field); [|discriminate].
    inversion Ex. cbn [Background.f_label Background.f_value].
    change 100%Z with (Z.of_nat 100). change 500%Z with (Z.of_nat 500).
    rewrite !js_slice_prefix, !length_firstn.
    split; apply Nat.le_min_l.
Qed.

Lemma extract_fields_thrown (l : list Background.dom_field) :
  Background.extract_fields l = None ->
  exists field, In field l /\ Background.field_label field = None.
Proof.
  induction l as [|field l IH]; cbn [Background.extract_fields];
    [discriminate|].
  unfold Background.extract_field at 1.
  destruct (Background.field_label field) eqn:El.
  - destruct (Background.extract_fields l); [discriminate|].
    intros _. destruct (IH eq_refl) as (x & Hx & Ex).
    exists x. split; [now right|exact Ex].
  - intros _. exists field. split; [now left|exact El].
Qed.

Lemma field_label_thrown (field : Background.dom_field) :
  Background.field_label field = None ->
  Background.labelFor field = Background.QueryThrows /\
  opt_or (Background.ariaLabel field) [] = [] /\
  Background.placeholder field = [] /\
  Background.name field = [].
Proof.
  unfold Background.field_label; cbv zeta.
  destruct (Background.ariaLabel field) as [[|c a]|]; cbn [opt_or];
    try discriminate;
    (destruct (Background.placeholder field) as [|c p]; [|discriminate]);
    (destruct (Background.name field) as [|c n]; [|discriminate]);
    cbn; (destruct (Background.labelFor field); try discriminate);
    repeat split.
Qed.

Lemma extract_forms_from_kept (l : list (nat * Background.dom_form)) :
  forall out,
    Background.extract_forms_from l = Some out ->
    (length out <= length (filter (fun x => Background.visible (snd x)) l))%nat
    /\
    Forall
      (fun f =>
         exists d,
           In (Background.form_index f, d) l /\
           Background.visible d = true /\
           Background.form_fields f <> [] /\
           Background.extract_fields (Background.fields d)
           = Some (Background.form_fields f))
      out.
Proof.
  induction l as [|[i d] l IH]; intros out H;
    cbn [Background.extract_forms_from] in H.
  - inversion H. split; [apply Nat.le_refl|constructor].
  - destruct (Background.extract_form (i, d)) as [kept|] eqn:Ek;
      [|discriminate].
    destruct (Background.extract_forms_from l) as [rest|]; [|discriminate].
    inversion H; subst out. destruct (IH rest eq_refl) as [Hl Hk].
    assert (Hrest :
              Forall
                (fun f =>
                   exists d0,
                     In (Background.form_index f, d0) ((i, d) :: l) /\
                     Background.visible d0 = true /\
                     Background.form_fields f <> [] /\
                     Background.extract_fields (Background.fields d0)
                     = Some (Background.form_fields f))
                rest).
    { eapply Forall_impl; [|exact Hk].
      intros f (d0 & Hin & Hrest). exists d0. split; [now right|exact Hrest]. }
    unfold Background.extract_form in Ek; cbn [fst snd] in Ek;
      cbv zeta in Ek.
    cbn [filter snd]. rewrite length_app.
    destruct (Background.visible d) eqn:Hv; cbn [negb] in Ek.
    + destruct (Background.extract_fields (Background.fields d))
        as [xs|] eqn:Ex; [|discriminate].
      cbn [Background.form_fields] in Ek.
      destruct (Background.nonempty xs) eqn:Hne; inversion Ek; subst kept;
        cbn [length app]; (split; [lia|]); [|exact Hrest].
      constructor; [|exact Hrest].
      exists d. cbn [Background.form_index Background.form_fields].
      split; [now left|]. split; [exact Hv|]. split; [|exact Ex].
      intros E. rewrite E in Hne. discriminate Hne.
    + inversion Ek; subst kept. cbn [length app]. split; [lia|exact Hrest].
Qed.

Lemma extract_forms_from_thrown (l : list (nat * Background.dom_form)) :
  Background.extract_forms_from l = None ->
  exists x field,
    In x l /\ Background.visible (snd x) = true /\
    In field (Background.fields (snd x)) /\
    Background.field_label field = None.
Proof.
  induction l as [|x l IH]; cbn [Background.extract_forms_from];
    [discriminate|].
  destruct (Background.extract_form x) as [kept|] eqn:Ek.
  - destruct (Background.extract_forms_from l); [discriminate|].
    intros _. destruct (IH eq_refl) as (y & field & Hy & Hrest).
    exists y, field. split; [now right|exact Hrest].
  - intros _. unfold Background.extract_form in Ek; cbv zeta in Ek.
    destruct (Background.visible (snd x)) eqn:Hv; cbn [negb] in Ek;
      [|discriminate].
    destruct (Background.extract_fields (Background.fields (snd x)))
      eqn:Ex; [discriminate|].
    apply extract_fields_thrown in Ex as (field & Hf & El).
    exists x, field. repeat split; try assumption. now left.
Qed.

Lemma visible_indexed {A : Type} (keep : A -> bool) (l : list A) :
  forall k,
    length (filter (fun x => keep (snd x)) (indexed_from k l))
    = length (filter keep l).
Proof.
  induction l as [|y l IH]; intros k; cbn [indexed_from filter snd];
    [reflexivity|].
  destruct (keep y); cbn [length]; now rewrite IH.
Qed.

(** X23.  The forms of the extracted record are only visible forms
    that have at least one field, under the position the form has among
    the forms of the document; no more forms than the visible ones; one
    entry for each field of the form; and of each field a label of at
    most 100 and a value of at most 500 code units.  They are the forms
    that [extractForms] returns.  It throws only at a field of a visible
    form that has an empty or no aria label, an empty placeholder and an
    empty name, and for which the query for the label naming it throws;
    then the extracted record has no form at all. *)
Theorem extractForms_keeps_visible_forms_with_bounded_fields
    (document_forms : list Background.dom_form) :
  let out := Background.extracted_forms document_forms in
  (length out <= length (filter Background.visible document_forms))%nat /\
  Forall
    (fun f =>
       Background.form_fields f <> [] /\
       (exists d,
          nth_error document_forms (Background.form_index f) = Some d /\
          Background.visible d = true /\
          length (Background.form_fields f) = length (Background.fields d))
       /\
       Forall (fun fld =>
                 (length (Background.f_label fld) <= 100)%nat /\
                 (length (Background.f_value fld) <= 500)%nat)
              (Background.form_fields f))
    out /\
  match Background.extractForms document_forms with
  | Some returned => out = returned
  | None =>
      out = [] /\
      exists d field,
        In d document_forms /\ Background.visible d = true /\
        In field (Background.fields d) /\
        Background.labelFor field = Background.QueryThrows /\
        opt_or (Background.ariaLabel field) [] = [] /\
        Background.placeholder field = [] /\
        Background.name field = []
  end.
Proof.
  cbv zeta. unfold Background.extracted_forms.
  destruct (Background.extractForms document_forms) as [out|] eqn:E;
    unfold Background.extractForms, indexed in E.
  - apply extract_forms_from_kept in E as [Hl Hk].
    rewrite visible_indexed in Hl. split; [exact Hl|].
    split; [|reflexivity].
    eapply Forall_impl; [|exact Hk].
    intros f (d & Hin & Hv & Hne & Ex).
    apply indexed_from_nth in Hin as [_ Hn]. rewrite Nat.sub_0_r in Hn.
    apply extract_fields_kept in Ex as [Hlen Hb].
    split; [exact Hne|]. split; [|exact Hb].
    exists d. repeat split; assumption.
  - split; [apply Nat.le_0_l|]. split; [constructor|].
    split; [reflexivity|].
    apply extract_forms_from_thrown in E
      as ([i d] & field & Hin & Hv & Hf & El).
    cbn [snd] in Hv, Hf.
    apply indexed_from_nth in Hin as [_ Hn]. apply nth_error_In in Hn.
    exists d, field. split; [exact Hn|]. split; [exact Hv|].
    split; [exact Hf|]. now apply field_label_thrown.
Qed.

(** A field with no aria label, placeholder or name, whose [id] makes
    the selector of the query invalid: [extractForms] throws at it, and
    the login form that precedes it in the document is lost from the
    extracted record as well. *)
Lemma extractForms_loses_every_form_when_query_throws :
  let unnamed :=
    Background.DomField (lit "text") (lit "INPUT") [] false None None [] []
                        Background.QueryThrows None in
  let document_forms :=
    login_form (lit "hunter2")
    ++ [Background.DomForm true (lit "https://example.test/search")
                           [unnamed]] in
  Background.extractForms (login_form (lit "hunter2")) <> None /\
  Background.extractForms document_forms = None /\
  Background.extracted_forms document_forms = [].
Proof. vm_compute. repeat split. discriminate. Qed.

Lemma link_of_kept (a : Background.dom_anchor) (l : Background.link) :
  In l (Background.link_of a) ->
  Background.a_visible a = true /\
  Background.l_href l = Background.a_href a /\
  truthy (Background.l_text l) = true /\
  (length (Background.l_text l) <= 200)%nat /\
  truthy (Background.l_href l) = true /\
  starts_with (lit "javascript:") (Background.l_href l) = false.
Proof.
  unfold Background.link_of; cbv zeta.
  destruct (Background.a_visible a); cbn [negb]; [|contradiction].
  destruct (truthy (js_slice 0 (Some 200%Z) _)) eqn:Ht;
    cbn [andb]; [|contradiction].
  destruct (truthy (Background.a_href a)) eqn:Hh;
    cbn [andb]; [|contradiction].
  destruct (starts_with _ _) eqn:Hj; cbn [negb]; [contradiction|].
  intros [<-|[]]. cbn [Background.l_text Background.l_href].
  repeat split; try assumption.
  change 200%Z with (Z.of_nat 200).
  rewrite js_slice_prefix, length_firstn. apply Nat.le_min_l.
Qed.

Lemma list_item_text_kept (item : Background.dom_node) (t : jsstring) :
  In t (Background.list_item_text item) ->
  truthy t = true /\ (length t < 500)%nat.
Proof.
  unfold Background.list_item_text; cbv zeta.
  destruct (truthy _) eqn:Ht; cbn [andb]; [|contradiction].
  destruct (Nat.ltb _ _) eqn:Hl; [|contradiction].
  intros [<-|[]]. split; [exact Ht|]. now apply Nat.ltb_lt.
Qed.

(** X24.  [extractLinks] keeps at most 150 links, each of a visible
    anchor, with a text that is not empty and at most 200 code units long
    and an address that is not empty and does not start with
    [javascript:].  [extractLists] keeps at most 20 lists, each with at
    least one and at most 50 items, every item not empty and shorter than
    500 code units. *)
Theorem extractLinks_and_extractLists_bounds
    (anchors : list Background.dom_anchor)
    (document_lists : list Background.dom_list) :
  ((length (Background.extractLinks anchors) <= 150)%nat /\
   Forall
     (fun l =>
        (exists a, In a anchors /\ Background.a_visible a = true /\
                   Background.l_href l = Background.a_href a) /\
        truthy (Background.l_text l) = true /\
        (length (Background.l_text l) <= 200)%nat /\
        truthy (Background.l_href l) = true /\
        starts_with (lit "javascript:") (Background.l_href l) = false)
     (Background.extractLinks anchors)) /\
  ((length (Background.extractLists document_lists) <= 20)%nat /\
   Forall
     (fun pl =>
        Background.l_items pl <> [] /\
        (length (Background.l_items pl) <= 50)%nat /\
        Forall (fun t => truthy t = true /\ (length t < 500)%nat)
               (Background.l_items pl))
     (Background.extractLists document_lists)).
Proof.
  unfold Background.extractLinks, Background.extractLists.
  change 150%Z with (Z.of_nat 150). change 20%Z with (Z.of_nat 20).
  rewrite !js_slice_prefix. split; split.
  - rewrite length_firstn. apply Nat.le_min_l.
  - apply Forall_forall. intros l Hl. apply In_firstn in Hl.
    apply in_concat in Hl as (ls & Hls & Hl).
    apply in_map_iff in Hls as (a & <- & Ha).
    apply link_of_kept in Hl as (Hv & Hh & Ht & Hlen & Hne & Hj).
    split; [exists a; repeat split; assumption|].
    repeat split; assumption.
  - rewrite length_firstn. apply Nat.le_min_l.
  - apply Forall_forall. intros pl Hpl. apply In_firstn in Hpl.
    apply in_concat in Hpl as (ls & Hls & Hpl).
    apply in_map_iff in Hls as ([i dl] & <- & _).
    unfold Background.list_of in Hpl; cbn [fst snd] in Hpl;
      cbv zeta in Hpl.
    destruct (Background.dl_visible dl); cbn [negb] in Hpl;
      [|contradiction].
    destruct (concat (map Background.list_item_text
                          (Background.dl_items dl)))
      as [|t items] eqn:E; cbn [Background.nonempty] in Hpl;
      [contradiction|].
    destruct Hpl as [<-|[]]. cbn [Background.l_items].
    change 50%Z with (Z.of_nat 50). rewrite js_slice_prefix.
    split; [cbn [firstn]; discriminate|].
    split; [rewrite length_firstn; apply Nat.le_min_l|].
    apply Forall_forall. intros u Hu. apply In_firstn in Hu.
    rewrite <- E in Hu. apply in_concat in Hu as (us & Hus & Hu).
    apply in_map_iff in Hus as (item & <- & _).
    now apply list_item_text_kept in Hu.
Qed.

(** ** The selection sent by the content script *)

Lemma js_substring_prefix (n : nat) (s : jsstring) :
  js_substring 0 (Z.of_nat n) s = firstn n s.
Proof.
  unfold js_substring, clamp; cbv zeta.
  rewrite (Z.max_r 0 0) by lia. rewrite (Z.min_l 0) by lia.
  rewrite (Z.max_l (Z.of_nat n) 0) by lia.
  rewrite (Z.min_l 0) by lia. rewrite Z.max_r by lia.
  rewrite Z.sub_0_r. cbn [Z.to_nat skipn].
  destruct (Nat.le_gt_cases n (length s)) as [H|H].
  - rewrite Z.min_l by lia. rewrite Nat2Z.id. reflexivity.
  - rewrite Z.min_r by lia. rewrite Nat2Z.id.
    rewrite !firstn_all2 by lia. reflexivity.
Qed.

(** X25.  When the content script reports a selection, the reported text
    is the start of the trimmed selection, longer than 10 and at most 500
    code units long. *)
Theorem on_mouseup_reports_bounded_selection
    (selection : option jsstring) (t : jsstring) :
  Background.on_mouseup selection = Some t ->
  (10 < length t)%nat /\ (length t <= 500)%nat /\
  exists s, selection = Some s /\ t = firstn 500 (trim s).
Proof.
  unfold Background.on_mouseup.
  destruct selection as [s|]; cbn [option_map]; [|discriminate].
  destruct (truthy (trim s)); cbn [andb]; [|discriminate].
  destruct (Nat.ltb 10 (length (trim s))) eqn:L; [|discriminate].
  apply Nat.ltb_lt in L. intros H. inversion H as [Ht]. clear H.
  change 500%Z with (Z.of_nat 500). rewrite js_substring_prefix.
  rewrite length_firstn.
  split; [apply Nat.min_glb_lt; [repeat constructor|exact L]|].
  split; [apply Nat.le_min_l|].
  exists s. split; reflexivity.
Qed.

Lemma on_mouseup_reports_bounded_selection_witness :
  let t := lit "a selected sentence" in
  (10 < length t)%nat /\ (length t <= 500)%nat /\
  exists s, Some (lit "  a selected sentence ") = Some s /\
            t = firstn 500 (trim s).
Proof.
  apply (on_mouseup_reports_bounded_selection
           (Some (lit "  a selected sentence ")) (lit "a selected sentence")).
  reflexivity.
Defined.

(* ================================================================== *)
(** * Further properties of the options script                         *)
(* ================================================================== *)

(** ** What the page stores *)

Lemma or_else_truthy (a b : jsstring) :
  truthy b = true -> truthy (or_else a b) = true.
Proof. intros Hb. unfold or_else. now destruct (truthy a) eqn:E. Qed.

(** The settings that [saveSettings] stores when every check passes and
    the storage call succeeds. *)
Lemma saveSettings_done (storage_error : option jsstring)
    (o : Options.options) (note : jsstring) :
  Options.status (Options.saveSettings storage_error o)
  = Some (note, lit "success") ->
  exists s,
    Options.storedSettings (Options.saveSettings storage_error o) = Some s /\
    Background.apiKey s = trim (Options.apiKeyField o) /\
    starts_with (lit "sk-") (Background.apiKey s) = true /\
    Background.model s = Options.modelField o /\
    truthy (Background.model s) = true /\
    (100 <= Background.maxTokens s <= 16000)%Z /\
    truthy (Background.systemPrompt s) = true.
Proof.
  unfold Options.saveSettings; cbv zeta.
  destruct (starts_with (lit "sk-") (trim (Options.apiKeyField o))) eqn:Hp;
    destruct (truthy (trim (Options.apiKeyField o))) eqn:Hk;
    cbn [negb andb]; try (cbn [Options.showStatus Options.status];
                          intros H; discriminate H).
  destruct (truthy (Options.modelField o)) eqn:Hm; cbn [negb];
    [|cbn [Options.showStatus Options.status]; intros H; discriminate H].
  match goal with
  | |- context [(?m <? 100)%Z] => set (cap := m)
  end.
  destruct ((cap <? 100)%Z || (16000 <? cap)%Z) eqn:Hc;
    [cbn [Options.showStatus Options.status]; intros H; discriminate H|].
  apply orb_false_iff in Hc as [H1 H2].
  apply Z.ltb_ge in H1. apply Z.ltb_ge in H2.
  destruct storage_error as [msg|];
    [cbn [Options.showStatus Options.status]; intros H; discriminate H|].
  intros _. eexists. split; [reflexivity|].
  cbn [Background.apiKey Background.model Background.maxTokens
       Background.systemPrompt].
  repeat split; try assumption.
  apply or_else_truthy. reflexivity.
Qed.

(** X26.  [saveSettings] always shows a status.  When the status is a
    success, the stored settings hold the trimmed credential, which
    starts with [sk-], the selected model, which is not empty, a token
    limit between 100 and 16000, and instructions that are not empty; in
    every other case what is stored stays as it was. *)
Theorem saveSettings_stores_only_checked_settings
    (storage_error : option jsstring) (o : Options.options) :
  let o' := Options.saveSettings storage_error o in
  match Options.status o' with
  | Some (_, kind) =>
      if str_eqb kind (lit "success")
      then exists s,
             Options.storedSettings o' = Some s /\
             Background.apiKey s = trim (Options.apiKeyField o) /\
             starts_with (lit "sk-") (Background.apiKey s) = true /\
             Background.model s = Options.modelField o /\
             truthy (Background.model s) = true /\
             (100 <= Background.maxTokens s <= 16000)%Z /\
             truthy (Background.systemPrompt s) = true
      else Options.storedSettings o' = Options.storedSettings o
  | None => False
  end.
Proof.
  cbv zeta.
  destruct (Options.status (Options.saveSettings storage_error o))
    as [[note kind]|] eqn:E.
  - destruct (str_eqb kind (lit "success")) eqn:K.
    + apply str_eqb_eq in K. subst kind.
      exact (saveSettings_done storage_error o note E).
    + revert E K. unfold Options.saveSettings; cbv zeta.
      repeat match goal with
      | |- context [if ?c then _ else _] => destruct c
      | |- context [match storage_error with _ => _ end] =>
          destruct storage_error
      end;
        cbn [Options.showStatus Options.status Options.storedSettings];
        intros E K; try reflexivity.
      inversion E; subst kind. discriminate K.
  - revert E. unfold Options.saveSettings; cbv zeta.
    repeat match goal with
    | |- context [if ?c then _ else _] => destruct c
    | |- context [match storage_error with _ => _ end] =>
        destruct storage_error
    end; cbn [Options.showStatus Options.status]; intros E; discriminate E.
Qed.

Lemma starts_with_app_both (p a b : jsstring) :
  starts_with (p ++ a) (p ++ b) = starts_with a b.
Proof.
  induction p as [|x p IH]; [reflexivity|].
  cbn [app starts_with]. now rewrite N.eqb_refl, IH.
Qed.

(** X27.  Settings that the options page saved with success are settings
    the background script can use: the next chat message makes exactly
    one request to the chat endpoint, authorised with the trimmed
    credential of the page, which starts with [sk-], for the model of
    the page and with a token limit between 100 and 16000. *)
Theorem saved_settings_reach_the_chat_request
    (net : request -> fetch_result (option jsstring))
    (storage_error : option jsstring) (o : Options.options)
    (note page_content userMessage : jsstring)
    (history : option (list message)) :
  let o' := Options.saveSettings storage_error o in
  Options.status o' = Some (note, lit "success") ->
  exists req body,
    fst (on_chat net (Options.storedSettings o') page_content userMessage
                 history) = [req] /\
    req_url req = Background.chat_endpoint /\
    req_authorization req = lit "Bearer " ++ trim (Options.apiKeyField o) /\
    starts_with (lit "Bearer sk-") (req_authorization req) = true /\
    req_body req = Some body /\
    body_model body = Options.modelField o /\
    (100 <= body_max_tokens body <= 16000)%Z.
Proof.
  cbv zeta. intros H.
  destruct (saveSettings_done storage_error o note H)
    as (s & Hst & Hkey & Hsk & Hmodel & _ & Hcap & _).
  rewrite Hst. unfold on_chat, Background.handleChatMessage.
  cbn [getSettings fst].
  rewrite callOpenAI_sends_any_key
    by (intros E; rewrite E in Hsk; discriminate Hsk).
  eexists. eexists. split; [reflexivity|].
  cbn [req_url req_authorization req_body body_model body_max_tokens].
  rewrite <- Hkey, <- Hmodel.
  repeat split; try apply Hcap.
  change (lit "Bearer sk-") with (lit "Bearer " ++ lit "sk-").
  rewrite starts_with_app_both. exact Hsk.
Qed.

Lemma saved_settings_reach_the_chat_request_witness :
  let o := page_with_key " sk-test " in
  let net := fun _ : request => @HttpOk (option jsstring) None in
  exists req body,
    fst (on_chat net (Options.storedSettings (Options.saveSettings None o))
                 [] (lit "hello") None) = [req] /\
    req_url req = Background.chat_endpoint /\
    req_authorization req = lit "Bearer " ++ trim (Options.apiKeyField o) /\
    starts_with (lit "Bearer sk-") (req_authorization req) = true /\
    req_body req = Some body /\
    body_model body = Options.modelField o /\
    (100 <= body_max_tokens body <= 16000)%Z.
Proof.
  apply (saved_settings_reach_the_chat_request
           (fun _ => HttpOk None) None (page_with_key " sk-test ")
           (lit "Settings saved successfully!") [] (lit "hello") None).
  reflexivity.
Defined.

(** ** The model list *)

Section InsertionSort.

Variable A : Type.
Variable compare : A -> A -> Z.
Variable before_ : A -> A -> Prop.
Hypothesis before_trans :
  forall a b c, before_ a b -> before_ b c -> before_ a c.
Hypothesis compare_before :
  forall a b, (compare a b <= 0)%Z -> before_ a b.
Hypothesis compare_after :
  forall a b, (0 < compare a b)%Z -> before_ b a.

Lemma insert_by_sorted (x : A) (l : list A) :
  StronglySorted before_ l -> StronglySorted before_ (insert_by compare x l).
Proof.
  induction 1 as [|y l Hs IH Hall]; cbn [insert_by].
  - constructor; constructor.
  - destruct (compare x y <=? 0)%Z eqn:E.
    + apply Z.leb_le in E. apply compare_before in E.
      constructor; [constructor; assumption|].
      constructor; [exact E|].
      eapply Forall_impl; [|exact Hall].
      intros c Hc. exact (before_trans x y c E Hc).
    + apply Z.leb_gt in E. apply compare_after in E.
      constructor; [exact IH|].
      apply (Permutation_Forall
               (Permutation_sym (insert_by_perm compare x l))).
      constructor; [exact E|exact Hall].
Qed.

Lemma sort_by_sorted (l : list A) : StronglySorted before_ (sort_by compare l).
Proof.
  induction l as [|x l IH]; cbn [sort_by fold_right]; [constructor|].
  now apply insert_by_sorted.
Qed.

End InsertionSort.

Lemma listed_before_trans (a b c : Options.model_info) :
  listed_before a b -> listed_before b c -> listed_before a c.
Proof.
  unfold listed_before; cbv zeta.
  destruct (Options.priority a =? -1)%Z eqn:Ea;
    destruct (Options.priority b =? -1)%Z eqn:Eb;
    destruct (Options.priority c =? -1)%Z eqn:Ec;
    rewrite ?Z.eqb_eq, ?Z.eqb_neq in *; lia.
Qed.

Lemma compare_models_before (a b : Options.model_info) :
  (Options.compare_models a b <= 0)%Z -> listed_before a b.
Proof.
  unfold Options.compare_models, listed_before; cbv zeta.
  destruct (Options.priority a =? -1)%Z eqn:Ea;
    destruct (Options.priority b =? -1)%Z eqn:Eb;
    cbn [negb andb]; rewrite ?Z.eqb_eq, ?Z.eqb_neq in *; lia.
Qed.

Lemma compare_models_after (a b : Options.model_info) :
  (0 < Options.compare_models a b)%Z -> listed_before b a.
Proof.
  unfold Options.compare_models, listed_before; cbv zeta.
  destruct (Options.priority a =? -1)%Z eqn:Ea;
    destruct (Options.priority b =? -1)%Z eqn:Eb;
    cbn [negb andb]; rewrite ?Z.eqb_eq, ?Z.eqb_neq in *; lia.
Qed.

Lemma group_options_members (models : list Options.model_info)
    (g : Options.model_group) :
  concat (map snd (Options.group_options models g))
  = filter (fun m => Options.group_eqb (Options.group_of m) g) models.
Proof.
  unfold Options.group_options; cbv zeta.
  destruct (filter _ models) as [|m l]; [reflexivity|].
  cbn [map snd concat]. apply app_nil_r.
Qed.

Lemma perm_cons_into {A : Type} (x : A) (a l r : list A) :
  Permutation (x :: l) r -> Permutation (x :: a ++ l) (a ++ r).
Proof.
  intros H. eapply perm_trans; [apply Permutation_middle|].
  now apply Permutation_app_head.
Qed.

(** Every model is in exactly one group: the groups together hold the
    models, each once. *)
Lemma groups_hold_models (models : list Options.model_info) :
  Permutation
    (concat (map snd (concat (map (Options.group_options models)
                                  Options.all_groups))))
    models.
Proof.
  unfold Options.all_groups. cbn [map concat].
  rewrite !map_app, !concat_app, !group_options_members.
  cbn [map concat]. rewrite app_nil_r.
  induction models as [|m l IH]; [apply perm_nil|].
  cbn [filter].
  apply Permutation_sym.
  eapply perm_trans; [apply perm_skip, Permutation_sym, IH|].
  destruct (Options.group_of m); cbn [Options.group_eqb];
    repeat first [ apply Permutation_refl | apply perm_cons_into ].
Qed.

(** X29.  With at least one model the list of the page is enabled and
    offers every model exactly once, whatever the groups; the value it
    ends with is the name of one of the models, is put in the model
    field, and is the stored model whenever that is the name of one of
    the models. *)
Theorem populateModelDropdown_offers_every_model
    (selectedModel : jsstring) (o : Options.options) :
  Options.availableModels o <> [] ->
  let r := Options.populateModelDropdown selectedModel o in
  Permutation (Options.dropdown_options (fst r)) (Options.availableModels o)
  /\ Options.dd_disabled (fst r) = false
  /\ In (Options.dd_value (fst r))
        (map Options.model_id (Options.availableModels o))
  /\ Options.modelField (snd r) = Options.dd_value (fst r)
  /\ (if truthy selectedModel
         && existsb (fun m => str_eqb (Options.model_id m) selectedModel)
                    (Options.availableModels o)
      then Options.dd_value (fst r) = selectedModel
      else True).
Proof.
  intros Hne. cbv zeta. unfold Options.populateModelDropdown.
  destruct (Options.availableModels o) as [|first rest] eqn:E;
    [contradiction|].
  rewrite <- E. cbv zeta. cbn [fst snd].
  unfold Options.dropdown_options.
  cbn [Options.dd_groups Options.dd_disabled Options.dd_value
       Options.set_modelField Options.modelField].
  pose proof (groups_hold_models (Options.availableModels o)) as P.
  split; [exact P|]. split; [reflexivity|].
  split; [|split; [reflexivity|]].
  - destruct (truthy selectedModel) eqn:Ht; cbn [negb].
    + destruct (existsb _ _) eqn:Ex.
      * apply existsb_exists in Ex as (m & Hm & Hid).
        apply str_eqb_eq in Hid. rewrite <- Hid. now apply in_map.
      * destruct (concat (map snd _)) as [|m l] eqn:C.
        -- apply Permutation_nil in P. rewrite E in P. discriminate P.
        -- apply in_map. eapply Permutation_in; [exact P|]. now left.
    + destruct (find _ _) as [m|] eqn:F.
      * apply find_some in F as [Hm _]. now apply in_map.
      * rewrite E. now left.
  - destruct (truthy selectedModel); cbn [negb andb]; [|exact I].
    destruct (existsb _ _); [reflexivity|exact I].
Qed.

Lemma populateModelDropdown_offers_every_model_witness :
  let o := Options.OptionsPage [] [] None [] None ([], false)
             [Options.ModelInfo (lit "o1-mini") 3 (lit "openai");
              Options.ModelInfo (lit "gpt-4o") 2 (lit "openai")]
             None [] in
  let r := Options.populateModelDropdown (lit "gpt-4o") o in
  Permutation (Options.dropdown_options (fst r)) (Options.availableModels o)
  /\ Options.dd_disabled (fst r) = false
  /\ In (Options.dd_value (fst r))
        (map Options.model_id (Options.availableModels o))
  /\ Options.modelField (snd r) = Options.dd_value (fst r)
  /\ (if truthy (lit "gpt-4o")
         && existsb (fun m => str_eqb (Options.model_id m) (lit "gpt-4o"))
                    (Options.availableModels o)
      then Options.dd_value (fst r) = lit "gpt-4o"
      else True).
Proof.
  apply (populateModelDropdown_offers_every_model (lit "gpt-4o")
           (Options.OptionsPage [] [] None [] None ([], false)
              [Options.ModelInfo (lit "o1-mini") 3 (lit "openai");
               Options.ModelInfo (lit "gpt-4o") 2 (lit "openai")]
              None [])).
  discriminate.
Defined.

(** What filling the list leaves in the page: only the model field
    changes, and it holds the name of one of the models when there is
    one. *)
Lemma populateModelDropdown_field (selectedModel : jsstring)
    (o : Options.options) :
  let o' := snd (Options.populateModelDropdown selectedModel o) in
  Options.availableModels o' = Options.availableModels o /\
  Options.cachedModels o' = Options.cachedModels o /\
  Options.status o' = Options.status o /\
  Options.storedSettings o' = Options.storedSettings o /\
  match Options.availableModels o with
  | [] => Options.modelField o' = []
  | _ :: _ =>
      In (Options.modelField o')
         (map Options.model_id (Options.availableModels o))
  end.
Proof.
  cbv zeta. unfold Options.populateModelDropdown.
  destruct (Options.availableModels o) as [|first rest] eqn:E.
  - cbn [snd Options.set_modelField Options.availableModels
         Options.cachedModels Options.status Options.storedSettings
         Options.modelField].
    repeat split. exact E.
  - rewrite <- E. cbv zeta.
    cbn [snd Options.set_modelField Options.availableModels
         Options.cachedModels Options.status Options.storedSettings
         Options.modelField].
    repeat split.
    pose proof (groups_hold_models (Options.availableModels o)) as P.
    destruct (truthy selectedModel) eqn:Ht; cbn [negb].
    + destruct (existsb _ _) eqn:Ex.
      * apply existsb_exists in Ex as (m & Hm & Hid).
        apply str_eqb_eq in Hid. rewrite <- Hid. now apply in_map.
      * destruct (concat (map snd _)) as [|m l] eqn:C.
        -- apply Permutation_nil in P. rewrite E in P. discriminate P.
        -- apply in_map. eapply Permutation_in; [exact P|]. now left.
    + destruct (find _ _) as [m|] eqn:F.
      * apply find_some in F as [Hm _]. now apply in_map.
      * rewrite E. now left.
Qed.

(** X28.  [fetchModels] never changes the stored settings and hands at
    most one request to the network.  It hands none exactly when the
    trimmed credential does not start with [sk-]; the models of the page
    then stay as they were and an error is shown.  Otherwise the request
    is a GET of the model list, authorised with the trimmed credential;
    when it fails, the models stay as they were and an error is shown.
    When it is answered with a list, the models of the page become the
    chat models of that list and nothing else, the preferred families
    first and the other models newest first, whatever the storage calls
    that follow do.  When the storage call that caches them is rejected
    the cache stays as it was and an error is shown; when it succeeds
    the same list is cached.  When the read of the stored model is
    rejected an error is shown; otherwise the status is left alone and
    the model field holds the name of one of the models, if there is
    one. *)
Theorem fetchModels_lists_chat_models_in_order
    (toLowerCase : jsstring -> jsstring)
    (net : request -> fetch_result (list Options.model_info))
    (cache_write model_read : storage_result) (o : Options.options) :
  let key := trim (Options.apiKeyField o) in
  let req := Request Options.models_endpoint (lit "GET")
                     (lit "Bearer " ++ key) None in
  let r := Options.fetchModels toLowerCase net cache_write model_read o in
  let error_shown :=
    exists msg, Options.status (snd r) = Some (msg, lit "error") in
  Options.storedSettings (snd r) = Options.storedSettings o /\
  if starts_with (lit "sk-") key
  then
    fst r = [req] /\
    match net req with
    | HttpOk data =>
        Permutation (Options.availableModels (snd r))
                    (filter (Options.is_chat_model toLowerCase) data) /\
        StronglySorted listed_before (Options.availableModels (snd r)) /\
        match cache_write with
        | StorageError _ =>
            Options.cachedModels (snd r) = Options.cachedModels o /\
            error_shown
        | StorageOk =>
            Options.cachedModels (snd r) = Options.availableModels (snd r) /\
            match model_read with
            | StorageError _ => error_shown
            | StorageOk =>
                Options.status (snd r) = Options.status o /\
                match Options.availableModels (snd r) with
                | [] => Options.modelField (snd r) = []
                | _ :: _ =>
                    In (Options.modelField (snd r))
                       (map Options.model_id
                            (Options.availableModels (snd r)))
                end
            end
        end
    | _ =>
        Options.availableModels (snd r) = Options.availableModels o /\
        Options.cachedModels (snd r) = Options.cachedModels o /\
        error_shown
    end
  else
    fst r = [] /\
    Options.availableModels (snd r) = Options.availableModels o /\
    Options.cachedModels (snd r) = Options.cachedModels o /\
    error_shown.
Proof.
  cbv zeta. unfold Options.fetchModels; cbv zeta.
  destruct (starts_with (lit "sk-") (trim (Options.apiKeyField o))) eqn:Hp.
  - destruct (truthy (trim (Options.apiKeyField o))) eqn:Hk;
      [|destruct (trim (Options.apiKeyField o)); discriminate].
    cbn [negb].
    destruct (net _) as [msg|st em|data]; cbn [fst snd].
    + cbn [Options.showStatus Options.set_modelCount
           Options.storedSettings Options.availableModels
           Options.cachedModels Options.status].
      repeat split. eexists; reflexivity.
    + cbn [Options.showStatus Options.set_modelCount
           Options.storedSettings Options.availableModels
           Options.cachedModels Options.status].
      repeat split. eexists; reflexivity.
    + set (chatModels :=
             sort_by Options.compare_models
                     (filter (Options.is_chat_model toLowerCase) data)).
      assert (HP : Permutation chatModels
                     (filter (Options.is_chat_model toLowerCase) data))
        by apply sort_by_perm.
      assert (HS : StronglySorted listed_before chatModels)
        by apply (sort_by_sorted _ _ listed_before listed_before_trans
                    compare_models_before compare_models_after).
      destruct cache_write as [|msg]; [destruct model_read as [|msg]|];
        cbn [fst snd].
      * match goal with
        | |- context [Options.populateModelDropdown ?m ?p] =>
            destruct (populateModelDropdown_field m p)
              as (Ha & Hc & Hst & Hss & Hf);
            set (filled := snd (Options.populateModelDropdown m p)) in *
        end.
        cbn [Options.set_modelCount Options.storedSettings
             Options.availableModels Options.cachedModels Options.status
             Options.modelField].
        cbn [Options.set_cachedModels Options.set_availableModels
             Options.set_modelCount Options.availableModels
             Options.cachedModels Options.status Options.storedSettings]
          in Ha, Hc, Hst, Hss, Hf.
        rewrite Ha, Hc, Hst, Hss.
        split; [reflexivity|]. split; [reflexivity|].
        split; [exact HP|]. split; [exact HS|].
        split; [reflexivity|]. split; [reflexivity|]. exact Hf.
      * cbn [Options.showStatus Options.set_modelCount
             Options.set_cachedModels Options.set_availableModels
             Options.storedSettings Options.availableModels
             Options.cachedModels Options.status].
        repeat split; try assumption. eexists; reflexivity.
      * cbn [Options.showStatus Options.set_modelCount
             Options.set_cachedModels Options.set_availableModels
             Options.storedSettings Options.availableModels
             Options.cachedModels Options.status].
        repeat split; try assumption. eexists; reflexivity.
  - destruct (truthy (trim (Options.apiKeyField o))); cbn [negb fst snd];
      cbn [Options.showStatus Options.storedSettings
           Options.availableModels Options.cachedModels Options.status];
      repeat split; eexists; reflexivity.
Qed.

(* ================================================================== *)
(** * Further properties of the extraction: the clean-up of the text   *)
(* ================================================================== *)

(** ** The three patterns as runs of one unit *)

Lemma leading_skipn (c : N) (s : jsstring) :
  leading c (skipn (leading c s) s) = 0%nat.
Proof.
  induction s as [|x r IH]; [reflexivity|].
  cbn [leading]. destruct (N.eqb x c) eqn:E; cbn [skipn]; [exact IH|].
  cbn [leading]. now rewrite E.
Qed.

Lemma mt_unit (c : N) (k : mstate -> option mstate) (s : mstate) :
  mt (Unit_ c) k s
  = match after s with
    | x :: _ => if N.eqb x c then k (advance s) else None
    | [] => None
    end.
Proof. reflexivity. Qed.

(** The greedy repetition of one unit takes the whole run. *)
Lemma star_unit_run (c : N) :
  forall fuel s,
    (length (after s) <= fuel)%nat ->
    exists e,
      star_loop true (mt (Unit_ c)) (fun e => Some e) fuel s = Some e /\
      after e = skipn (leading c (after s)) (after s).
Proof.
  induction fuel as [|f IH]; intros [b a cs] H; cbn [after] in H.
  - exists (MState b a cs). split; [reflexivity|].
    destruct a; [reflexivity|]. cbn [length] in H. inversion H.
  - cbn [star_loop]. rewrite mt_unit. cbn [after].
    destruct a as [|x r].
    + exists (MState b [] cs). split; reflexivity.
    + cbn [leading]. destruct (N.eqb x c) eqn:X.
      * unfold advance; cbn [after before caps].
        assert (L : Nat.ltb (length r) (length (x :: r)) = true)
          by (apply Nat.ltb_lt; cbn [length]; apply Nat.lt_succ_diag_r).
        rewrite L.
        destruct (IH (MState (x :: b) r cs)) as (e & He & Ha);
          [cbn [after length] in *; now apply le_S_n|].
        rewrite He. exists e. split; [reflexivity|].
        cbn [after] in Ha. exact Ha.
      * exists (MState b (x :: r) cs). split; reflexivity.
Qed.

(** [k] units [c] followed by any more of them match exactly at a run of
    at least [k], and take the whole run. *)
Lemma mt_run (c : N) (k : nat) :
  forall s,
    match mt (lits (repeat c k) (Star true (Unit_ c))) (fun e => Some e) s with
    | Some e =>
        (k <= leading c (after s))%nat /\
        after e = skipn (leading c (after s)) (after s)
    | None => (leading c (after s) < k)%nat
    end.
Proof.
  induction k as [|k IH]; intros s.
  - cbn [repeat lits].
    change (mt (Star true (Unit_ c)) (fun e => Some e) s)
      with (star_loop true (mt (Unit_ c)) (fun e => Some e)
                      (length (after s)) s).
    destruct (star_unit_run c (length (after s)) s (Nat.le_refl _))
      as (e & -> & Ha).
    split; [apply Nat.le_0_l|exact Ha].
  - cbn [repeat lits]. change (mt (Seq ?a ?b) ?k ?s) with (mt a (mt b k) s).
    rewrite mt_unit. destruct s as [b a cs]; cbn [after].
    destruct a as [|x r]; [apply Nat.lt_0_succ|].
    cbn [leading]. destruct (N.eqb x c) eqn:X; [|apply Nat.lt_0_succ].
    unfold advance; cbn [after before caps].
    specialize (IH (MState (x :: b) r cs)). cbn [after] in IH.
    destruct (mt _ _ _) as [e|].
    + destruct IH as [Hk Ha]. split; [now apply le_n_S|exact Ha].
    + now apply (proj1 (Nat.succ_lt_mono _ _)).
Qed.

(** Replacing such a pattern everywhere squeezes the runs. *)
Lemma replace_from_run (c : N) (k : nat) (rep : jsstring) :
  (1 <= k)%nat ->
  forall fuel s,
    replace_from fuel (lits (repeat c k) (Star true (Unit_ c)))
                 (expand [Text rep]) s
    = squeeze fuel k c rep (after s).
Proof.
  intros Hk. induction fuel as [|n IH]; intros s; [reflexivity|].
  cbn [replace_from squeeze]. unfold match_here.
  pose proof (mt_run c k (MState (before s) (after s) [])) as M.
  cbn [after] in M.
  destruct (mt _ _ _) as [e|].
  - destruct M as [Hl Ha]. cbv zeta.
    unfold expand at 1. cbn [map concat]. rewrite app_nil_r.
    destruct (after s) as [|x r] eqn:E.
    { cbn [leading] in Hl. exfalso.
      exact (Nat.nle_succ_0 _ (Nat.le_trans _ _ _ Hk Hl)). }
    assert (H1 : (1 <= leading c (x :: r))%nat)
      by exact (Nat.le_trans _ _ _ Hk Hl).
    assert (L : Nat.ltb (length (after e)) (length (x :: r)) = true).
    { apply Nat.ltb_lt. rewrite Ha, length_skipn.
      apply Nat.sub_lt; [|exact H1].
      clear. induction (x :: r) as [|y l IH]; [apply Nat.le_refl|].
      cbn [leading length]. destruct (N.eqb y c);
        [now apply le_n_S|apply Nat.le_0_l]. }
    rewrite L.
    assert (C : Nat.leb k (leading c (x :: r))
                && Nat.ltb 0 (leading c (x :: r)) = true).
    { apply andb_true_iff. split;
        [now apply Nat.leb_le|now apply Nat.ltb_lt]. }
    rewrite C, IH, Ha. reflexivity.
  - destruct (after s) as [|x r] eqn:E; [reflexivity|].
    assert (C : Nat.leb k (leading c (x :: r))
                && Nat.ltb 0 (leading c (x :: r)) = false).
    { apply andb_false_iff. left. now apply Nat.leb_gt. }
    rewrite C, IH. unfold advance. rewrite E. reflexivity.
Qed.

Lemma clean_up_squeezes (t : jsstring) :
  Background.clean_up t =
  let a := squeeze (S (length t)) 1 9 (lit " ") t in
  let b := squeeze (S (length a)) 1 32 (lit " ") a in
  trim (squeeze (S (length b)) 4 LF [LF; LF; LF] b).
Proof.
  cbv zeta.
  unfold Background.clean_up, replace_all, replace_with,
    Background.re_tabs, Background.re_spaces, Background.re_blank_lines.
  change (Plus (Unit_ 9)) with (lits (repeat 9%N 1) (Star true (Unit_ 9))).
  change (Plus (Unit_ 32)) with (lits (repeat 32%N 1) (Star true (Unit_ 32))).
  change (lits [LF; LF; LF; LF] (Star true (Unit_ LF)))
    with (lits (repeat LF 4) (Star true (Unit_ LF))).
  rewrite !replace_from_run by (repeat constructor).
  reflexivity.
Qed.

(** ** Runs in a squeezed and trimmed text *)

Lemma runs_nil (c : N) (k : nat) : runs_at_most c k [].
Proof. intros n. rewrite skipn_nil. apply Nat.le_0_l. Qed.

Lemma runs_cons (c : N) (k : nat) (x : N) (r : jsstring) :
  runs_at_most c k (x :: r) <->
  (leading c (x :: r) <= k)%nat /\ runs_at_most c k r.
Proof.
  split.
  - intros H. split; [exact (H 0%nat)|]. intros n. exact (H (S n)).
  - intros [H0 Hr] [|n]; [exact H0|exact (Hr n)].
Qed.

Lemma runs_other (c : N) (k : nat) (x : N) (r : jsstring) :
  N.eqb x c = false -> runs_at_most c k r -> runs_at_most c k (x :: r).
Proof.
  intros E H. apply runs_cons. split; [|exact H].
  cbn [leading]. rewrite E. apply Nat.le_0_l.
Qed.

Lemma runs_skipn (c : N) (k n : nat) (s : jsstring) :
  runs_at_most c k s -> runs_at_most c k (skipn n s).
Proof. intros H m. rewrite skipn_skipn. apply H. Qed.

Lemma runs_app_r (c : N) (k : nat) (a s : jsstring) :
  runs_at_most c k (a ++ s) -> runs_at_most c k s.
Proof.
  induction a as [|x a IH]; intros H; [exact H|].
  rewrite <- app_comm_cons in H. apply runs_cons in H as [_ H]. now apply IH.
Qed.

Lemma leading_app_le (c : N) (t b : jsstring) :
  (leading c t <= leading c (t ++ b))%nat.
Proof.
  induction t as [|x t IH]; cbn [leading app]; [apply Nat.le_0_l|].
  destruct (N.eqb x c); [now apply le_n_S|apply Nat.le_refl].
Qed.

Lemma runs_app_l (c : N) (k : nat) (t b : jsstring) :
  runs_at_most c k (t ++ b) -> runs_at_most c k t.
Proof.
  induction t as [|x t IH]; intros H; [apply runs_nil|].
  rewrite <- app_comm_cons in H. apply runs_cons in H as [H0 Hr].
  apply runs_cons. split; [|now apply IH].
  eapply Nat.le_trans; [|exact H0]. apply (leading_app_le c (x :: t) b).
Qed.

Lemma trim_start_suffix (s : jsstring) : exists a, s = a ++ trim_start s.
Proof.
  induction s as [|c s [a IH]]; [exists []; reflexivity|].
  cbn [trim_start]. destruct (is_space c).
  - exists (c :: a). cbn [app]. now rewrite <- IH.
  - exists []. reflexivity.
Qed.

(** The trimmed text is a part of the text. *)
Lemma trim_middle (s : jsstring) : exists a b, s = a ++ trim s ++ b.
Proof.
  unfold trim. destruct (trim_start_suffix s) as [a Ha].
  destruct (trim_start_suffix (rev (trim_start s))) as [b Hb].
  exists a, (rev b).
  rewrite <- rev_app_distr, <- Hb, rev_involutive. exact Ha.
Qed.

Lemma runs_trim (c : N) (k : nat) (s : jsstring) :
  runs_at_most c k s -> runs_at_most c k (trim s).
Proof.
  intros H. destruct (trim_middle s) as (a & b & E). rewrite E in H.
  apply runs_app_r in H. now apply runs_app_l in H.
Qed.

Lemma trim_start_fixed (s : jsstring) :
  trim_start (trim_start s) = trim_start s.
Proof.
  induction s as [|c s IH]; [reflexivity|].
  cbn [trim_start]. destruct (is_space c) eqn:E; [exact IH|].
  cbn [trim_start]. now rewrite E.
Qed.

Lemma trim_start_fixed_prefix (w z : jsstring) :
  w <> [] -> trim_start (w ++ z) = w ++ z -> trim_start w = w.
Proof.
  destruct w as [|c w]; [contradiction|]. intros _.
  cbn [app trim_start]. destruct (is_space c); [|reflexivity].
  intros H. exfalso.
  pose proof (trim_start_length (w ++ z)) as L. rewrite H in L.
  cbn [length] in L. exact (Nat.nle_succ_diag_l _ L).
Qed.

(** Trimming a trimmed text changes nothing. *)
Lemma trim_trim (s : jsstring) : trim (trim s) = trim s.
Proof.
  unfold trim.
  remember (trim_start s) as u eqn:Eu.
  remember (trim_start (rev u)) as v eqn:Ev.
  assert (Hu : trim_start u = u) by (subst u; apply trim_start_fixed).
  assert (Hv : trim_start v = v) by (subst v; apply trim_start_fixed).
  assert (Hrv : trim_start (rev v) = rev v).
  { destruct (trim_start_suffix (rev u)) as [b Hb]. rewrite <- Ev in Hb.
    assert (Hu' : u = rev v ++ rev b)
      by (rewrite <- rev_app_distr, <- Hb, rev_involutive; reflexivity).
    destruct v as [|y v']; [reflexivity|].
    apply (trim_start_fixed_prefix (rev (y :: v')) (rev b)).
    - intros E. apply (f_equal (@length N)) in E.
      rewrite length_rev in E. discriminate E.
    - rewrite <- Hu'. exact Hu. }
  rewrite Hrv, rev_involutive, Hv. reflexivity.
Qed.

Section Squeeze.

Variable m : nat.
Variable c : N.
Variable rep : jsstring.

(** A run shorter than [m] at the start of a text is left alone. *)
Lemma squeeze_leading_short :
  forall f s, (leading c s < m)%nat ->
              leading c (squeeze f m c rep s) = leading c s.
Proof.
  induction f as [|f IH]; intros s H; [reflexivity|].
  cbn [squeeze]. destruct s as [|x r]; [reflexivity|].
  assert (C : Nat.leb m (leading c (x :: r))
              && Nat.ltb 0 (leading c (x :: r)) = false)
    by (apply andb_false_iff; left; now apply Nat.leb_gt).
  rewrite C. cbn [leading] in *. destruct (N.eqb x c); [|reflexivity].
  f_equal. apply IH. now apply Nat.lt_succ_l.
Qed.

(** Squeezing leaves no run of [c] longer than [k], when the runs it
    writes and the runs it leaves are at most that long. *)
Lemma squeeze_runs (k : nat) :
  (1 <= m)%nat -> (m <= S k)%nat ->
  (forall rest, leading c rest = 0%nat -> runs_at_most c k rest ->
                runs_at_most c k (rep ++ rest)) ->
  forall f s, (length s <= f)%nat -> runs_at_most c k (squeeze f m c rep s).
Proof.
  intros H1 Hm Hrep. induction f as [|f IH]; intros s Hlen.
  - destruct s; [apply runs_nil|inversion Hlen].
  - cbn [squeeze]. destruct s as [|x r]; [apply runs_nil|].
    cbn [length] in Hlen. apply le_S_n in Hlen.
    destruct (Nat.leb m (leading c (x :: r))
              && Nat.ltb 0 (leading c (x :: r))) eqn:C.
    + apply andb_true_iff in C as [C1 C2].
      apply Nat.leb_le in C1. apply Nat.ltb_lt in C2.
      apply Hrep.
      * rewrite squeeze_leading_short; [apply leading_skipn|].
        rewrite leading_skipn. exact H1.
      * apply IH. rewrite length_skipn. cbn [length].
        destruct (leading c (x :: r)) as [|l]; [inversion C2|].
        cbn [Nat.sub]. eapply Nat.le_trans; [apply Nat.le_sub_l|exact Hlen].
    + assert (Hl : (leading c (x :: r) < m)%nat).
      { apply andb_false_iff in C as [C|C]; [now apply Nat.leb_gt|].
        apply Nat.ltb_ge in C. eapply Nat.le_lt_trans; [exact C|exact H1]. }
      apply runs_cons. split; [|now apply IH].
      cbn [leading] in *. destruct (N.eqb x c); [|apply Nat.le_0_l].
      rewrite squeeze_leading_short by now apply Nat.lt_succ_l.
      apply Nat.lt_succ_r. eapply Nat.lt_le_trans; [exact Hl|exact Hm].
Qed.

(** Squeezing the runs of [c] makes no run of another unit longer. *)
Lemma squeeze_leading_other (d : N) :
  (forall rest, leading d (rep ++ rest) = 0%nat) ->
  forall f s, (leading d (squeeze f m c rep s) <= leading d s)%nat.
Proof.
  intros Hrep. induction f as [|f IH]; intros s; [apply Nat.le_refl|].
  cbn [squeeze]. destruct s as [|x r]; [apply Nat.le_refl|].
  destruct (_ && _).
  - rewrite Hrep. apply Nat.le_0_l.
  - cbn [leading]. destruct (N.eqb x d); [apply le_n_S, IH|apply Nat.le_refl].
Qed.

Lemma squeeze_runs_other (d : N) (k : nat) :
  (forall rest, leading d (rep ++ rest) = 0%nat) ->
  (forall rest, runs_at_most d k rest -> runs_at_most d k (rep ++ rest)) ->
  forall f s, runs_at_most d k s -> runs_at_most d k (squeeze f m c rep s).
Proof.
  intros H0 Hrep. induction f as [|f IH]; intros s H; [exact H|].
  cbn [squeeze]. destruct s as [|x r]; [exact H|].
  destruct (_ && _).
  - apply Hrep, IH, runs_skipn, H.
  - apply runs_cons in H as [Hx Hr]. apply runs_cons.
    split; [|apply IH, Hr].
    cbn [leading] in *. destruct (N.eqb x d); [|apply Nat.le_0_l].
    eapply Nat.le_trans; [|exact Hx]. apply le_n_S, squeeze_leading_other, H0.
Qed.

End Squeeze.

(** X30.  The main text that [extractMainContent] returns is cleaned:
    it holds no tab, no two spaces in a row and no four line feeds in a
    row, and it neither starts nor ends with white space, whatever the
    body, the shadow trees, the frames and the canvases hold. *)
Theorem extractMainContent_is_cleaned
    (bodyText : jsstring) (shadowTexts : list jsstring)
    (iframeTexts : list (option jsstring)) (canvasTexts : list jsstring) :
  let out := Background.extractMainContent bodyText shadowTexts iframeTexts
                                           canvasTexts in
  runs_at_most 9 0 out /\ runs_at_most 32 1 out /\ runs_at_most LF 3 out /\
  trim out = out.
Proof.
  cbv zeta. unfold Background.extractMainContent; cbv zeta.
  match goal with
  | |- context [Background.clean_up ?t] => generalize t
  end.
  intros t. rewrite clean_up_squeezes; cbv zeta.
  set (a := squeeze (S (length t)) 1 9 (lit " ") t).
  set (b := squeeze (S (length a)) 1 32 (lit " ") a).
  assert (Ha : runs_at_most 9 0 a).
  { apply squeeze_runs; try apply Nat.le_refl; [|apply Nat.le_succ_diag_r].
    intros rest _ Hr. now apply runs_other. }
  assert (Hb9 : runs_at_most 9 0 b).
  { apply squeeze_runs_other; [reflexivity| |exact Ha].
    intros rest Hr. now apply runs_other. }
  assert (Hb32 : runs_at_most 32 1 b).
  { apply squeeze_runs; try apply Nat.le_refl;
      [apply Nat.le_succ_diag_r| |apply Nat.le_succ_diag_r].
    intros rest H0 Hr. apply runs_cons. split; [|exact Hr].
    change (S (leading 32 rest) <= 1)%nat.
    rewrite H0. apply Nat.le_refl. }
  split; [|split; [|split]].
  - apply runs_trim. apply squeeze_runs_other; [reflexivity| |exact Hb9].
    intros rest Hr. now repeat apply runs_other.
  - apply runs_trim. apply squeeze_runs_other; [reflexivity| |exact Hb32].
    intros rest Hr. now repeat apply runs_other.
  - apply runs_trim.
    apply squeeze_runs;
      [repeat constructor|apply Nat.le_refl| |apply Nat.le_succ_diag_r].
    intros rest H0 Hr.
    repeat (apply runs_cons; split;
            [cbn [app leading N.eqb LF Pos.eqb]; rewrite ?H0;
             repeat constructor|]).
    exact Hr.
  - apply trim_trim.
Qed.
